(* ===== verification/_CoqProject ===== *)
-Q . S2P
Prelude.v
JsString.v
JsValue.v
JsNumber.v
Json.v
JsonParse.v
JsonNumber.v
JsonRoundtrip.v
Http.v
Axios.v
QueryView.v
Render.v
Runtime.v
PageProperties.v
Refinement.v
Wire.v
Unbatched.v
