(* ===== verification/Prelude.v ===== *)
(** * rag-frontend: a verification of the query view of [App.js]

    ** The program

    The repository's only source file, [src/rag-frontend/src/App.js], is a
    React component [App] that keeps four pieces of state ([query],
    [results], [loading], [error]), sends the typed query to a backend with
    [axios.post] when the form is submitted, stores the [contexts] of the
    reply, and renders one card per context, an error banner, or a
    placeholder.  The parts and how they meet:
    - the handlers ([handleSubmit], split by its [await] into the part that
      resets the state and sends the request and the continuation with its
      try/catch/finally; the input's [onChange]) change the state;
    - the HTTP call ([axios.post] and the settlement of its promise) is the
      only interaction with the outside; the backend is not in the
      repository, so its replies are arbitrary inputs;
    - the render ([App]'s JSX) is a function of the state that can throw,
      and React unmounts the page when it does;
    - the browser interleaves typing, submissions and replies in any order.

    ** The files

    - [Prelude] (this file): the [outcome] error monad with its notation in
      [rag_scope], the traversal [omap_idx] ([Array.prototype.map]), the
      hint databases [rag] (resolution) and [rag_simpl] (rewriting), the
      tactics [inv_obind], [opt_inv] and [bool_facts], and the generic
      list lemmas.
    - [JsString]: strings as UTF-16 code units ([list N]),
      [String.prototype.trim] (ECMAScript TrimString), truthiness, and
      [blank], the test [!query.trim()] of line 17.
    - [JsValue]: the values the code meets ([jval]: JSON plus [undefined]),
      a nested induction principle, decidable equality ([EqDecision]), the
      exceptions ([exn]), property reads ([get_prop], [v.k]) and
      [call_map] ([v.map(f)]).
    - [JsNumber]: the comparison [results.length > 0] of line 58 for every
      value, with ToPrimitive, ToString and StringToNumber, and
      Number::toString ([number_to_jstr]: the digits of [m * 10^e] without
      trailing zeros in the integer, fixed-point, [0.000ddd] and exponent
      formats).
    - [Json]: [JSON.stringify] ([serialize]: QuoteJSONString with lone
      surrogates escaped, OrdinaryOwnPropertyKeys order, [undefined]
      members dropped) and the lexical parts of [JSON.parse] (white space,
      strings, number literals, literal names) per ECMA-404.
    - [JsonParse]: [JSON.parse] as a fuelled recursive descent
      [parse_value]/[parse_elements]/[parse_members] with
      [POk]/[PErr]/[PFuel] results; the descent consumes text
      ([parse_rest_shorter]), and its fuel [2 * length s + 2] is enough
      and more changes nothing ([parse_fuel_enough], [parse_fuel_mono]).
    - [JsonNumber]: Number::toString read back by the JSON number grammar
      ([parse_number_text]), through the digit lemmas and the uniqueness of
      the decomposition [p = s * 10^t].
    - [JsonRoundtrip]: [JSON.parse (JSON.stringify v) = v] for every value
      that can round trip ([plain]), by nested induction on [v]
      ([serialize_reads]); [Wire] applies it to the request body (C17).
    - [Http]: the interface between the view and its HTTP client, the
      class [Http.Client]: how the awaited promise of a request settles for
      each reply (2xx resolves with the reply's status and body, anything
      else rejects).  [QueryView], [Runtime], [Refinement] and the guarded
      theorems of [PageProperties] are proved in sections over any client.
    - [Axios]: the request value of [axios.post], axios's settlement
      ([validateStatus], rejection codes), the instance [Axios.client]
      that discharges the laws of [Http.Client] (the witnesses run with
      it).
    - [QueryView]: the state record, the setters, [handleSubmit] and
      [handleSubmit_resume] (lines 6-36), and their properties C1-C4.
    - [Render]: [App] (lines 38-73) as a function into a [view], React's
      [commit] of the cards, [display]; properties C9, C14 and C22.
    - [Runtime]: the page as a step function over a [world] (state,
      mounted flag, requests in flight, requests sent, console), events
      [Input], [Submit], [Settle] with and without the disabled-button
      guard, its inversion [step_inv], and the invariant [guarded_inv]
      with its preservation by every event.
    - [Refinement]: the design document's contract, written from the
      design and not from the code: the Idle/Loading/Success/Failure
      machine ([Spec.astep], runs [Spec.asteps]), the decoding of the
      success body of section 6 ([Spec.decode_body]) that classifies each
      reply, and the view each phase must show ([Spec.phase_view]); the
      abstraction [abs] (the page is mounted and displays that view), the
      simulation diagram [page_step_refines] and property C7.
    - [PageProperties]: runs of the page ([run]) and the worlds they reach
      ([reachable], with and without the guard, where [guarded_inv]
      holds), and the properties of whole runs: C5, C6, C8, C10-C13, C15,
      C16, C23.
    - [Wire]: axios's wire layer, [transform_request] (JSON.stringify of
      the body), [raw_reply] (a status and the reply text) and
      [transform_response] (silent JSON.parse, the text kept when it is not
      JSON) composed in [receive], and the page composed with it: the text
      axios sends (C17) and what the page does with a reply's text
      (C18, C19, C24).
    - [Unbatched]: the page under React 17's legacy mode, where each setter
      after the await renders at once and a render error is rethrown into
      the try/catch/finally ([set_sync], [try_sync], [catch_sync],
      [resume_sync], [step_sync]), and its lock-step simulation of the
      React 18 page ([same_page], [step_same_page]); C20, C21.

    ** What the theorems show

    - Handlers (C1-C4): a blank query sends nothing and resets the state; any
      other query clears error and results, sets [loading] and sends exactly
      the POST of [{q, k: 5, mode: 'hybrid'}] to /ask; a 2xx reply stores
      [response.data.contexts] verbatim; a network error, a non-2xx status
      or a [null] body sets the fixed message and keeps the results.
    - Invariant and safety (C5, C6, C11): with the form guard, at most one
      request is ever in flight and the button is disabled exactly then; an
      error is only ever shown with the placeholder, never with cards;
      every request ever sent is well formed, with or without the guard.
    - Refinement (C7): every run of the guarded page from its first
      render, with a backend that keeps the wire contract of section 6, is
      a run of the design's state machine with each reply classified by
      the design's decoding of its body; after it the page is mounted and
      shows exactly the design's view of the phase reached.
    - Liveness (C8): any reply to the request in flight returns the page to
      a state where it can be submitted again.
    - Rendering (C9, C14, C22): an array of records renders one card per
      record, in order, whatever their number; a non-array never renders a
      card, and a non-empty string crashes the render; the cards' React
      keys are always [0 .. n-1], hence distinct.
    - Editing during a request (C23): the input stays editable while a
      request is in flight, and the reply's cards are then shown under a
      query text they do not answer.
    - Errors and races (C10, C12, C13): a 2xx body without [contexts]
      unmounts the page with no message; with submissions by script, from
      any page with a request in flight, a second submission makes the
      first reply re-enable the button while the second request is
      pending, and a failed first reply leaves its message shown above the
      cards of the second.
    - Diagnostics (C15, C16): over any run, [console.error] gets exactly one
      entry per failed reply; the page's error is only ever the fixed
      message.
    - The wire (C17-C19, C24): for every query, the body sent is the text
      [{"q":...,"k":5,"mode":"hybrid"}] and parses back to the request
      object; a 2xx reply whose text is not JSON unmounts the page with no
      message (the design says it is a failure shown with the fixed
      message); a 2xx reply whose text parses to [{contexts: [...]}]
      shows one card per context; a network failure or a non-2xx status,
      whatever the text, shows the fixed message with the placeholder
      (C24).
    - React versions (C20, C21): with the form guard, React 17 and React 18
      accept the same event sequences and show the same page after each;
      they differ only in the console, where React 17's catch block logs
      the render error of a reply without usable [contexts].

    ** Modelling choices, bounds

    Fuel is used where the recursion is not structural, each with the
    theorem that it is enough: [JsonParse.parse_value] gets [2 * length s + 2]
    (every nested call consumes a code unit or descends one level,
    [JsonParse.parse_fuel_enough]),
    [Json.parse_chars] the length of the text, [JsNumber.n_digits] one more
    than the bit size of the number and [JsNumber.strip_zeros] the bit
    size of the mantissa.  Numbers are integers ([JNum]) or exact
    non-integer decimals ([JDec neg m e], [m] not divisible by 10, [e < 0]),
    the value of the literal they come from; binary64 rounding is modelled
    only where the page can observe it, as the underflow of a tiny decimal
    to 0 ([dec_nonzero]).  Number::toString agrees with JavaScript on the
    numbers with at most 15 significant digits; a literal beyond the range
    of doubles (1e400) is kept exact where JavaScript gives Infinity.  The
    reply's text is decoded as axios does ([Wire.receive]); [Http.reply]
    carries the decoded body, so [QueryView] and [Runtime] are proved for
    every body, decodable or not.  React batches the state
    updates of one event (React 18), so only the state after each event is
    rendered in [Runtime]; [Unbatched] renders after each setter of the
    continuation instead (React 17), and the exception the continuation may
    end with, which rejects a promise nothing awaits, is dropped.
    Not modelled: the backend (external), CSS and the static
    markup (no behaviour), the order in which React reports several bad
    cards (all of them unmount the page the same way), request headers and
    the XHR adapter's events (App.js reads neither), and binary64 rounding
    beyond underflow (the page only compares a length with 0).  The
    console holds what [App.js] itself logs ([console.error] in the catch
    block); the messages React prints about an unmounted tree are not
    modelled. *)

From Stdlib Require Import ZArith NArith Lia.
From stdpp Require Import base list decidable.

Declare Scope rag_scope.
Delimit Scope rag_scope with rag.

Create HintDb rag discriminated.
Create Rewrite HintDb rag_simpl.

(** ** Outcomes of code that can throw

    A computation of the modelled JavaScript either returns a value or
    throws; [outcome E A] is that sum, with its bind.  It is the error monad
    of the whole development. *)

Inductive outcome (E A : Type) : Type :=
| Ret (a : A)
| Throw (e : E).
Arguments Ret {E A} a.
Arguments Throw {E A} e.

Definition obind {E A B} (m : outcome E A) (k : A -> outcome E B) : outcome E B :=
  match m with
  | Ret a => k a
  | Throw e => Throw e
  end.

Notation "x <- m ;; k" := (obind m (fun x => k))
  (at level 60, m at next level, right associativity) : rag_scope.

Open Scope rag_scope.

(** [xs.map(f)] where [f] receives the element and its index, as
    [Array.prototype.map] calls it, stopping at the first throw. *)
Fixpoint omap_idx {E A B} (f : A -> nat -> outcome E B) (i : nat) (l : list A)
    : outcome E (list B) :=
  match l with
  | [] => Ret []
  | x :: l' => y <- f x i ;; ys <- omap_idx f (S i) l' ;; Ret (y :: ys)
  end.

Definition is_ret {E A} (m : outcome E A) : bool :=
  match m with Ret _ => true | Throw _ => false end.

Lemma obind_ret {E A B} (a : A) (k : A -> outcome E B) : obind (Ret a) k = k a.
Proof. reflexivity. Qed.

Lemma obind_throw {E A B} (e : E) (k : A -> outcome E B) : obind (Throw e) k = Throw e.
Proof. reflexivity. Qed.

Lemma obind_ret_inv {E A B} (m : outcome E A) (k : A -> outcome E B) b :
  obind m k = Ret b -> exists a, m = Ret a /\ k a = Ret b.
Proof. destruct m; simpl; [eauto | discriminate]. Qed.

#[export] Hint Rewrite @obind_ret @obind_throw : rag_simpl.

(** When every element maps without throwing, the traversal returns the
    mapped list: element [j] of the result is [g] at index [i + j]. *)
Lemma omap_idx_map_ret {E A A' B} (f : A -> nat -> outcome E B) (h : A' -> A)
    (g : nat -> A' -> B) i l :
  (forall x j, f (h x) j = Ret (g j x)) ->
  omap_idx f i (map h l) = Ret (imap (fun j => g (i + j)) l).
Proof.
  intros Hf. revert i. induction l as [|x l IH]; intros i; simpl; [done|].
  rewrite Hf, obind_ret, IH, obind_ret, Nat.add_0_r. do 2 f_equal.
  apply imap_ext. intros j y _. simpl. f_equal. lia.
Qed.

Lemma omap_idx_length {E A B} (f : A -> nat -> outcome E B) i l ys :
  omap_idx f i l = Ret ys -> length ys = length l.
Proof.
  revert i ys. induction l as [|x l IH]; intros i ys; simpl.
  - by intros [= <-].
  - intros (y & _ & (ys' & Hys & [= <-])%obind_ret_inv)%obind_ret_inv.
    simpl. f_equal. eauto.
Qed.

(** When [f] tags what it returns with the index it is given, the results
    of [omap_idx f i] carry the indices [i], [i + 1], ... *)
Lemma omap_idx_index {E A B} (f : A -> nat -> outcome E B) (key : B -> nat) i l ys :
  (forall x j y, f x j = Ret y -> key y = j) ->
  omap_idx f i l = Ret ys -> map key ys = seq i (length ys).
Proof.
  intros Hf. revert i ys. induction l as [|x l IH]; intros i ys; simpl.
  - by intros [= <-].
  - intros (y & Hy & (ys' & Hys & [= <-])%obind_ret_inv)%obind_ret_inv.
    simpl. by rewrite (Hf _ _ _ Hy), (IH _ _ Hys).
Qed.

(** ** Generic list lemmas *)

Lemma rev_nil_iff {A} (l : list A) : rev l = [] <-> l = [].
Proof.
  split; [|by intros ->]. intros H. by rewrite <- (rev_involutive l), H.
Qed.

(** ** Proof automation shared by the components *)

(** Case analysis of the option binds of the hypotheses, splitting the
    pairs they bind. *)
Ltac opt_inv :=
  repeat (simplify_option_eq ||
          match goal with
          | p : (_ * _)%type |- _ => destruct p
          | H : context [match ?x with _ => _ end] |- _ => case_match
          end).

(** Turn the boolean comparisons of the hypotheses into propositions. *)
Ltac bool_facts :=
  repeat match goal with
  | H : (_ && _) = true |- _ => apply andb_true_iff in H as [? ?]
  | H : (_ || _) = false |- _ => apply orb_false_iff in H as [? ?]
  | H : negb _ = true |- _ => apply negb_true_iff in H
  | H : negb _ = false |- _ => apply negb_false_iff in H
  | H : (_ <=? _)%N = true |- _ => apply N.leb_le in H
  | H : (_ <=? _)%N = false |- _ => apply N.leb_gt in H
  | H : (_ <? _)%N = true |- _ => apply N.ltb_lt in H
  | H : (_ <? _)%N = false |- _ => apply N.ltb_ge in H
  | H : (_ =? _)%N = true |- _ => apply N.eqb_eq in H
  | H : (_ =? _)%N = false |- _ => apply N.eqb_neq in H
  | H : (_ <=? _)%Z = true |- _ => apply Z.leb_le in H
  | H : (_ <=? _)%Z = false |- _ => apply Z.leb_gt in H
  | H : (_ <? _)%Z = true |- _ => apply Z.ltb_lt in H
  | H : (_ <? _)%Z = false |- _ => apply Z.ltb_ge in H
  | H : (_ =? _)%Z = true |- _ => apply Z.eqb_eq in H
  | H : (_ =? _)%Z = false |- _ => apply Z.eqb_neq in H
  end.

(** Split the [obind] of a hypothesis [obind m k = Ret b]. *)
Ltac inv_obind :=
  repeat match goal with
  | H : obind ?m ?k = Ret _ |- _ =>
      let a := fresh "a" in let Ha := fresh "Ha" in
      apply obind_ret_inv in H as (a & Ha & H)
  end.
