(* ===== verification/JsString.v ===== *)
(** * JavaScript strings and [String.prototype.trim]

    A JavaScript string is a sequence of UTF-16 code units; we model it as
    [list N], one [N] per code unit.  [App.js] inspects strings in two
    places: the emptiness test [!query.trim()] of [handleSubmit] (line 17)
    and the truthiness tests of JSX ([{error && ...}], line 55).  This file
    gives [trim] exactly as ECMAScript's TrimString (both ends, over the
    WhiteSpace and LineTerminator code points, all of which are single
    UTF-16 code units), string truthiness, and the lemmas the handlers'
    proofs use: a string trims to empty exactly when every code unit is
    white space. *)

From S2P Require Import Prelude.
From Stdlib Require Import ZArith NArith String Ascii.
From stdpp Require Import base list decidable.

(** A JavaScript string value: its UTF-16 code units. *)
Abbreviation jstr := (list N).

(** Literals: an ASCII Rocq string read as the JavaScript string with the
    same characters (ASCII characters are one code unit each). *)
Definition js (s : string) : jstr := map N_of_ascii (list_ascii_of_string s).

Module JsString.
Local Open Scope N_scope.

(** ECMAScript LineTerminator: LF, CR, LINE SEPARATOR, PARAGRAPH SEPARATOR. *)
Definition is_line_terminator (c : N) : bool :=
  (c =? 0x0A) || (c =? 0x0D) || (c =? 0x2028) || (c =? 0x2029).

(** ECMAScript WhiteSpace: TAB, VT, FF, ZWNBSP, and the Unicode category Zs
    (SPACE, NO-BREAK SPACE, OGHAM SPACE MARK, EN QUAD .. HAIR SPACE,
    NARROW NO-BREAK SPACE, MEDIUM MATHEMATICAL SPACE, IDEOGRAPHIC SPACE). *)
Definition is_white_space (c : N) : bool :=
  (c =? 0x09) || (c =? 0x0B) || (c =? 0x0C) || (c =? 0xFEFF) ||
  (c =? 0x20) || (c =? 0xA0) || (c =? 0x1680) ||
  ((0x2000 <=? c) && (c <=? 0x200A)) ||
  (c =? 0x202F) || (c =? 0x205F) || (c =? 0x3000).

(** The code units [trim] removes. *)
Definition is_trim_space (c : N) : bool := is_white_space c || is_line_terminator c.

(** TrimString, start side. *)
Fixpoint trim_start (s : jstr) : jstr :=
  match s with
  | [] => []
  | c :: s' => if is_trim_space c then trim_start s' else s
  end.

(** TrimString, end side. *)
Definition trim_end (s : jstr) : jstr := rev (trim_start (rev s)).

(** [String.prototype.trim]: TrimString with where = start+end. *)
Definition trim (s : jstr) : jstr := trim_end (trim_start s).

(** ToBoolean on a string: only the empty string is falsy. *)
Definition str_truthy (s : jstr) : bool :=
  match s with [] => false | _ :: _ => true end.

(** A string that is blank: [trim] leaves nothing, so [!s.trim()] holds. *)
Definition blank (s : jstr) : bool := negb (str_truthy (trim s)).

(** ** Lemmas *)

Lemma trim_start_nil_iff s :
  trim_start s = [] <-> Forall (fun c => is_trim_space c = true) s.
Proof.
  induction s as [|c s IH]; simpl; [split; auto|].
  destruct (is_trim_space c) eqn:E.
  - rewrite IH. split; [by constructor | by inversion 1].
  - split; [discriminate | inversion 1; congruence].
Qed.

Lemma trim_start_head s c s' :
  trim_start s = c :: s' -> is_trim_space c = false.
Proof.
  induction s as [|d s IH]; simpl; [discriminate|].
  destruct (is_trim_space d) eqn:E; [exact IH | congruence].
Qed.

Lemma trim_nil_iff s :
  trim s = [] <-> Forall (fun c => is_trim_space c = true) s.
Proof.
  unfold trim, trim_end. rewrite rev_nil_iff, trim_start_nil_iff.
  split.
  - intros Hr%Forall_rev. rewrite rev_involutive in Hr.
    destruct (trim_start s) as [|c t] eqn:E; [by apply trim_start_nil_iff|].
    inversion Hr as [|? ? Hc]. by rewrite (trim_start_head s c t E) in Hc.
  - intros H. apply trim_start_nil_iff in H as ->. constructor.
Qed.

(** A blank string is exactly one made of white space and line terminators. *)
Lemma blank_iff s : blank s = true <-> Forall (fun c => is_trim_space c = true) s.
Proof.
  unfold blank. rewrite <- trim_nil_iff.
  destruct (trim s); simpl; split; done.
Qed.

End JsString.

