(* ===== verification/JsValue.v ===== *)
(** * JavaScript values, exceptions and property reads

    The values [App.js] handles that come from outside are the body of the
    backend's reply ([response.data], line 29) and what is stored from it in
    the [results] state: whatever JSON the backend sent, or a string when
    the body was not JSON (axios keeps the raw text then).  [jval] is that
    domain plus [undefined], which a read of a missing property yields.
    A Number is [JNum z] when its value is the integer [z], and otherwise
    [JDec neg m e], the value (-1)^neg * m * 10^e with [m] not a multiple
    of 10 and [e < 0]: numbers keep the exact decimal value of the literal
    they come from, where JavaScript rounds it to a double (see the root
    file for what this changes).  An object keeps its members in source
    order, and a read sees the last binding of a key, as [JSON.parse] does
    with duplicate keys.

    [get_prop v k] is [v.k] (ECMAScript [[Get]]) for the keys the code
    reads: "contexts", "length", "source_title", "text_snippet",
    "source_url".  None of them is an array index or a member of a built-in
    prototype, so the read is the own data property of an object, [length]
    of an array or string, and [undefined] otherwise; a read of [null] or
    [undefined] throws a TypeError.  [call_map] is [v.map(f)] (line 59). *)

From Stdlib Require Import ZArith NArith String Ascii.
From stdpp Require Import base list decidable.
From S2P Require Import Prelude JsString.

#[local] Set Warnings "-register-all".
Inductive jval : Type :=
| JUndefined
| JNull
| JBool (b : bool)
| JNum (z : Z)
| JDec (neg : bool) (m : positive) (e : Z)
| JStr (s : jstr)
| JArr (elems : list jval)
| JObj (props : list (jstr * jval)).

(** Induction over values, through array elements and member values. *)
Section jval_ind_nested.
Variable P : jval -> Prop.
Hypothesis H_undef : P JUndefined.
Hypothesis H_null : P JNull.
Hypothesis H_bool : forall b, P (JBool b).
Hypothesis H_num : forall z, P (JNum z).
Hypothesis H_dec : forall neg m e, P (JDec neg m e).
Hypothesis H_str : forall s, P (JStr s).
Hypothesis H_arr : forall l, Forall P l -> P (JArr l).
Hypothesis H_obj : forall kvs, Forall (fun kv => P kv.2) kvs -> P (JObj kvs).

Fixpoint jval_ind' (v : jval) : P v :=
  match v with
  | JUndefined => H_undef
  | JNull => H_null
  | JBool b => H_bool b
  | JNum z => H_num z
  | JDec neg m e => H_dec neg m e
  | JStr s => H_str s
  | JArr l => H_arr l
      ((fix go (l : list jval) : Forall P l :=
          match l with
          | [] => Forall_nil_2 _
          | x :: l' => Forall_cons_2 _ _ _ (jval_ind' x) (go l')
          end) l)
  | JObj kvs => H_obj kvs
      ((fix go (kvs : list (jstr * jval)) : Forall (fun kv => P kv.2) kvs :=
          match kvs with
          | [] => Forall_nil_2 _
          | kv :: kvs' => Forall_cons_2 _ _ _ (jval_ind' kv.2) (go kvs')
          end) kvs)
  end.
End jval_ind_nested.

(** Structural equality of values, decided. *)
Fixpoint jval_eqb (x y : jval) : bool :=
  match x, y with
  | JUndefined, JUndefined | JNull, JNull => true
  | JBool a, JBool b => Bool.eqb a b
  | JNum a, JNum b => Z.eqb a b
  | JDec n1 m1 e1, JDec n2 m2 e2 => Bool.eqb n1 n2 && Pos.eqb m1 m2 && Z.eqb e1 e2
  | JStr a, JStr b => bool_decide (a = b)
  | JArr l1, JArr l2 =>
      (fix go (l1 l2 : list jval) : bool :=
         match l1, l2 with
         | [], [] => true
         | a :: r1, b :: r2 => jval_eqb a b && go r1 r2
         | _, _ => false
         end) l1 l2
  | JObj k1, JObj k2 =>
      (fix go (k1 k2 : list (jstr * jval)) : bool :=
         match k1, k2 with
         | [], [] => true
         | (ka, a) :: r1, (kb, b) :: r2 => bool_decide (ka = kb) && jval_eqb a b && go r1 r2
         | _, _ => false
         end) k1 k2
  | _, _ => false
  end.

(** The exceptions that can be thrown in the modelled code paths. *)
Inductive exn : Type :=
| TypeErrorRead (key : jstr)
    (** reading [key] of [undefined] or [null] *)
| TypeErrorNotFunction (key : jstr)
    (** calling [x.key(...)] when [x.key] is not a function *)
| TypeErrorToPrimitive
    (** converting an object none of whose [toString]/[valueOf] is callable *)
| AxiosError (code : option jstr) (status : option Z)
    (** a rejected [axios.post]: its [code] (which axios leaves undefined for
        some statuses) and the response status, if there was a response *)
| ReactInvalidChild
    (** React: "Objects are not valid as a React child" *).

Abbreviation js_res A := (outcome exn A).

(** The value of the last member named [k], as [JSON.parse] keeps it. *)
Fixpoint assoc_last (k : jstr) (kvs : list (jstr * jval)) : option jval :=
  match kvs with
  | [] => None
  | (k', v) :: rest =>
      match assoc_last k rest with
      | Some w => Some w
      | None => if decide (k = k') then Some v else None
      end
  end.

(** [v.k] for a key that is neither an array index nor a prototype member. *)
Definition get_prop (v : jval) (k : jstr) : js_res jval :=
  match v with
  | JUndefined | JNull => Throw (TypeErrorRead k)
  | JObj kvs => Ret (default JUndefined (assoc_last k kvs))
  | JArr l => Ret (if decide (k = js "length") then JNum (Z.of_nat (length l)) else JUndefined)
  | JStr s => Ret (if decide (k = js "length") then JNum (Z.of_nat (length s)) else JUndefined)
  | JBool _ | JNum _ | JDec _ _ _ => Ret JUndefined
  end.

(** [v.map(f)]: only arrays have a callable [map]; [f] gets each element
    and its index, left to right. *)
Definition call_map {A} (v : jval) (f : jval -> nat -> js_res A) : js_res (list A) :=
  match v with
  | JArr l => omap_idx f 0 l
  | JUndefined | JNull => Throw (TypeErrorRead (js "map"))
  | _ => Throw (TypeErrorNotFunction (js "map"))
  end.

(** A decimal m * 10^e with [e < 0] does not round to zero: it is above
    half the least subnormal double, 2^-1075 (at 2^-1075 exactly, rounding
    to even gives +0). *)
Definition dec_nonzero (m : positive) (e : Z) : bool :=
  (10 ^ (- e) <? Z.pos m * 2 ^ 1075)%Z.

(** ToBoolean (JSON has no NaN). *)
Definition truthy (v : jval) : bool :=
  match v with
  | JUndefined | JNull => false
  | JBool b => b
  | JNum z => negb (Z.eqb z 0)
  | JDec _ m e => dec_nonzero m e
  | JStr s => JsString.str_truthy s
  | JArr _ | JObj _ => true
  end.

(** An object built from members [kvs], as a JavaScript object literal. *)
Definition obj (kvs : list (string * jval)) : jval :=
  JObj (map (fun kv => (js kv.1, kv.2)) kvs).

(** ** Lemmas *)

Lemma jval_eqb_eq x y : jval_eqb x y = true <-> x = y.
Proof.
  revert y. induction x as [| |b|z|n m e|s|l IH|kvs IH] using jval_ind';
    intros [| |b'|z'|n' m' e'|s'|l'|kvs']; simpl; try (split; congruence).
  - rewrite Bool.eqb_true_iff. split; congruence.
  - rewrite Z.eqb_eq. split; congruence.
  - rewrite !andb_true_iff, Bool.eqb_true_iff, Pos.eqb_eq, Z.eqb_eq. split; [intros [[-> ->] ->] | intros [= -> -> ->]]; auto.
  - rewrite bool_decide_eq_true. split; congruence.
  - revert l'. induction IH as [|a l Ha _ IHl]; intros [|b l']; try (split; congruence).
    rewrite andb_true_iff, Ha, IHl. split; [intros [-> [= ->]] | intros [= -> ->]]; auto.
  - revert kvs'. induction IH as [|[ka a] kvs Ha _ IHk]; intros [|[kb b] kvs'];
      try (split; congruence).
    simpl in Ha. rewrite !andb_true_iff, bool_decide_eq_true, Ha, IHk.
    split; [intros [[-> ->] [= ->]] | intros [= -> -> ->]]; auto.
Qed.

#[export] Instance jval_eq_dec : EqDecision jval.
Proof.
  intros x y. destruct (jval_eqb x y) eqn:E.
  - left. by apply jval_eqb_eq.
  - right. intros Heq%jval_eqb_eq. congruence.
Defined.

Lemma get_prop_nullish v k :
  (v = JUndefined \/ v = JNull) -> get_prop v k = Throw (TypeErrorRead k).
Proof. by intros [-> | ->]. Qed.

Lemma get_prop_ret_not_nullish v k w :
  get_prop v k = Ret w -> v <> JUndefined /\ v <> JNull.
Proof. destruct v; simpl; try discriminate; split; congruence. Qed.

Lemma call_map_array {A} l (f : jval -> nat -> js_res A) :
  call_map (JArr l) f = omap_idx f 0 l.
Proof. reflexivity. Qed.

Lemma call_map_non_array {A} v (f : jval -> nat -> js_res A) :
  (forall l, v <> JArr l) -> is_ret (call_map v f) = false.
Proof. destruct v; simpl; try done. intros H. by destruct (H elems). Qed.

