(* ===== verification/JsNumber.v ===== *)
(** * The comparison [x > 0] of ECMAScript, on the values of the model

    [App.js] line 58 decides between the result cards and the placeholder
    with [results.length > 0].  When [results] is an array or a string,
    [length] is a number; when it is an object (the backend sent an object
    as [contexts]), [length] is whatever member the object has under that
    name, and the comparison goes through ToPrimitive and StringToNumber.
    This file gives that comparison exactly:
    - [to_string] is ToString, with ToPrimitive of arrays (Array.prototype
      .join with ",") and of JSON objects (which have no callable own
      members, so an own [toString] member makes the conversion throw);
    - [string_to_number] parses a StringNumericLiteral into a [strnum]
      (NaN, an infinity, a decimal literal, a hex/octal/binary integer);
    - [strnum_gt0] decides whether the Number that literal denotes, rounded
      to the nearest double, is positive: a nonzero decimal is positive
      unless it is negative or below half the least subnormal, 2^-1075;
    - [gt0 v] is the result of [v > 0], or the TypeError it throws. *)

From Stdlib Require Import ZArith NArith String Ascii DecimalString.
From stdpp Require Import base list decidable.
From S2P Require Import Prelude JsString JsValue.

Module JsNumber.
Local Open Scope Z_scope.

(** ** StringToNumber *)

(** The value of a digit code unit in a radix, if it is one. *)
Definition digit_value (radix : Z) (c : N) : option Z :=
  let v :=
    if (48 <=? c)%N && (c <=? 57)%N then Some (Z.of_N c - 48)
    else if (97 <=? c)%N && (c <=? 102)%N then Some (Z.of_N c - 87)
    else if (65 <=? c)%N && (c <=? 70)%N then Some (Z.of_N c - 55)
    else None in
  match v with
  | Some d => if d <? radix then Some d else None
  | None => None
  end.

(** The value of a nonempty digit sequence. *)
Definition digits_val (radix : Z) (l : jstr) : option Z :=
  match l with
  | [] => None
  | _ :: _ =>
      fold_left (fun acc c => a ← acc; d ← digit_value radix c; Some (a * radix + d))
        l (Some 0)
  end.

(** The longest prefix of decimal digits, and the rest. *)
Fixpoint span_digits (s : jstr) : jstr * jstr :=
  match s with
  | c :: s' =>
      if bool_decide (is_Some (digit_value 10 c)) then let '(d, r) := span_digits s' in (c :: d, r)
      else ([], s)
  | [] => ([], [])
  end.

(** What a StringNumericLiteral denotes. *)
Inductive strnum : Type :=
| SNaN
| SInf (neg : bool)
| SDec (neg : bool) (m e : Z)   (** (-1)^neg * m * 10^e *)
| SInt (m : Z).                 (** a 0x/0o/0b literal *)

(** ExponentPart, optional: [e] or [E], a sign, digits. *)
Definition parse_exp (r : jstr) : option Z :=
  match r with
  | [] => Some 0
  | e :: r' =>
      if (e =? 101)%N || (e =? 69)%N then
        match r' with
        | 43%N :: d => digits_val 10 d
        | 45%N :: d => Z.opp <$> digits_val 10 d
        | d => digits_val 10 d
        end
      else None
  end.

(** StrUnsignedDecimalLiteral: [Infinity], or digits with an optional
    fraction and exponent, at least one digit before or after the point. *)
Definition parse_unsigned (neg : bool) (r : jstr) : option strnum :=
  if decide (r = js "Infinity") then Some (SInf neg) else
  let '(ip, r1) := span_digits r in
  let '(fp, r2) := match r1 with
                   | 46%N :: r1' => span_digits r1'
                   | _ => ([], r1)
                   end in
  if decide (ip ++ fp = []) then None else
  e ← parse_exp r2;
  m ← digits_val 10 (ip ++ fp);
  Some (SDec neg m (e - Z.of_nat (length fp))).

(** StrDecimalLiteral: an optional sign, then the unsigned literal. *)
Definition parse_decimal (t : jstr) : option strnum :=
  match t with
  | 43%N :: r => parse_unsigned false r
  | 45%N :: r => parse_unsigned true r
  | r => parse_unsigned false r
  end.

(** NonDecimalIntegerLiteral: 0x, 0o or 0b (either case) and digits. *)
Definition parse_non_decimal (t : jstr) : option strnum :=
  match t with
  | 48%N :: x :: r =>
      let radix := if (x =? 120)%N || (x =? 88)%N then 16
                   else if (x =? 111)%N || (x =? 79)%N then 8
                   else if (x =? 98)%N || (x =? 66)%N then 2 else 0 in
      if radix =? 0 then None else SInt <$> digits_val radix r
  | _ => None
  end.

(** StringToNumber: trim, then the empty string is 0, and a string that is
    no literal is NaN. *)
Definition string_to_number (s : jstr) : strnum :=
  let t := JsString.trim s in
  match t with
  | [] => SDec false 0 0
  | _ :: _ =>
      match parse_non_decimal t with
      | Some n => n
      | None => default SNaN (parse_decimal t)
      end
  end.

(** The rounded Number is positive: not NaN, not negative, and for a
    decimal m * 10^e, above 2^-1075 (at or below it rounds to +0). *)
Definition strnum_gt0 (n : strnum) : bool :=
  match n with
  | SNaN => false
  | SInf neg => negb neg
  | SDec neg m e =>
      negb neg && (0 <? m) &&
      (if 0 <=? e then true else 10 ^ (- e) <? m * 2 ^ 1075)
  | SInt m => 0 <? m
  end.

(** ** ToString and the comparison *)

(** *** Number::toString

    A Number of the model is a sign and an exact decimal ([JNum], [JDec]).
    Number::toString writes its shortest decimal digits [ds] (no leading
    or trailing zero) and the position [n] of the decimal point, value
    0.ds * 10^n, in one of four forms: an integer padded with zeros, a
    fraction, a fraction after "0.", or scientific notation. *)

(** The code unit of the decimal digit [d < 10]. *)
Definition digit_unit (d : N) : N := 48 + d.

(** The decimal digits of [n], most significant first, with fuel [f];
    [n_digits] gives it [S (N.size_nat n)] steps, more than [n] has
    digits. *)
Fixpoint n_digits_fuel (f : nat) (n : N) : jstr :=
  match f with
  | O => []
  | S f' =>
      if (n <? 10)%N then [digit_unit n]
      else n_digits_fuel f' (n / 10)%N ++ [digit_unit (n mod 10)%N]
  end.

Definition n_digits (n : N) : jstr := n_digits_fuel (S (N.size_nat n)) n.

(** [p] as [s * 10^t] with [s] not a multiple of 10, with fuel [f];
    [strip_zeros] gives it [Pos.size_nat p] steps, more than [p] has
    trailing zeros. *)
Fixpoint strip_zeros_fuel (f : nat) (p : positive) : positive * nat :=
  match f with
  | O => (p, O)
  | S f' =>
      if Z.pos p mod 10 =? 0 then
        match Z.pos p / 10 with
        | Z.pos q => let '(s, t) := strip_zeros_fuel f' q in (s, S t)
        | _ => (p, O)
        end
      else (p, O)
  end.

Definition strip_zeros (p : positive) : positive * nat := strip_zeros_fuel (Pos.size_nat p) p.

(** The exponent of the scientific form: a sign and the digits. *)
Definition exp_text (e : Z) : jstr :=
  (if e <? 0 then js "-" else js "+") ++ n_digits (Z.abs_N e).

(** Number::toString, steps 5-12, on the digits [ds] and the point [n]. *)
Definition format_number (neg : bool) (ds : jstr) (n : Z) : jstr :=
  let k := Z.of_nat (length ds) in
  (if neg then js "-" else []) ++
  (if (k <=? n) && (n <=? 21) then ds ++ replicate (Z.to_nat (n - k)) 48%N
   else if (0 <? n) && (n <=? 21) then
     take (Z.to_nat n) ds ++ [46%N] ++ drop (Z.to_nat n) ds
   else if (-6 <? n) && (n <=? 0) then js "0." ++ replicate (Z.to_nat (- n)) 48%N ++ ds
   else match ds with
        | [d] => [d; 101%N] ++ exp_text (n - 1)
        | d :: rest => [d; 46%N] ++ rest ++ [101%N] ++ exp_text (n - 1)
        | [] => []
        end).

(** Number::toString of (-1)^neg * p * 10^e. *)
Definition decimal_to_jstr (neg : bool) (p : positive) (e : Z) : jstr :=
  let '(s, t) := strip_zeros p in
  let ds := n_digits (N.pos s) in
  format_number neg ds (Z.of_nat (length ds + t) + e).

(** Number::toString of the numbers of the model. *)
Definition number_to_jstr (v : jval) : jstr :=
  match v with
  | JNum (Z.pos p) => decimal_to_jstr false p 0
  | JNum (Z.neg p) => decimal_to_jstr true p 0
  | JDec neg m e => decimal_to_jstr neg m e
  | _ => js "0"
  end.

(** ToString, through ToPrimitive for arrays and objects. *)
Fixpoint to_string (v : jval) : js_res jstr :=
  match v with
  | JUndefined => Ret (js "undefined")
  | JNull => Ret (js "null")
  | JBool b => Ret (js (if b then "true" else "false"))
  | JNum _ | JDec _ _ _ => Ret (number_to_jstr v)
  | JStr s => Ret s
  | JArr l =>
      (fix join (l : list jval) : js_res jstr :=
         match l with
         | [] => Ret []
         | x :: l' =>
             s <- (match x with
                   | JUndefined | JNull => Ret []
                   | _ => to_string x
                   end) ;;
             rest <- join l' ;;
             Ret (match l' with [] => s | _ :: _ => s ++ js "," ++ rest end)
         end) l
  | JObj kvs =>
      if bool_decide (is_Some (assoc_last (js "toString") kvs)) then Throw TypeErrorToPrimitive
      else Ret (js "[object Object]")
  end.

(** [v > 0]: the abstract relational comparison with ToPrimitive (hint
    number) on [v], which for arrays and objects is their ToString. *)
Definition gt0 (v : jval) : js_res bool :=
  match v with
  | JUndefined => Ret false
  | JNull => Ret false
  | JBool b => Ret b
  | JNum z => Ret (0 <? z)
  | JDec neg m e => Ret (negb neg && dec_nonzero m e)
  | JStr s => Ret (strnum_gt0 (string_to_number s))
  | JArr _ | JObj _ => s <- to_string v ;; Ret (strnum_gt0 (string_to_number s))
  end.

(** ** Facts *)

Lemma gt0_num z : gt0 (JNum z) = Ret (0 <? z).
Proof. reflexivity. Qed.

(** A nonempty array or string has a positive length. *)
Lemma gt0_length_pos n : gt0 (JNum (Z.of_nat n)) = Ret (bool_decide (0 < n)%nat).
Proof.
  rewrite gt0_num. f_equal. apply Bool.eq_iff_eq_true.
  rewrite Z.ltb_lt, bool_decide_eq_true. lia.
Qed.

(** ** Decimal digits *)

Lemma size_nat_pos p : (1 <= Pos.size_nat p)%nat.
Proof. destruct p; simpl; lia. Qed.

(** Dividing by 10 shortens the binary size. *)
Lemma size_nat_div10 p q : Z.pos p = 10 * Z.pos q -> (Pos.size_nat q < Pos.size_nat p)%nat.
Proof.
  intros H. assert (p = (q * 5)~0)%positive as -> by lia. simpl.
  pose proof (Pos.size_nat_monotone q (q * 5)). destruct (Pos.eq_dec q (q * 5)%positive) as [E|E].
  - rewrite <- E. lia.
  - assert (q < q * 5)%positive by lia. lia.
Qed.

(** [strip_zeros p] is [(s, t)] with [p = s * 10^t] and [s] not a
    multiple of 10. *)
Lemma strip_zeros_fuel_spec f p :
  (Pos.size_nat p <= f)%nat ->
  Z.pos p = Z.pos (strip_zeros_fuel f p).1 * 10 ^ Z.of_nat (strip_zeros_fuel f p).2 /\
  Z.pos (strip_zeros_fuel f p).1 mod 10 <> 0.
Proof.
  revert p. induction f as [|f IH]; intros p Hf; [pose proof (size_nat_pos p); lia|].
  simpl. destruct (Z.pos p mod 10 =? 0) eqn:E; [apply Z.eqb_eq in E | apply Z.eqb_neq in E; simpl; lia].
  pose proof (Z.div_mod (Z.pos p) 10 ltac:(lia)) as Hdm. rewrite E, Z.add_0_r in Hdm.
  destruct (Z.pos p / 10) as [|q|q] eqn:D; [lia| |lia].
  pose proof (size_nat_div10 p q Hdm). destruct (IH q ltac:(lia)) as [Hq Hs].
  destruct (strip_zeros_fuel f q) as [s' t] eqn:S. simpl in *.
  split; [|done]. rewrite Nat2Z.inj_succ, Z.pow_succ_r by lia. lia.
Qed.

Lemma strip_zeros_spec p :
  Z.pos p = Z.pos (strip_zeros p).1 * 10 ^ Z.of_nat (strip_zeros p).2 /\
  Z.pos (strip_zeros p).1 mod 10 <> 0.
Proof. by apply strip_zeros_fuel_spec. Qed.

Example gt0_examples :
  gt0 (JStr (js " 0x1F ")) = Ret true /\
  gt0 (JStr (js "-3")) = Ret false /\
  gt0 (JStr (js "2.5e-1")) = Ret true /\
  gt0 (JStr (js "1e-400")) = Ret false /\
  gt0 (JStr (js "abc")) = Ret false /\
  gt0 (JArr [JNum 7]) = Ret true /\
  gt0 (JArr [JNum 7; JNum 1]) = Ret false /\
  gt0 (obj [("toString"%string, JNum 1)]) = Throw TypeErrorToPrimitive /\
  gt0 (JStr (js "")) = Ret false /\
  gt0 (JArr [JDec false 15 (-1)]) = Ret true /\
  gt0 (JArr [JDec false 1 (-400)]) = Ret false /\
  to_string (JArr [JNum (10 ^ 21)]) = Ret (js "1e+21") /\
  to_string (JArr [JNum (-1200)]) = Ret (js "-1200") /\
  to_string (JArr [JDec true 15 (-1)]) = Ret (js "-1.5") /\
  to_string (JArr [JDec false 1 (-7)]) = Ret (js "1e-7") /\
  to_string (JArr [JDec false 1 (-6)]) = Ret (js "0.000001") /\
  to_string (JArr [JDec false 123 (-25)]) = Ret (js "1.23e-23").
Proof. vm_compute. repeat split. Qed.

End JsNumber.

#[export] Hint Rewrite JsNumber.gt0_num : rag_simpl.
