(* ===== verification/Json.v ===== *)
(** * JSON text: [JSON.stringify] and [JSON.parse]

    The values of [App.js] cross the network as JSON text.  axios turns the
    request body [{ q: query, k: 5, mode: 'hybrid' }] (lines 23-27) into
    text with [JSON.stringify] (its default [transformRequest] for a plain
    object), and turns the text of the reply into [response.data] with
    [JSON.parse] (its default [transformResponse], which keeps the text
    when it does not parse).  This file gives both functions on the values
    of the model ([jval]) and the text as UTF-16 code units ([jstr]):
    - [stringify] is SerializeJSONProperty without replacer or indentation:
      strings through QuoteJSONString (the short escapes, [\u00XX] below
      0x20, lone surrogates as [\uDXXX]), numbers through Number::toString,
      [undefined] dropped from objects and written [null] in arrays, the
      members of an object in the order of [[OwnPropertyKeys]] (array
      indices ascending, then the other keys in creation order, a repeated
      key at its first position with its last value);
    - the lexical parts of [JSON.parse] per ECMA-404: white space
      ([skip_ws]), string characters and escapes ([parse_chars]), number
      literals and their exact value ([parse_number], [number_value]), the
      literal names ([parse_literal]); the recursive descent over values,
      arrays and objects that uses them is in [JsonParse]. *)

From Stdlib Require Import ZArith NArith String Lia.
From stdpp Require Import base list decidable.
From S2P Require Import Prelude JsString JsValue JsNumber.

Module Json.
Local Open Scope N_scope.

(** ** Printing *)

Definition is_leading (c : N) : bool := (0xD800 <=? c) && (c <=? 0xDBFF).
Definition is_trailing (c : N) : bool := (0xDC00 <=? c) && (c <=? 0xDFFF).

(** A lowercase hexadecimal digit. *)
Definition hex_unit (d : N) : N := if d <? 10 then 48 + d else 87 + d.

(** UnicodeEscape(C): [\u] and four lowercase hexadecimal digits. *)
Definition unicode_escape (c : N) : jstr :=
  [92; 117; hex_unit (c / 4096 mod 16); hex_unit (c / 256 mod 16);
   hex_unit (c / 16 mod 16); hex_unit (c mod 16)].

(** QuoteJSONString, step 2, for a code point that is not a surrogate. *)
Definition escape_unit (c : N) : jstr :=
  if c =? 0x08 then [92; 98]
  else if c =? 0x09 then [92; 116]
  else if c =? 0x0A then [92; 110]
  else if c =? 0x0C then [92; 102]
  else if c =? 0x0D then [92; 114]
  else if c =? 0x22 then [92; 34]
  else if c =? 0x5C then [92; 92]
  else if c <? 0x20 then unicode_escape c
  else [c].

(** QuoteJSONString, step 2, over the code points of a string: a
    surrogate pair is kept, a lone surrogate is escaped. *)
Fixpoint quote_units (s : jstr) : jstr :=
  match s with
  | [] => []
  | c :: s' =>
      if is_leading c then
        match s' with
        | d :: s'' =>
            if is_trailing d then c :: d :: quote_units s''
            else unicode_escape c ++ quote_units s'
        | [] => unicode_escape c
        end
      else if is_trailing c then unicode_escape c ++ quote_units s'
      else escape_unit c ++ quote_units s'
  end.

(** QuoteJSONString. *)
Definition quote (s : jstr) : jstr := [34] ++ quote_units s ++ [34].

(** The texts joined with commas. *)
Fixpoint join_commas (l : list jstr) : jstr :=
  match l with
  | [] => []
  | [x] => x
  | x :: l' => x ++ [44] ++ join_commas l'
  end.

(** An array index: the canonical decimal form of an integer below
    2^32 - 1, and its value. *)
Definition array_index (k : jstr) : option Z :=
  match k with
  | [] => None
  | c :: rest =>
      if (c =? 48) && negb (bool_decide (rest = [])) then None
      else v ← JsNumber.digits_val 10 k; if (v <? 2 ^ 32 - 1)%Z then Some v else None
  end.

(** Defining the property [k] on an object: a new key is added last, an
    existing one keeps its place and takes the new value. *)
Fixpoint set_member {A} (k : jstr) (v : A) (kvs : list (jstr * A)) : list (jstr * A) :=
  match kvs with
  | [] => [(k, v)]
  | (k', v') :: rest =>
      if decide (k = k') then (k', v) :: rest else (k', v') :: set_member k v rest
  end.

(** The properties of the object a member list denotes. *)
Definition dedup_members {A} (kvs : list (jstr * A)) : list (jstr * A) :=
  fold_left (fun acc kv => set_member kv.1 kv.2 acc) kvs [].

(** Insertion by array index, ascending. *)
Fixpoint insert_index {A} (i : Z) (kv : jstr * A) (l : list (Z * (jstr * A)))
    : list (Z * (jstr * A)) :=
  match l with
  | [] => [(i, kv)]
  | (j, kv') :: rest =>
      if (i <? j)%Z then (i, kv) :: l else (j, kv') :: insert_index i kv rest
  end.

(** OrdinaryOwnPropertyKeys: the array indices ascending, then the other
    keys in creation order. *)
Definition own_members {A} (kvs : list (jstr * A)) : list (jstr * A) :=
  let d := dedup_members kvs in
  map snd (foldr (fun kv acc => match array_index kv.1 with
                                | Some i => insert_index i kv acc
                                | None => acc
                                end) [] d) ++
  filter (fun kv => array_index kv.1 = None) d.

(** SerializeJSONProperty; [None] is [undefined]. *)
Fixpoint serialize (v : jval) : option jstr :=
  match v with
  | JUndefined => None
  | JNull => Some (js "null")
  | JBool b => Some (js (if b then "true" else "false"))
  | JNum _ | JDec _ _ _ => Some (JsNumber.number_to_jstr v)
  | JStr s => Some (quote s)
  | JArr l =>
      Some ([91] ++ join_commas
              ((fix elems (l : list jval) : list jstr :=
                  match l with
                  | [] => []
                  | x :: l' => default (js "null") (serialize x) :: elems l'
                  end) l) ++ [93])
  | JObj kvs =>
      let members :=
        (fix mems (kvs : list (jstr * jval)) : list (jstr * option jstr) :=
           match kvs with
           | [] => []
           | (k, x) :: kvs' => (k, serialize x) :: mems kvs'
           end) kvs in
      Some ([123] ++ join_commas
              (omap (fun kv => str ← kv.2; Some (quote kv.1 ++ [58] ++ str))
                    (own_members members)) ++ [125])
  end.

(** [JSON.stringify(v)]. *)
Definition stringify (v : jval) : option jstr := serialize v.

(** ** Parsing *)

(** JSON white space: tab, line feed, carriage return, space. *)
Definition is_json_ws (c : N) : bool := (c =? 9) || (c =? 10) || (c =? 13) || (c =? 32).

Fixpoint skip_ws (s : jstr) : jstr :=
  match s with
  | c :: s' => if is_json_ws c then skip_ws s' else s
  | [] => []
  end.

(** The text after [c], when the text starts with [c]. *)
Definition peek (s : jstr) (c : N) : option jstr :=
  match s with
  | d :: r => if d =? c then Some r else None
  | [] => None
  end.

(** The text after the prefix [p], when the text starts with it. *)
Fixpoint strip_prefix (p s : jstr) : option jstr :=
  match p with
  | [] => Some s
  | c :: p' => r ← peek s c; strip_prefix p' r
  end.

(** The code unit of a short escape [\e]. *)
Definition short_escape (e : N) : option N :=
  if e =? 34 then Some 34
  else if e =? 92 then Some 92
  else if e =? 47 then Some 47
  else if e =? 98 then Some 8
  else if e =? 102 then Some 12
  else if e =? 110 then Some 10
  else if e =? 114 then Some 13
  else if e =? 116 then Some 9
  else None.

(** The code unit of [\uXXXX]. *)
Definition hex4 (h1 h2 h3 h4 : N) : option N :=
  Z.to_N <$> JsNumber.digits_val 16 [h1; h2; h3; h4].

(** The escape after a backslash: its code unit and the rest. *)
Definition parse_escape (r : jstr) : option (N * jstr) :=
  match r with
  | e :: r' =>
      if e =? 117 then
        match r' with
        | h1 :: h2 :: h3 :: h4 :: r'' => u ← hex4 h1 h2 h3 h4; Some (u, r'')
        | _ => None
        end
      else u ← short_escape e; Some (u, r')
  | [] => None
  end.

(** The characters of a string after its opening quote: the code units
    and the text after the closing quote. *)
Fixpoint parse_chars_fuel (f : nat) (s : jstr) : option (jstr * jstr) :=
  match f with
  | O => None
  | S f' =>
      match s with
      | [] => None
      | c :: r =>
          if c =? 34 then Some ([], r)
          else if c =? 92 then
            '(u, r') ← parse_escape r; '(cs, r'') ← parse_chars_fuel f' r'; Some (u :: cs, r'')
          else if c <? 32 then None
          else '(cs, r') ← parse_chars_fuel f' r; Some (c :: cs, r')
      end
  end.

Definition parse_chars (s : jstr) : option (jstr * jstr) := parse_chars_fuel (length s) s.

(** The Number a literal m * 10^e denotes, as a value of the model. *)
Definition number_value (neg : bool) (m e : Z) : jval :=
  match m with
  | Z.pos p =>
      let '(s, t) := JsNumber.strip_zeros p in
      let e' := (e + Z.of_nat t)%Z in
      if (0 <=? e')%Z then JNum ((if neg then -1 else 1) * Z.pos s * 10 ^ e')%Z
      else JDec neg s e'
  | _ => JNum 0
  end.

(** The integer part of a number: [0], or digits not starting with [0]. *)
Definition parse_int_part (s : jstr) : option (jstr * jstr) :=
  match s with
  | c :: r =>
      if c =? 48 then Some ([48], r)
      else if (49 <=? c) && (c <=? 57) then Some (JsNumber.span_digits s) else None
  | [] => None
  end.

(** The fraction: a point and at least one digit, or nothing. *)
Definition parse_frac (s : jstr) : option (jstr * jstr) :=
  match peek s 46 with
  | Some r => let '(d, r') := JsNumber.span_digits r in
              if bool_decide (d = []) then None else Some (d, r')
  | None => Some ([], s)
  end.

(** The exponent: [e] or [E], a sign, at least one digit; or nothing. *)
Definition parse_exp (s : jstr) : option (Z * jstr) :=
  match s with
  | c :: r =>
      if (c =? 101) || (c =? 69) then
        let '(sg, r1) := match peek r 43, peek r 45 with
                         | Some r1, _ => (1%Z, r1)
                         | None, Some r1 => ((-1)%Z, r1)
                         | None, None => (1%Z, r)
                         end in
        let '(d, r2) := JsNumber.span_digits r1 in
        x ← JsNumber.digits_val 10 d; Some ((sg * x)%Z, r2)
      else Some (0%Z, s)
  | [] => Some (0%Z, s)
  end.

(** The optional minus sign of a number. *)
Definition parse_minus (s : jstr) : bool * jstr :=
  match peek s 45 with Some r => (true, r) | None => (false, s) end.

(** A number literal. *)
Definition parse_number (s : jstr) : option (jval * jstr) :=
  let '(neg, s1) := parse_minus s in
  '(ip, s2) ← parse_int_part s1;
  '(fp, s3) ← parse_frac s2;
  '(ex, s4) ← parse_exp s3;
  m ← JsNumber.digits_val 10 (ip ++ fp);
  Some (number_value neg m (ex - Z.of_nat (length fp))%Z, s4).

(** The literal names [true], [false], [null]. *)
Definition parse_literal (s : jstr) : option (jval * jstr) :=
  match strip_prefix (js "true") s, strip_prefix (js "false") s, strip_prefix (js "null") s with
  | Some r, _, _ => Some (JBool true, r)
  | None, Some r, _ => Some (JBool false, r)
  | None, None, Some r => Some (JNull, r)
  | None, None, None => None
  end.

End Json.
