(* ===== verification/JsonParse.v ===== *)
(** * The JSON parser: termination and the values it produces

    [parse] runs a recursive descent with fuel.  This file proves that
    the fuel it gives, [2 * length + 2], is always enough: the descent never
    stops for lack of fuel, and any more fuel gives the same result, so
    [parse] is the total function [JSON.parse].  The measure is the
    length of the text: every call of the descent consumes at least one
    code unit before it recurses ([parse_rest_shorter]).  The round trip
    of [JsonRoundtrip] runs the descent at these bounds
    ([parse_fuel_enough], [parse_fuel_mono]). *)

From Stdlib Require Import ZArith NArith String Lia.
From stdpp Require Import base list decidable.
From S2P Require Import Prelude JsString JsValue JsNumber Json.

Module JsonParse.
Import Json.

(** ** The descent *)

Section Descent.
Local Open Scope N_scope.

(** The result of a parser with fuel: a value and the rest of the text, a
    syntax error, or fuel exhausted. *)
Inductive presult (A : Type) : Type :=
| POk (a : A) (rest : jstr)
| PErr
| PFuel.
#[global] Arguments POk {A} a rest.
#[global] Arguments PErr {A}.
#[global] Arguments PFuel {A}.

Definition pmap {A B} (f : A -> B) (r : presult A) : presult B :=
  match r with
  | POk a rest => POk (f a) rest
  | PErr => PErr
  | PFuel => PFuel
  end.

Definition of_option {A} (o : option (A * jstr)) : presult A :=
  match o with
  | Some (a, rest) => POk a rest
  | None => PErr
  end.

(** A value, the elements of an array after its [\[], the members of an
    object after its [{]. *)
Fixpoint parse_value (f : nat) (s : jstr) : presult jval :=
  match f with
  | O => PFuel
  | S f' =>
      match skip_ws s with
      | [] => PErr
      | c :: r =>
          if c =? 123 then
            match peek (skip_ws r) 125 with
            | Some r' => POk (JObj []) r'
            | None => pmap JObj (parse_members f' r)
            end
          else if c =? 91 then
            match peek (skip_ws r) 93 with
            | Some r' => POk (JArr []) r'
            | None => pmap JArr (parse_elements f' r)
            end
          else if c =? 34 then
            of_option ('(str, r') ← parse_chars r; Some (JStr str, r'))
          else if (c =? 45) || ((48 <=? c) && (c <=? 57)) then of_option (parse_number (c :: r))
          else of_option (parse_literal (c :: r))
      end
  end
with parse_elements (f : nat) (s : jstr) : presult (list jval) :=
  match f with
  | O => PFuel
  | S f' =>
      match parse_value f' s with
      | POk v r =>
          match peek (skip_ws r) 44, peek (skip_ws r) 93 with
          | Some r', _ => pmap (cons v) (parse_elements f' r')
          | None, Some r' => POk [v] r'
          | None, None => PErr
          end
      | PErr => PErr
      | PFuel => PFuel
      end
  end
with parse_members (f : nat) (s : jstr) : presult (list (jstr * jval)) :=
  match f with
  | O => PFuel
  | S f' =>
      match peek (skip_ws s) 34 with
      | Some r =>
          match parse_chars r with
          | Some (k, r1) =>
              match peek (skip_ws r1) 58 with
              | Some r2 =>
                  match parse_value f' r2 with
                  | POk v r3 =>
                      match peek (skip_ws r3) 44, peek (skip_ws r3) 125 with
                      | Some r4, _ => pmap (cons (k, v)) (parse_members f' r4)
                      | None, Some r4 => POk [(k, v)] r4
                      | None, None => PErr
                      end
                  | PErr => PErr
                  | PFuel => PFuel
                  end
              | None => PErr
              end
          | None => PErr
          end
      | None => PErr
      end
  end.

(** The fuel [parse] gives the descent. *)
Definition parse_fuel (s : jstr) : nat := 2 * length s + 2.

(** [JSON.parse(s)]: one value, with only white space after it; [None] is
    the SyntaxError. *)
Definition parse (s : jstr) : option jval :=
  match parse_value (parse_fuel s) s with
  | POk v r => if bool_decide (skip_ws r = []) then Some v else None
  | _ => None
  end.

End Descent.

(** ** The text left after each piece is a suffix *)

Lemma skip_ws_length s : length (skip_ws s) <= length s.
Proof. induction s as [|c s IH]; simpl; [lia|]. destruct (is_json_ws c); simpl; lia. Qed.

Lemma skip_ws_cons s c r : skip_ws s = c :: r -> length r < length s.
Proof. intros H. pose proof (skip_ws_length s) as L. rewrite H in L. simpl in L. lia. Qed.

Lemma peek_length s c r : peek s c = Some r -> length r < length s.
Proof. destruct s as [|d s]; simpl; [discriminate|]. case_match; intros; simplify_eq/=; lia. Qed.

Lemma strip_prefix_length p s r : strip_prefix p s = Some r -> length r <= length s.
Proof.
  revert s. induction p as [|c p IH]; simpl; intros s; [intros [= ->]; lia|].
  intros (r1 & H1%peek_length & H2%IH)%bind_Some. lia.
Qed.

Lemma parse_escape_length s u r : parse_escape s = Some (u, r) -> length r < length s.
Proof.
  destruct s as [|e s]; simpl; [discriminate|].
  intros; opt_inv; simpl; lia.
Qed.

Lemma parse_chars_fuel_length f s cs r :
  parse_chars_fuel f s = Some (cs, r) -> length r < length s.
Proof.
  revert s cs r. induction f as [|f IH]; intros s cs r; simpl; [discriminate|].
  destruct s as [|c s]; [discriminate|].
  intros; opt_inv; try lia;
    repeat match goal with
    | H : parse_escape _ = Some _ |- _ => apply parse_escape_length in H
    | H : parse_chars_fuel _ _ = Some _ |- _ => apply IH in H
    end; simpl; lia.
Qed.

Lemma parse_chars_length s cs r : parse_chars s = Some (cs, r) -> length r < length s.
Proof. apply parse_chars_fuel_length. Qed.

Lemma span_digits_length s : length (JsNumber.span_digits s).2 <= length s.
Proof. induction s as [|c s IH]; simpl; [lia|]. repeat case_match; simplify_eq/=; lia. Qed.

Lemma digit_value_dec c : (48 <= c <= 57)%N -> JsNumber.digit_value 10 (c)%N = Some (Z.of_N c - 48)%Z.
Proof.
  intros Hc. unfold JsNumber.digit_value.
  replace ((48 <=? c)%N && (c <=? 57)%N) with true by (symmetry; apply andb_true_iff; split; apply N.leb_le; lia).
  replace (Z.of_N c - 48 <? 10)%Z with true by (symmetry; apply Z.ltb_lt; lia). done.
Qed.

Lemma span_digits_digit c r : (48 <= c <= 57)%N ->
  JsNumber.span_digits (c :: r) =
    (c :: (JsNumber.span_digits r).1, (JsNumber.span_digits r).2).
Proof.
  intros Hc. simpl. rewrite digit_value_dec by done. simpl. by destruct (JsNumber.span_digits r).
Qed.

Lemma parse_int_part_length s ip r : parse_int_part s = Some (ip, r) -> length r < length s.
Proof.
  unfold parse_int_part. destruct s as [|c s]; [discriminate|].
  case_match; [intros [= <- <-]; simpl; lia|].
  case_match; [|discriminate]. apply andb_true_iff in H0 as [?%N.leb_le ?%N.leb_le].
  rewrite span_digits_digit by lia. intros [= <- <-].
  pose proof (span_digits_length s). simpl. lia.
Qed.

Lemma parse_frac_length s fp r : parse_frac s = Some (fp, r) -> length r <= length s.
Proof.
  unfold parse_frac. destruct (peek s 46) as [s'|] eqn:E; [|intros [= _ <-]; lia].
  apply peek_length in E. pose proof (span_digits_length s').
  destruct (JsNumber.span_digits s') eqn:Es. case_bool_decide; intros; simplify_eq/=; lia.
Qed.

Lemma parse_exp_length s x r : parse_exp s = Some (x, r) -> length r <= length s.
Proof.
  unfold parse_exp. destruct s as [|c s]; [intros [= _ <-]; simpl; lia|].
  case_match; [|intros [= _ <-]; lia].
  destruct (peek s 43) eqn:E1; [apply peek_length in E1|];
    [|destruct (peek s 45) eqn:E2; [apply peek_length in E2|]];
    match goal with |- context [JsNumber.span_digits ?t] =>
      pose proof (span_digits_length t); destruct (JsNumber.span_digits t) end;
    intros; opt_inv; simpl in *; lia.
Qed.

Lemma parse_number_length s v r : parse_number s = Some (v, r) -> length r < length s.
Proof.
  unfold parse_number. destruct (parse_minus s) as [neg s1] eqn:E.
  assert (length s1 <= length s).
  { revert E. unfold parse_minus. destruct (peek s 45) eqn:E; [apply peek_length in E|];
      intros [= _ <-]; lia. }
  intros; opt_inv;
    repeat match goal with
    | H : parse_int_part _ = Some _ |- _ => apply parse_int_part_length in H
    | H : parse_frac _ = Some _ |- _ => apply parse_frac_length in H
    | H : parse_exp _ = Some _ |- _ => apply parse_exp_length in H
    end; lia.
Qed.

Lemma strip_prefix_lt p s r : p <> [] -> strip_prefix p s = Some r -> length r < length s.
Proof.
  destruct p as [|c p]; [done|]. simpl.
  intros _ (r1 & H1%peek_length & H2%strip_prefix_length)%bind_Some. lia.
Qed.

Lemma parse_literal_length s v r : parse_literal s = Some (v, r) -> length r < length s.
Proof.
  unfold parse_literal.
  destruct (strip_prefix (js "true") s) as [r1|] eqn:E1;
    [intros [= _ <-]; exact (strip_prefix_lt (js "true") s r1 ltac:(intros ?; discriminate) E1)|].
  destruct (strip_prefix (js "false") s) as [r1|] eqn:E2;
    [intros [= _ <-]; exact (strip_prefix_lt (js "false") s r1 ltac:(intros ?; discriminate) E2)|].
  destruct (strip_prefix (js "null") s) as [r1|] eqn:E3;
    [intros [= _ <-]; exact (strip_prefix_lt (js "null") s r1 ltac:(intros ?; discriminate) E3) | discriminate].
Qed.

Lemma peek_skip_length s c r : peek (skip_ws s) c = Some r -> length r < length s.
Proof. intros H%peek_length. pose proof (skip_ws_length s). lia. Qed.

Lemma pmap_ok {A B} (g : A -> B) x b r : pmap g x = POk b r -> exists a, x = POk a r /\ b = g a.
Proof. destruct x; simpl; [intros [= <- <-]; eauto | discriminate..]. Qed.

Lemma pmap_fuel {A B} (g : A -> B) x : pmap g x = PFuel <-> x = PFuel.
Proof. destruct x; simpl; split; congruence. Qed.

Lemma of_option_ok {A} (o : option (A * jstr)) a r : of_option o = POk a r -> o = Some (a, r).
Proof. destruct o as [[]|]; simpl; congruence. Qed.

Lemma of_option_fuel {A} (o : option (A * jstr)) : of_option o <> PFuel.
Proof. destruct o as [[]|]; simpl; congruence. Qed.

(** Split the results of the descent's pieces. *)
Ltac presult_inv :=
  repeat match goal with
  | H : pmap _ _ = POk _ _ |- _ => apply pmap_ok in H as [? [H ->]]
  | H : of_option _ = POk _ _ |- _ => apply of_option_ok in H
  end.

(** Turn what the descent consumed into facts on lengths. *)
Ltac len_facts :=
  presult_inv;
  repeat match goal with
  | H : skip_ws _ = _ :: _ |- _ => apply skip_ws_cons in H
  | H : peek (skip_ws _) _ = Some _ |- _ => apply peek_skip_length in H
  | H : peek _ _ = Some _ |- _ => apply peek_length in H
  | H : parse_chars _ = Some _ |- _ => apply parse_chars_length in H
  | H : parse_number _ = Some _ |- _ => apply parse_number_length in H
  | H : parse_literal _ = Some _ |- _ => apply parse_literal_length in H
  | H : pmap _ _ = POk _ _ |- _ => apply pmap_ok in H as [? [H ->]]
  | H : of_option _ = POk _ _ |- _ => apply of_option_ok in H
  end.

(** Every call of the descent consumes text. *)
Lemma parse_rest_shorter f :
  (forall s v r, parse_value f s = POk v r -> length r < length s) /\
  (forall s vs r, parse_elements f s = POk vs r -> length r < length s) /\
  (forall s kvs r, parse_members f s = POk kvs r -> length r < length s).
Proof.
  induction f as [|f (IHv & IHe & IHm)]; [repeat split; discriminate|].
  repeat split; intros s x r; simpl.
  - destruct (skip_ws s) as [|c t] eqn:Ews; [discriminate|].
    intros; opt_inv; len_facts; opt_inv; len_facts; simpl in *;
      repeat match goal with
      | H : parse_members f _ = POk _ _ |- _ => apply IHm in H
      | H : parse_elements f _ = POk _ _ |- _ => apply IHe in H
      end; lia.
  - destruct (parse_value f s) as [v r1| |] eqn:Ev; [apply IHv in Ev | discriminate..].
    intros; opt_inv; len_facts;
      repeat match goal with
      | H : parse_elements f _ = POk _ _ |- _ => apply IHe in H
      end; lia.
  - intros; opt_inv; len_facts;
      repeat match goal with
      | H : parse_members f _ = POk _ _ |- _ => apply IHm in H
      | H : parse_value f _ = POk _ _ |- _ => apply IHv in H
      end; lia.
Qed.

(** Fuel [2 * length + 1] is enough for a value, [2 * length + 2] for the
    elements of an array or the members of an object. *)
Lemma parse_fuel_enough f :
  (forall s, 2 * length s + 1 <= f -> parse_value f s <> PFuel) /\
  (forall s, 2 * length s + 2 <= f -> parse_elements f s <> PFuel) /\
  (forall s, 2 * length s + 2 <= f -> parse_members f s <> PFuel).
Proof.
  induction f as [|f (IHv & IHe & IHm)]; [repeat split; intros; lia|].
  destruct (parse_rest_shorter f) as (Lv & Le & Lm).
  repeat split; intros s Hf; simpl.
  - destruct (skip_ws s) as [|c t] eqn:Ews; [discriminate|]. apply skip_ws_cons in Ews.
    repeat case_match; try discriminate; try apply of_option_fuel;
      rewrite pmap_fuel; (apply IHm || apply IHe); lia.
  - destruct (parse_value f s) as [v r| |] eqn:Ev; [|discriminate|by apply (IHv s) in Ev; [|lia]].
    apply Lv in Ev. repeat case_match; try discriminate; len_facts.
    rewrite pmap_fuel. apply IHe. lia.
  - repeat case_match; try discriminate; len_facts;
      match goal with
      | H : parse_value f ?t = PFuel |- _ => by apply (IHv t) in H; [|lia]
      | H : parse_value f ?t = POk _ _ |- _ => apply Lv in H
      end.
    rewrite pmap_fuel. apply IHm. lia.
Qed.

(** Once the descent has enough fuel, more fuel changes nothing. *)
Lemma parse_fuel_mono f f' : f <= f' ->
  (forall s, parse_value f s <> PFuel -> parse_value f' s = parse_value f s) /\
  (forall s, parse_elements f s <> PFuel -> parse_elements f' s = parse_elements f s) /\
  (forall s, parse_members f s <> PFuel -> parse_members f' s = parse_members f s).
Proof.
  revert f'. induction f as [|f IH]; intros f' Hle; [repeat split; intros s H; by destruct H|].
  destruct f' as [|f']; [lia|]. destruct (IH f' ltac:(lia)) as (IHv & IHe & IHm).
  repeat split; intros s; cbn [parse_value parse_elements parse_members];
    repeat (match goal with
            | |- context [parse_members f' ?t] =>
                let E := fresh "E" in destruct (parse_members f t) eqn:E;
                [rewrite (IHm t ltac:(rewrite E; discriminate)), E .. | simpl; intros HF; by destruct HF]
            | |- context [parse_elements f' ?t] =>
                let E := fresh "E" in destruct (parse_elements f t) eqn:E;
                [rewrite (IHe t ltac:(rewrite E; discriminate)), E .. | simpl; intros HF; by destruct HF]
            | |- context [parse_value f' ?t] =>
                let E := fresh "E" in destruct (parse_value f t) eqn:E;
                [rewrite (IHv t ltac:(rewrite E; discriminate)), E .. | simpl; intros HF; by destruct HF]
            end || case_match); done.
Qed.

End JsonParse.
