(* ===== verification/JsonNumber.v ===== *)
(** * Printed numbers parse back

    Number::toString ([JsNumber.number_to_jstr]) writes a number in one of
    four forms; this file proves that the JSON number grammar of
    [Json.parse_number] reads each of them back to the same value of the
    model, whatever follows it that is not part of a number.  The lemmas
    are about decimal digit strings: [n_digits] prints the digits of a
    natural number, which [JsNumber.digits_val] reads back, and
    [JsNumber.strip_zeros] finds the unique decomposition [s * 10^t]. *)

From Stdlib Require Import ZArith NArith String Lia.
From stdpp Require Import base list decidable.
From S2P Require Import Prelude JsString JsValue JsNumber Json JsonParse.

Module JsonNumber.
Import Json.
Local Open Scope Z_scope.

(** The value of a sequence of decimal digits. *)
Definition dval (l : jstr) : Z := fold_left (fun a c => a * 10 + (Z.of_N c - 48)) l 0.

Definition is_digit (c : N) : Prop := (48 <= c <= 57)%N.

(** What may follow a number in JSON text: nothing that continues it. *)
Definition ends_number (r : jstr) : Prop :=
  forall c r', r = c :: r' -> ~ is_digit c /\ c <> 46%N /\ c <> 101%N /\ c <> 69%N.

(** ** Digit sequences *)

Lemma dval_acc l a :
  fold_left (fun a c => a * 10 + (Z.of_N c - 48)) l a = a * 10 ^ Z.of_nat (length l) + dval l.
Proof.
  unfold dval. revert a. induction l as [|c l IH]; intros a; simpl; [lia|].
  rewrite (IH (a * 10 + _)), (IH (0 * 10 + _)), Nat2Z.inj_succ, Z.pow_succ_r by lia. lia.
Qed.

Lemma dval_app l1 l2 : dval (l1 ++ l2) = dval l1 * 10 ^ Z.of_nat (length l2) + dval l2.
Proof. unfold dval at 1. by rewrite fold_left_app, dval_acc. Qed.

Lemma dval_cons c l : dval (c :: l) = (Z.of_N c - 48) * 10 ^ Z.of_nat (length l) + dval l.
Proof. change (c :: l) with ([c] ++ l). rewrite dval_app. f_equal. Qed.

Lemma dval_zeros z : dval (replicate z 48%N) = 0.
Proof. induction z as [|z IH]; [done|]. cbn [replicate]. rewrite dval_cons, IH. lia. Qed.

Lemma dval_nonneg l : Forall is_digit l -> 0 <= dval l.
Proof.
  induction l as [|c l IH]; [done|]. intros [Hc Hl]%Forall_cons_1. rewrite dval_cons.
  unfold is_digit in Hc. specialize (IH Hl). nia.
Qed.

Lemma digits_fold l a :
  Forall is_digit l ->
  fold_left (fun acc c => a ← acc; d ← JsNumber.digit_value 10 c; Some (a * 10 + d)) l (Some a) =
  Some (fold_left (fun a c => a * 10 + (Z.of_N c - 48)) l a).
Proof.
  revert a. induction l as [|c l IH]; intros a; [done|]. intros [Hc Hl]%Forall_cons_1.
  simpl. rewrite JsonParse.digit_value_dec by done. simpl. by apply IH.
Qed.

Lemma digits_val_dval l : l <> [] -> Forall is_digit l -> JsNumber.digits_val 10 l = Some (dval l).
Proof. destruct l as [|c l]; [done|]. intros _ H. by apply digits_fold. Qed.

Lemma span_digits_app l r :
  Forall is_digit l -> (forall c r', r = c :: r' -> ~ is_digit c) ->
  JsNumber.span_digits (l ++ r) = (l, r).
Proof.
  intros Hl Hr. induction Hl as [|c l Hc _ IH]; simpl.
  - destruct r as [|c r']; [done|]. simpl. case_bool_decide as Hd; [|done].
    exfalso. apply (Hr c r' eq_refl). unfold is_digit, JsNumber.digit_value in *.
    destruct Hd as [d Hd]. repeat case_match; simplify_eq/=; bool_facts; lia.
  - rewrite JsonParse.digit_value_dec by done. simpl. by rewrite IH.
Qed.

(** ** The digits [n_digits] prints *)

Lemma size_nat_bound p : Z.pos p < 2 ^ Z.of_nat (Pos.size_nat p).
Proof.
  induction p as [p IH|p IH|]; simpl; rewrite ?Nat2Z.inj_succ, ?Z.pow_succ_r by lia; lia.
Qed.

Lemma n_digits_fuel_spec f x : Z.of_N x < 10 ^ Z.of_nat (S f) ->
  let ds := JsNumber.n_digits_fuel (S f) x in
  ds <> [] /\ Forall is_digit ds /\ dval ds = Z.of_N x /\ ((0 < x)%N -> hd 0%N ds <> 48%N).
Proof.
  revert x. induction f as [|f IH]; intros x Hx; cbn zeta.
  - rewrite Z.pow_1_r in Hx. simpl. replace (x <? 10)%N with true by (symmetry; apply N.ltb_lt; lia).
    unfold JsNumber.digit_unit, is_digit. repeat split; [done | constructor; [lia | done] | |].
    + unfold dval. simpl. lia.
    + simpl. lia.
  - remember (S f) as f'. simpl. destruct (x <? 10)%N eqn:E; bool_facts.
    + unfold JsNumber.digit_unit, is_digit. repeat split; [done | constructor; [lia | done] | |].
      * unfold dval. simpl. lia.
      * simpl. lia.
    + subst f'. rewrite Nat2Z.inj_succ, Z.pow_succ_r in Hx by lia.
      destruct (IH (x / 10)%N) as (Hne & Hd & Hv & Hh); [rewrite N2Z.inj_div; simpl; apply Z.div_lt_upper_bound; lia|].
      repeat split.
      * by destruct (JsNumber.n_digits_fuel (S f) (x / 10)).
      * apply Forall_app; split; [done|]. constructor; [|done]. unfold is_digit, JsNumber.digit_unit.
        pose proof (N.mod_lt x 10 ltac:(lia)). generalize dependent (x mod 10)%N. intros. lia.
      * rewrite dval_app, Hv. unfold dval. simpl. unfold JsNumber.digit_unit.
        rewrite N2Z.inj_add, N2Z.inj_div, N2Z.inj_mod. simpl.
        pose proof (Z.div_mod (Z.of_N x) 10 ltac:(lia)).
        generalize dependent (Z.of_N x / 10). generalize dependent (Z.of_N x mod 10). intros. lia.
      * intros _. destruct (JsNumber.n_digits_fuel (S f) (x / 10)) as [|c ds] eqn:D; [done|].
        simpl. apply Hh. apply N.div_str_pos. lia.
Qed.

Lemma n_digits_spec x :
  let ds := JsNumber.n_digits x in
  ds <> [] /\ Forall is_digit ds /\ dval ds = Z.of_N x /\ ((0 < x)%N -> hd 0%N ds <> 48%N).
Proof.
  apply n_digits_fuel_spec. destruct x as [|p]; simpl; [lia|].
  pose proof (size_nat_bound p). rewrite Nat2Z.inj_succ, Z.pow_succ_r by lia.
  assert (2 ^ Z.of_nat (Pos.size_nat p) <= 10 ^ Z.of_nat (Pos.size_nat p)) by (apply Z.pow_le_mono_l; lia).
  lia.
Qed.

(** ** The decomposition [s * 10^t] *)

Lemma strip_zeros_fuel_unique f p s t :
  Z.pos p = Z.pos s * 10 ^ Z.of_nat t -> Z.pos s mod 10 <> 0 -> (Pos.size_nat p <= f)%nat ->
  JsNumber.strip_zeros_fuel f p = (s, t).
Proof.
  revert p f. induction t as [|t IH]; intros p f Hp Hs Hf;
    (destruct f as [|f]; [pose proof (JsNumber.size_nat_pos p); lia|]); simpl.
  - simpl in Hp. assert (p = s) as -> by lia. by replace (Z.pos s mod 10 =? 0) with false by lia.
  - rewrite Nat2Z.inj_succ, Z.pow_succ_r in Hp by lia.
    assert (10 ^ Z.of_nat t > 0) by (apply Z.lt_gt, Z.pow_pos_nonneg; lia).
    assert (Hq : Z.pos p = (Z.pos s * 10 ^ Z.of_nat t) * 10) by lia.
    rewrite Hq, Z.mod_mul, Z.div_mul by lia. simpl.
    destruct (Z.pos s * 10 ^ Z.of_nat t) as [|q|q] eqn:D; [lia| |lia].
    pose proof (JsNumber.size_nat_div10 p q ltac:(lia)).
    rewrite (IH q f) by (lia || done). done.
Qed.

Lemma strip_zeros_unique p s t :
  Z.pos p = Z.pos s * 10 ^ Z.of_nat t -> Z.pos s mod 10 <> 0 -> JsNumber.strip_zeros p = (s, t).
Proof. intros. by apply strip_zeros_fuel_unique. Qed.

(** [number_value] of [s * 10^z], [s] not a multiple of 10. *)
Lemma number_value_shift neg s z e : Z.pos s mod 10 <> 0 ->
  exists p, Z.pos p = Z.pos s * 10 ^ Z.of_nat z /\
  number_value neg (Z.pos p) e =
    if 0 <=? e + Z.of_nat z then JNum ((if neg then -1 else 1) * Z.pos s * 10 ^ (e + Z.of_nat z))
    else JDec neg s (e + Z.of_nat z).
Proof.
  intros Hs. assert (10 ^ Z.of_nat z > 0) by (apply Z.lt_gt, Z.pow_pos_nonneg; lia).
  destruct (Z.pos s * 10 ^ Z.of_nat z) as [|p|p] eqn:D; [lia| |lia].
  exists p. split; [done|]. unfold number_value. by rewrite (strip_zeros_unique p s z) by lia.
Qed.

(** ** The pieces of the number grammar on printed text *)

(** Reduce the binds of [parse_number] without unfolding its pieces. *)
Ltac num_cbn :=
  with_strategy opaque [parse_int_part parse_frac parse_exp JsNumber.digits_val number_value dval]
    cbn -[parse_int_part parse_frac parse_exp JsNumber.digits_val number_value dval].

(** The side conditions on digit strings. *)
Ltac digit_side :=
  repeat first [done | discriminate | apply Forall_app; split | apply Forall_replicate | apply Forall_cons_2
               | apply Forall_take | apply Forall_drop
               | unfold is_digit; lia].

(** What follows a digit sequence is not a digit. *)
Definition no_digit_next (r : jstr) : Prop := forall c r', r = c :: r' -> ~ is_digit c.

Lemma ends_number_no_digit r : ends_number r -> no_digit_next r.
Proof. intros H c r' E. by apply (H c r' E). Qed.

Lemma no_digit_next_cons c r : ~ is_digit c -> no_digit_next (c :: r).
Proof. by intros H c' r' [= <- _]. Qed.

Lemma parse_int_part_digits c l r :
  (49 <= c <= 57)%N -> Forall is_digit l -> no_digit_next r ->
  parse_int_part (c :: l ++ r) = Some (c :: l, r).
Proof.
  intros Hc Hl Hr. unfold parse_int_part.
  replace (c =? 48)%N with false by (symmetry; apply N.eqb_neq; lia).
  replace ((49 <=? c)%N && (c <=? 57)%N) with true by (symmetry; apply andb_true_iff; split; apply N.leb_le; lia).
  rewrite app_comm_cons, span_digits_app; [done | constructor; [unfold is_digit; lia | done] | done].
Qed.

Lemma ends_number_not_point r : ends_number r -> forall r', r <> 46%N :: r'.
Proof. intros H r' E. by destruct (H 46%N r' E) as (_ & ? & _). Qed.

Lemma parse_frac_none r : (forall r', r <> 46%N :: r') -> parse_frac r = Some ([], r).
Proof.
  intros H. unfold parse_frac. destruct r as [|c r]; [done|]. simpl.
  destruct (c =? 46)%N eqn:E; [|done]. apply N.eqb_eq in E as ->. by destruct (H r).
Qed.

Lemma parse_frac_digits l r :
  l <> [] -> Forall is_digit l -> no_digit_next r -> parse_frac (46%N :: l ++ r) = Some (l, r).
Proof.
  intros Hne Hl Hr. unfold parse_frac. simpl. rewrite span_digits_app by done.
  by rewrite bool_decide_false.
Qed.

Lemma parse_exp_none r : ends_number r -> parse_exp r = Some (0, r).
Proof.
  intros H. unfold parse_exp. destruct r as [|c r]; [done|].
  destruct (H c r eq_refl) as (_ & _ & H1 & H2).
  by replace ((c =? 101)%N || (c =? 69)%N) with false by (symmetry; apply orb_false_iff; split; apply N.eqb_neq; done).
Qed.

Lemma parse_exp_text x r : ends_number r -> parse_exp (101%N :: JsNumber.exp_text x ++ r) = Some (x, r).
Proof.
  intros Hr. destruct (n_digits_spec (Z.abs_N x)) as (Hne & Hd & Hv & _).
  unfold parse_exp, JsNumber.exp_text. simpl.
  destruct (x <? 0) eqn:E; simpl;
    rewrite span_digits_app by (done || by apply ends_number_no_digit);
    rewrite digits_val_dval by done; simpl; rewrite Hv, N2Z.inj_abs_N; f_equal; f_equal; lia.
Qed.

Lemma number_value_scale neg s z e : Z.pos s mod 10 <> 0 ->
  number_value neg (Z.pos s * 10 ^ Z.of_nat z) e = number_value neg (Z.pos s) (e + Z.of_nat z).
Proof.
  intros Hs. assert (10 ^ Z.of_nat z > 0) by (apply Z.lt_gt, Z.pow_pos_nonneg; lia).
  destruct (Z.pos s * 10 ^ Z.of_nat z) as [|p|p] eqn:D; [lia| |lia].
  unfold number_value. rewrite (strip_zeros_unique p s z), (strip_zeros_unique s s 0) by (simpl; lia).
  simpl. by rewrite Z.add_0_r.
Qed.

Lemma parse_minus_sign (neg : bool) (X : jstr) : (forall r, X <> 45%N :: r) ->
  parse_minus ((if neg then js "-" else []) ++ X) = (neg, X).
Proof.
  intros H. destruct neg; [done|]. unfold parse_minus. destruct X as [|c X]; [done|]. simpl.
  destruct (c =? 45)%N eqn:E; [apply N.eqb_eq in E as ->; by destruct (H X) | done].
Qed.

(** [parse_number] from its pieces. *)
Lemma parse_number_parts (neg : bool) u ip fp ex r r1 r2 m :
  (forall r', u <> 45%N :: r') ->
  parse_int_part u = Some (ip, r1) -> parse_frac r1 = Some (fp, r2) ->
  parse_exp r2 = Some (ex, r) -> JsNumber.digits_val 10 (ip ++ fp) = Some m ->
  parse_number ((if neg then js "-" else []) ++ u) =
    Some (number_value neg m (ex - Z.of_nat (length fp)), r).
Proof.
  intros Hu H1 H2 H3 H4. unfold parse_number. rewrite parse_minus_sign by done.
  by rewrite H1; cbn; rewrite H2; cbn; rewrite H3; cbn; rewrite H4.
Qed.

Lemma parse_int_part_zero r : parse_int_part (48%N :: r) = Some ([48%N], r).
Proof. reflexivity. Qed.

(** The four formats of Number::toString, each read back by the number
    grammar, for the digits [d :: rest] of [s] with the point at [n]. *)
Section Formats.
Variables (neg : bool) (d : N) (rest : jstr) (s : positive) (n : Z) (r : jstr).
Hypothesis Hd1 : (49 <= d <= 57)%N.
Hypothesis Hdr : Forall is_digit rest.
Hypothesis Hv : dval (d :: rest) = Z.pos s.
Hypothesis Hs : Z.pos s mod 10 <> 0.
Hypothesis Hr : ends_number r.

Lemma no_digit_point_exp c x : (c = 46 \/ c = 101)%N -> no_digit_next (c :: x).
Proof. intros Hc. apply no_digit_next_cons. unfold is_digit. lia. Qed.

Lemma format_int :
  Z.of_nat (S (length rest)) <= n ->
  parse_number ((if neg then js "-" else []) ++
                ((d :: rest) ++ replicate (Z.to_nat (n - Z.of_nat (S (length rest)))) 48%N) ++ r) =
    Some (number_value neg (Z.pos s) (n - Z.of_nat (S (length rest))), r).
Proof.
  intros Hn.
  erewrite (parse_number_parts _ _ (d :: rest ++ _) []);
    [| intros ? [=]; lia | by cbn [app]; rewrite parse_int_part_digits by (digit_side || by apply ends_number_no_digit)
     | by apply parse_frac_none, ends_number_not_point | by apply parse_exp_none
     | rewrite app_nil_r; apply digits_val_dval; digit_side].
  rewrite app_comm_cons, dval_app, dval_zeros, Hv, Z.add_0_r, length_replicate.
  rewrite number_value_scale by done. do 3 f_equal. cbn [length] in *. lia.
Qed.

Lemma format_frac :
  0 < n < Z.of_nat (S (length rest)) ->
  parse_number ((if neg then js "-" else []) ++
                (take (Z.to_nat n) (d :: rest) ++ [46%N] ++ drop (Z.to_nat n) (d :: rest)) ++ r) =
    Some (number_value neg (Z.pos s) (n - Z.of_nat (S (length rest))), r).
Proof.
  intros Hn. destruct (Z.to_nat n) as [|j] eqn:Ej; [lia|].
  assert (Hj : (j < length rest)%nat) by lia.
  erewrite (parse_number_parts _ _ (d :: take j rest) (drop j rest));
    [| intros ? [=]; lia
     | by cbn [take drop app]; rewrite <- app_assoc; cbn [app];
          rewrite parse_int_part_digits by (digit_side || by apply Forall_take || apply no_digit_point_exp; lia)
     | apply parse_frac_digits; [intros E%(f_equal length); rewrite length_drop in E; simpl in E; lia
                                 | by apply Forall_drop | by apply ends_number_no_digit]
     | by apply parse_exp_none
     | rewrite <- app_comm_cons, take_drop; by apply digits_val_dval; digit_side].
  rewrite Hv, length_drop. do 3 f_equal. cbn [length] in *. lia.
Qed.

Lemma format_zero_point :
  -6 < n <= 0 ->
  parse_number ((if neg then js "-" else []) ++
                (js "0." ++ replicate (Z.to_nat (- n)) 48%N ++ d :: rest) ++ r) =
    Some (number_value neg (Z.pos s) (n - Z.of_nat (S (length rest))), r).
Proof.
  intros Hn. change (js "0.") with [48%N; 46%N]. cbn [app].
  erewrite (parse_number_parts _ _ [48%N] (replicate (Z.to_nat (- n)) 48%N ++ d :: rest));
    [| intros ? [=] | by rewrite parse_int_part_zero
     | apply parse_frac_digits; [by destruct (Z.to_nat (- n)) | digit_side | by apply ends_number_no_digit]
     | by apply parse_exp_none | apply digits_val_dval; digit_side].
  rewrite !dval_app, dval_zeros, Hv, length_app, length_replicate. unfold dval at 1. simpl Z.mul.
  simpl length. do 3 f_equal. cbn [length] in *. lia.
Qed.

Lemma format_sci :
  parse_number ((if neg then js "-" else []) ++
                (match d :: rest with
                 | [d] => [d; 101%N] ++ JsNumber.exp_text (n - 1)
                 | d :: rest => [d; 46%N] ++ rest ++ [101%N] ++ JsNumber.exp_text (n - 1)
                 | [] => []
                 end) ++ r) =
    Some (number_value neg (Z.pos s) (n - Z.of_nat (S (length rest))), r).
Proof.
  destruct rest as [|d2 rest2]; rewrite <- ?app_assoc; cbn [app].
  - erewrite (parse_number_parts _ _ [d] []);
      [| intros ? [=]; lia
       | apply (parse_int_part_digits d [] (101%N :: _)); (digit_side || apply no_digit_point_exp; lia)
       | by apply parse_frac_none | by apply parse_exp_text | apply digits_val_dval; digit_side].
    rewrite app_nil_r, Hv. do 3 f_equal. simpl length. lia.
  - erewrite (parse_number_parts _ _ [d] (d2 :: rest2));
      [| intros ? [=]; lia
       | apply (parse_int_part_digits d [] (46%N :: _)); (digit_side || apply no_digit_point_exp; lia)
       | apply (parse_frac_digits (d2 :: rest2) (101%N :: _)); (done || apply no_digit_point_exp; lia)
       | by apply parse_exp_text | apply digits_val_dval; digit_side].
    change ([d] ++ d2 :: rest2) with (d :: d2 :: rest2). rewrite Hv. simpl length. do 3 f_equal. cbn [length] in *. lia.
Qed.

End Formats.

Lemma parse_format neg s n r :
  Z.pos s mod 10 <> 0 -> ends_number r ->
  parse_number (JsNumber.format_number neg (JsNumber.n_digits (N.pos s)) n ++ r) =
    Some (number_value neg (Z.pos s) (n - Z.of_nat (length (JsNumber.n_digits (N.pos s)))), r).
Proof.
  intros Hs Hr. destruct (n_digits_spec (N.pos s)) as (Hne & Hd & Hv & Hh).
  revert Hne Hd Hv Hh. generalize (JsNumber.n_digits (N.pos s)) as ds. intros ds Hne Hd Hv Hh.
  destruct ds as [|d rest]; [done|]. apply Forall_cons_1 in Hd as [Hd0 Hdr]. simpl in Hh.
  specialize (Hh ltac:(simpl in Hv; lia)). assert (Hd1 : (49 <= d <= 57)%N) by (unfold is_digit in Hd0; lia).
  unfold JsNumber.format_number. rewrite <- app_assoc. simpl length in *.
  destruct ((Z.of_nat (S (length rest)) <=? n) && (n <=? 21)) eqn:CA;
    [|destruct ((0 <? n) && (n <=? 21)) eqn:CB; [|destruct ((-6 <? n) && (n <=? 0)) eqn:CC]];
    bool_facts.
  - apply format_int; (done || lia).
  - apply andb_false_iff in CA as [CA|CA]; bool_facts; [|lia]. apply format_frac; (done || lia).
  - apply format_zero_point; (done || lia).
  - by apply format_sci.
Qed.

Lemma number_value_normal neg s e : Z.pos s mod 10 <> 0 ->
  number_value neg (Z.pos s) e =
    if 0 <=? e then JNum ((if neg then -1 else 1) * Z.pos s * 10 ^ e) else JDec neg s e.
Proof. intros Hs. unfold number_value. rewrite (strip_zeros_unique s s 0) by (simpl; lia). by rewrite Z.add_0_r. Qed.

(** A number that can be a value of the model: an integer, or a
    non-integer in normal form. *)
Definition number_wf (v : jval) : Prop :=
  match v with
  | JNum _ => True
  | JDec _ m e => e < 0 /\ Z.pos m mod 10 <> 0
  | _ => False
  end.

(** ** Number::toString, read back *)

Lemma parse_decimal_text neg p e r : ends_number r ->
  parse_number (JsNumber.decimal_to_jstr neg p e ++ r) =
    Some (let '(s, t) := JsNumber.strip_zeros p in number_value neg (Z.pos s) (Z.of_nat t + e), r).
Proof.
  intros Hr. unfold JsNumber.decimal_to_jstr.
  pose proof (JsNumber.strip_zeros_spec p) as [_ Hs].
  destruct (JsNumber.strip_zeros p) as [s t]. simpl in Hs.
  rewrite parse_format by done. do 3 f_equal. cbn [length] in *. lia.
Qed.

Theorem parse_number_text v r : number_wf v -> ends_number r ->
  parse_number (JsNumber.number_to_jstr v ++ r) = Some (v, r).
Proof.
  intros Hv Hr. destruct v as [| | |z|neg m e| | |]; try done.
  - destruct z as [|p|p]; simpl JsNumber.number_to_jstr.
    + change (js "0") with [48%N]. unfold parse_number. simpl.
      rewrite parse_frac_none by (by apply ends_number_not_point). simpl.
      by rewrite parse_exp_none.
    + rewrite parse_decimal_text by done.
      pose proof (JsNumber.strip_zeros_spec p) as [Hp Hs].
      destruct (JsNumber.strip_zeros p) as [s t]. simpl in Hp, Hs. cbv beta iota.
      rewrite number_value_normal, Z.add_0_r by done.
      replace (0 <=? Z.of_nat t) with true by lia. do 3 f_equal. cbn [length] in *. lia.
    + rewrite parse_decimal_text by done.
      pose proof (JsNumber.strip_zeros_spec p) as [Hp Hs].
      destruct (JsNumber.strip_zeros p) as [s t]. simpl in Hp, Hs. cbv beta iota.
      rewrite number_value_normal, Z.add_0_r by done.
      replace (0 <=? Z.of_nat t) with true by lia. do 3 f_equal.
      rewrite <- Pos2Z.opp_pos. lia.
  - destruct Hv as [He Hm]. simpl JsNumber.number_to_jstr. rewrite parse_decimal_text by done.
    rewrite (strip_zeros_unique m m 0) by (simpl; lia). cbv beta iota.
    rewrite number_value_normal by done. replace (0 <=? Z.of_nat 0 + e) with false by (symmetry; apply Z.leb_gt; lia). by rewrite Z.add_0_l.
Qed.

End JsonNumber.
