(* ===== verification/JsonRoundtrip.v ===== *)
(** * [JSON.parse] inverts [JSON.stringify]

    The round trip of the JSON layer: for every value that [JSON.stringify]
    can write without loss ([plain]: no [undefined], numbers in normal
    form, objects with distinct keys none of which is an array index, the
    keys [JSON.stringify] would reorder), [JsonParse.parse] reads the text back
    to the same value.  The proof goes piece by piece: a string's escapes
    ([quote_units]) are read back by [parse_chars] one code unit at a time,
    numbers by [JsonNumber.parse_number_text], and arrays and objects by
    induction on the value with [jval_ind'], the descent's fuel being found
    for each piece and raised to a common bound by
    [JsonParse.parse_fuel_mono]. *)

From Stdlib Require Import ZArith NArith String Lia.
From stdpp Require Import base list decidable.
From S2P Require Import Prelude JsString JsValue JsNumber Json JsonParse JsonNumber.

Module JsonRoundtrip.
Import Json JsonParse.

(** The values [JSON.stringify] writes without loss. *)
Fixpoint plain (v : jval) : bool :=
  match v with
  | JUndefined => false
  | JNull | JBool _ | JNum _ | JStr _ => true
  | JDec _ m e => (e <? 0)%Z && negb (Z.pos m mod 10 =? 0)%Z
  | JArr l => forallb plain l
  | JObj kvs =>
      bool_decide (NoDup kvs.*1) &&
      forallb (fun kv => bool_decide (array_index kv.1 = None) && plain kv.2) kvs
  end.

(** ** Strings *)

Lemma digit_value_hex d : (d < 16)%N -> JsNumber.digit_value 16 (hex_unit d) = Some (Z.of_N d).
Proof.
  intros Hd. replace d with (N.of_nat (N.to_nat d)) by lia.
  assert (Hk : (N.to_nat d < 16)%nat) by lia. revert Hk. generalize (N.to_nat d) as k. intros k Hk.
  do 16 (destruct k as [|k]; [reflexivity|]). lia.
Qed.

Lemma hex4_escape c : (c < 65536)%N ->
  hex4 (hex_unit (c / 4096 mod 16)) (hex_unit (c / 256 mod 16))
       (hex_unit (c / 16 mod 16)) (hex_unit (c mod 16)) = Some c.
Proof.
  intros Hc. unfold hex4, JsNumber.digits_val. simpl.
  rewrite !digit_value_hex by (apply N.mod_lt; lia). simpl. f_equal.
  rewrite !N2Z.inj_mod, !N2Z.inj_div. simpl. set (x := Z.of_N c).
  assert (Hx : (0 <= x < 65536)%Z) by lia.
  rewrite (Z.mod_small (x / 4096) 16) by (split; [apply Z.div_pos | apply Z.div_lt_upper_bound]; lia).
  pose proof (Z.div_mod x 16 ltac:(lia)). pose proof (Z.div_mod (x / 16) 16 ltac:(lia)).
  pose proof (Z.div_mod (x / 256) 16 ltac:(lia)).
  assert (E1 : (x / 16 / 16 = x / 256)%Z) by (rewrite Z.div_div; [reflexivity | lia | lia]).
  assert (E2 : (x / 256 / 16 = x / 4096)%Z) by (rewrite Z.div_div; [reflexivity | lia | lia]).
  rewrite E1 in *. rewrite E2 in *.
  apply N2Z.inj. rewrite Z2N.id; [fold x; lia|].
  pose proof (Z.mod_pos_bound x 16). pose proof (Z.mod_pos_bound (x / 16) 16).
  pose proof (Z.mod_pos_bound (x / 256) 16). assert (0 <= x / 4096)%Z by (apply Z.div_pos; lia). lia.
Qed.

(** The text [u] is read as the one code unit [c]. *)
Definition encodes (u : jstr) (c : N) : Prop :=
  forall f x, parse_chars_fuel (S f) (u ++ x) =
              '(cs, r) ← parse_chars_fuel f x; Some (c :: cs, r).

Lemma encodes_literal c : (32 <= c)%N -> c <> 34%N -> c <> 92%N -> encodes [c] c.
Proof.
  intros H1 H2 H3 f x. simpl.
  replace (c =? 34)%N with false by (symmetry; apply N.eqb_neq; done).
  replace (c =? 92)%N with false by (symmetry; apply N.eqb_neq; done).
  by replace (c <? 32)%N with false by (symmetry; apply N.ltb_ge; lia).
Qed.

Lemma encodes_unicode c : (c < 65536)%N -> encodes (unicode_escape c) c.
Proof. intros Hc f x. simpl. by rewrite hex4_escape. Qed.

Lemma encodes_escape_unit c : encodes (escape_unit c) c.
Proof.
  unfold escape_unit.
  repeat match goal with
  | |- encodes (if (c =? ?k)%N then _ else _) c =>
      let E := fresh "E" in
      destruct (c =? k)%N eqn:E; [apply N.eqb_eq in E as ->; intros f x; reflexivity | apply N.eqb_neq in E]
  end.
  destruct (c <? 32)%N eqn:Elt; bool_facts; [apply encodes_unicode; lia | apply encodes_literal; done].
Qed.

Lemma length_escape_unit c : (1 <= length (escape_unit c))%nat.
Proof. unfold escape_unit. repeat case_match; simpl; lia. Qed.

Lemma surrogate_literal c : (is_leading c || is_trailing c) = true -> encodes [c] c.
Proof.
  unfold is_leading, is_trailing. intros H. apply orb_true_iff in H as [H|H]; bool_facts;
    apply encodes_literal; lia.
Qed.

(** The escaped characters of a string, then the closing quote, are read
    back to the string. *)
Lemma parse_quote_units s f r :
  (length (quote_units s) < f)%nat -> parse_chars_fuel f (quote_units s ++ 34%N :: r) = Some (s, r).
Proof.
  remember (length s) as n eqn:Hn. revert s f Hn. induction n as [n IH] using lt_wf_ind.
  intros s f -> Hf. destruct s as [|c s]; simpl in Hf.
  - destruct f as [|f]; [lia|]. reflexivity.
  - assert (Hstep : forall u, encodes u c -> (1 <= length u)%nat ->
                      (length (u ++ quote_units s) < f)%nat ->
                      parse_chars_fuel f ((u ++ quote_units s) ++ 34%N :: r) = Some (c :: s, r)).
    { intros u Hu Hlu Hl. destruct f as [|f]; [lia|]. rewrite <- app_assoc, Hu.
      rewrite (IH (length s)) by (simpl; lia || rewrite length_app in Hl; lia). done. }
    cbn [quote_units] in *. destruct (is_leading c) eqn:L.
    + destruct s as [|d s'].
      * rewrite <- (app_nil_r (unicode_escape c)). change [] with (quote_units []).
        apply Hstep; [apply encodes_unicode; unfold is_leading in L; bool_facts; lia | simpl; lia |].
        by rewrite app_nil_r.
      * destruct (is_trailing d) eqn:T.
        -- destruct f as [|[|f]]; simpl in Hf; [lia|lia|].
           replace ((c :: d :: quote_units s') ++ 34%N :: r)
             with ([c] ++ [d] ++ quote_units s' ++ 34%N :: r) by reflexivity.
           rewrite (surrogate_literal c) by (rewrite L; done).
           rewrite (surrogate_literal d) by (rewrite T, orb_true_r; done).
           rewrite (IH (length s')) by (simpl; lia). done.
        -- apply Hstep; [apply encodes_unicode; unfold is_leading in L; bool_facts; lia | simpl; lia | done].
    + destruct (is_trailing c) eqn:T.
      * apply Hstep; [apply encodes_unicode; unfold is_trailing in T; bool_facts; lia | simpl; lia | done].
      * apply Hstep; [apply encodes_escape_unit | apply length_escape_unit | done].
Qed.

Lemma parse_chars_quote s r : parse_chars (quote_units s ++ 34%N :: r) = Some (s, r).
Proof. apply parse_quote_units. rewrite length_app. simpl. lia. Qed.

(** ** Values *)

(** A text that starts a value: not white space, not a closing bracket. *)
Definition text_ok (t : jstr) : Prop :=
  exists c t', t = c :: t' /\ is_json_ws c = false /\ c <> 93%N /\ c <> 125%N.

(** [t] is read back as [v], whatever may follow a value. *)
Definition reads_as (t : jstr) (v : jval) : Prop :=
  text_ok t /\ forall r, JsonNumber.ends_number r -> exists f, parse_value f (t ++ r) = POk v r.

Lemma skip_ws_text t x : text_ok t -> skip_ws (t ++ x) = t ++ x.
Proof. intros (c & t' & -> & Hc & _). simpl. by rewrite Hc. Qed.

Lemma peek_text t x c : text_ok t -> (c = 93 \/ c = 125)%N -> peek (skip_ws (t ++ x)) c = None.
Proof.
  intros Ht Hc. rewrite skip_ws_text by done. destruct Ht as (c' & t' & -> & _ & H1 & H2). simpl.
  replace (c' =? c)%N with false; [done|]. symmetry. apply N.eqb_neq. intros ->. destruct Hc; congruence.
Qed.

Lemma value_up f f' s v r : (f <= f')%nat -> parse_value f s = POk v r -> parse_value f' s = POk v r.
Proof. intros Hf H. destruct (JsonParse.parse_fuel_mono f f' Hf) as (Hv & _). rewrite Hv; [done|]. by rewrite H. Qed.

Lemma elements_up f f' s vs r :
  (f <= f')%nat -> parse_elements f s = POk vs r -> parse_elements f' s = POk vs r.
Proof. intros Hf H. destruct (JsonParse.parse_fuel_mono f f' Hf) as (_ & He & _). rewrite He; [done|]. by rewrite H. Qed.

Lemma members_up f f' s kvs r :
  (f <= f')%nat -> parse_members f s = POk kvs r -> parse_members f' s = POk kvs r.
Proof. intros Hf H. destruct (JsonParse.parse_fuel_mono f f' Hf) as (_ & _ & Hm). rewrite Hm; [done|]. by rewrite H. Qed.

(** The elements of an array, then its closing bracket. *)
Lemma parse_elements_text l ts r :
  Forall2 reads_as ts l -> l <> [] -> exists f, parse_elements f (join_commas ts ++ 93%N :: r) = POk l r.
Proof.
  intros H. revert r. induction H as [|t x ts l [Ht Hx] Hts IH]; intros r Hne; [done|].
  destruct Hts as [|t' x' ts' l' Hx' Hts'].
  - destruct (Hx (93%N :: r)) as [f Hf]; [by intros ? ? [= <- _]; unfold JsonNumber.is_digit; lia|].
    exists (S f). simpl. by rewrite Hf.
  - destruct (IH r) as [f1 Hf1]; [done|].
    destruct (Hx (44%N :: join_commas (t' :: ts') ++ 93%N :: r)) as [f2 Hf2];
      [by intros ? ? [= <- _]; unfold JsonNumber.is_digit; lia|].
    exists (S (max f1 f2)).
    replace (join_commas (t :: t' :: ts')) with (t ++ [44%N] ++ join_commas (t' :: ts')) by reflexivity.
    rewrite <- !app_assoc. cbn [app parse_elements].
    rewrite (value_up f2 (max f1 f2) _ _ _ ltac:(lia) Hf2). cbn -[join_commas parse_elements].
    by rewrite (elements_up f1 (max f1 f2) _ _ _ ltac:(lia) Hf1).
Qed.

(** The text of a member, [k] quoted, a colon, and a text read as [x]. *)
Definition member_reads (mt : jstr) (kv : jstr * jval) : Prop :=
  exists t, mt = quote kv.1 ++ [58%N] ++ t /\ reads_as t kv.2.

(** The members of an object, then its closing brace. *)
Lemma parse_members_text kvs mts r :
  Forall2 member_reads mts kvs -> kvs <> [] ->
  exists f, parse_members f (join_commas mts ++ 125%N :: r) = POk kvs r.
Proof.
  intros H. revert r. induction H as [|mt [k x] mts kvs (t & -> & Ht & Hx) Hts IH]; intros r Hne; [done|].
  unfold quote. simpl fst in *. simpl snd in *.
  destruct Hts as [|mt' kv' mts' kvs' Hx' Hts'].
  - destruct (Hx (125%N :: r)) as [f Hf]; [by intros ? ? [= <- _]; unfold JsonNumber.is_digit; lia|].
    exists (S f). cbn [join_commas]. rewrite <- !app_assoc. cbn [app].
    cbn -[parse_chars parse_value]. rewrite parse_chars_quote.
    cbn -[parse_value]. by rewrite Hf.
  - destruct (IH r) as [f1 Hf1]; [done|].
    destruct (Hx (44%N :: join_commas (mt' :: mts') ++ 125%N :: r)) as [f2 Hf2];
      [by intros ? ? [= <- _]; unfold JsonNumber.is_digit; lia|].
    exists (S (max f1 f2)).
    replace (join_commas ((([34%N] ++ quote_units k ++ [34%N]) ++ [58%N] ++ t) :: mt' :: mts'))
      with ((([34%N] ++ quote_units k ++ [34%N]) ++ [58%N] ++ t) ++ [44%N] ++ join_commas (mt' :: mts'))
      by reflexivity.
    rewrite <- !app_assoc. cbn [app].
    cbn [parse_members]. cbn -[parse_chars parse_value parse_members join_commas]. rewrite parse_chars_quote.
    cbn -[parse_value parse_members join_commas].
    rewrite (value_up f2 (max f1 f2) _ _ _ ltac:(lia) Hf2). cbn -[join_commas parse_members].
    by rewrite (members_up f1 (max f1 f2) _ _ _ ltac:(lia) Hf1).
Qed.

(** ** Objects as [JSON.stringify] lists them *)

Lemma set_member_new {A} k (v : A) acc : k ∉ acc.*1 -> set_member k v acc = acc ++ [(k, v)].
Proof.
  induction acc as [|[k' v'] acc IH]; simpl; [done|]. intros [Hk Hacc]%not_elem_of_cons.
  rewrite decide_False by done. by rewrite IH.
Qed.

Lemma dedup_members_fresh {A} (kvs acc : list (jstr * A)) :
  NoDup (acc.*1 ++ kvs.*1) -> fold_left (fun acc kv => set_member kv.1 kv.2 acc) kvs acc = acc ++ kvs.
Proof.
  revert acc. induction kvs as [|[k v] kvs IH]; intros acc Hnd; simpl; [by rewrite app_nil_r|].
  rewrite set_member_new.
  - rewrite IH; [by rewrite <- app_assoc|]. rewrite fmap_app, <- app_assoc. done.
  - intros Hk. apply stdpp.list_relations.list.NoDup_app in Hnd as (_ & Hdis & _). apply (Hdis k); [done | left].
Qed.

(** An object with distinct keys, none an array index, lists its members
    in their order. *)
Lemma own_members_plain {A} (kvs : list (jstr * A)) :
  NoDup kvs.*1 -> Forall (fun kv => array_index kv.1 = None) kvs -> own_members kvs = kvs.
Proof.
  intros Hnd Hidx. unfold own_members, dedup_members.
  rewrite (dedup_members_fresh kvs []) by exact Hnd. simpl.
  assert (E : foldr (fun kv acc => match array_index kv.1 with
                                   | Some i => insert_index i kv acc
                                   | None => acc
                                   end) [] kvs = []).
  { clear Hnd. induction Hidx as [|kv kvs Hkv _ IH]; cbn [foldr]; [done|]. by rewrite Hkv. }
  rewrite E. simpl. clear E Hnd. induction Hidx as [|kv kvs Hkv _ IH]; [done|].
  rewrite filter_cons_True by done. by f_equal.
Qed.

Lemma serialize_arr l :
  serialize (JArr l) = Some ([91%N] ++ join_commas (map (fun x => default (js "null") (serialize x)) l) ++ [93%N]).
Proof. reflexivity. Qed.

Lemma serialize_obj kvs :
  serialize (JObj kvs) =
    Some ([123%N] ++ join_commas (omap (fun kv => str ← kv.2; Some (quote kv.1 ++ [58%N] ++ str))
                                  (own_members (map (fun kv => (kv.1, serialize kv.2)) kvs))) ++ [125%N]).
Proof. simpl. do 5 f_equal. apply (f_equal own_members). induction kvs as [|[k x] kvs IH]; simpl; congruence. Qed.

(** ** The texts of values *)

Lemma text_ok_app t x : text_ok t -> text_ok (t ++ x).
Proof. intros (c & t' & -> & H). by exists c, (t' ++ x). Qed.

Lemma text_ok_char c t : (33 <= c)%N -> c <> 93%N -> c <> 125%N -> text_ok (c :: t).
Proof.
  intros Hc H1 H2. exists c, t. repeat split; try done. unfold is_json_ws.
  repeat rewrite (proj2 (N.eqb_neq c _)) by lia. reflexivity.
Qed.

Lemma join_commas_text t ts : text_ok t -> text_ok (join_commas (t :: ts)).
Proof. intros Ht. destruct ts as [|t' ts]; [done|]. by apply text_ok_app. Qed.

Lemma member_reads_text mt kv : member_reads mt kv -> text_ok mt.
Proof. intros (t & -> & _). apply text_ok_char; lia. Qed.

(** A number literal is dispatched to the number parser. *)
Lemma parse_value_number f s c r : (c = 45%N \/ JsonNumber.is_digit c) -> skip_ws s = c :: r ->
  parse_value (S f) s = of_option (parse_number (c :: r)).
Proof.
  intros Hc Hs. cbn [parse_value]. rewrite Hs. destruct Hc as [->|Hc]; [reflexivity|].
  unfold JsonNumber.is_digit in Hc.
  repeat rewrite (proj2 (N.eqb_neq c _)) by lia.
  rewrite (proj2 (N.leb_le 48 c)), (proj2 (N.leb_le c 57)) by lia. by rewrite orb_true_r.
Qed.

(** Number::toString starts with a minus sign or a digit. *)
Lemma format_number_head neg d ds n : JsonNumber.is_digit d ->
  exists c t, JsNumber.format_number neg (d :: ds) n = c :: t /\ (c = 45%N \/ JsonNumber.is_digit c).
Proof.
  intros Hd. unfold JsNumber.format_number. destruct neg; [by eexists _, _; split; [reflexivity | left]|].
  rewrite app_nil_l.
  repeat match goal with |- context [if ?b then _ else _] => destruct b eqn:? end; bool_facts;
    try (destruct (Z.to_nat n) eqn:?; [lia|]); try destruct ds;
    eexists _, _; (split; [reflexivity | right; try done; unfold JsonNumber.is_digit; lia]).
Qed.

Lemma number_text_head v :
  exists c t, JsNumber.number_to_jstr v = c :: t /\ (c = 45%N \/ JsonNumber.is_digit c).
Proof.
  assert (Hd : forall neg p e, exists c t, JsNumber.decimal_to_jstr neg p e = c :: t /\
                                           (c = 45%N \/ JsonNumber.is_digit c)).
  { intros neg p e. unfold JsNumber.decimal_to_jstr. destruct (JsNumber.strip_zeros p) as [s' t'].
    destruct (JsonNumber.n_digits_spec (N.pos s')) as (Hne & Hdig & _).
    destruct (JsNumber.n_digits (N.pos s')) as [|d ds]; [done|].
    apply format_number_head. exact (Forall_inv Hdig). }
  destruct v as [| | |[|p|p]|neg m e| | |]; simpl JsNumber.number_to_jstr; try apply Hd;
    eexists _, _; (split; [reflexivity | right; unfold JsonNumber.is_digit; split; apply N.leb_le; reflexivity]).
Qed.

Lemma reads_number v : JsonNumber.number_wf v -> reads_as (JsNumber.number_to_jstr v) v.
Proof.
  intros Hv. destruct (number_text_head v) as (c & t & Ht & Hc). rewrite Ht.
  assert (Hok : text_ok (c :: t))
    by (apply text_ok_char; destruct Hc as [->|Hc]; unfold JsonNumber.is_digit in *; lia).
  split; [done|]. intros r Hr. exists 1%nat.
  rewrite (parse_value_number 0 ((c :: t) ++ r) c (t ++ r)) by (done || by rewrite skip_ws_text).
  change (c :: t ++ r) with ((c :: t) ++ r). by rewrite <- Ht, JsonNumber.parse_number_text.
Qed.

(** The literal names, read back. *)
Ltac literal_text :=
  split; [eexists _, _; split; [reflexivity | split; [reflexivity | split; discriminate]]
         | intros r _; exists 1%nat; reflexivity].

Lemma reads_string s : reads_as (quote s) (JStr s).
Proof.
  split; [apply text_ok_char; lia|]. intros r _. exists 1%nat. unfold quote.
  replace (([34%N] ++ quote_units s ++ [34%N]) ++ r) with (34%N :: quote_units s ++ 34%N :: r)
    by (by rewrite <- !app_assoc).
  cbn -[parse_chars]. by rewrite parse_chars_quote.
Qed.

Lemma reads_arr ts l : Forall2 reads_as ts l -> reads_as ([91%N] ++ join_commas ts ++ [93%N]) (JArr l).
Proof.
  intros H. split; [apply text_ok_char; lia|]. intros r _.
  destruct H as [|t x ts' l' Hx Hts]; [by exists 1%nat|].
  destruct (parse_elements_text (x :: l') (t :: ts') r) as [f Hf]; [by constructor | done |].
  exists (S f). rewrite <- !app_assoc. cbn [app].
  remember (join_commas (t :: ts') ++ 93%N :: r) as X eqn:HX. cbn. subst X.
  rewrite peek_text by (apply join_commas_text, Hx || by left). by rewrite Hf.
Qed.

Lemma reads_obj mts kvs : Forall2 member_reads mts kvs ->
  reads_as ([123%N] ++ join_commas mts ++ [125%N]) (JObj kvs).
Proof.
  intros H. split; [apply text_ok_char; lia|]. intros r _.
  destruct H as [|mt kv mts' kvs' Hx Hts]; [by exists 1%nat|].
  destruct (parse_members_text (kv :: kvs') (mt :: mts') r) as [f Hf]; [by constructor | done |].
  exists (S f). rewrite <- !app_assoc. cbn [app].
  remember (join_commas (mt :: mts') ++ 125%N :: r) as X eqn:HX. cbn. subst X.
  rewrite peek_text by (apply join_commas_text, (member_reads_text _ _ Hx) || by right). by rewrite Hf.
Qed.

(** [v] is written by [JSON.stringify] as a text read back as [v]. *)
Definition round_trips (v : jval) : Prop :=
  plain v = true -> exists t, serialize v = Some t /\ reads_as t v.

Lemma elements_reads l : Forall round_trips l -> forallb plain l = true ->
  Forall2 reads_as (map (fun x => default (js "null") (serialize x)) l) l.
Proof.
  induction 1 as [|x l Hx _ IH]; simpl; intros Hp; [constructor|]. bool_facts.
  destruct (Hx ltac:(done)) as (t & -> & Ht). constructor; [done | by apply IH].
Qed.

Lemma members_reads kvs : Forall (fun kv => round_trips kv.2) kvs ->
  forallb (fun kv => bool_decide (array_index kv.1 = None) && plain kv.2) kvs = true ->
  Forall (fun kv => array_index kv.1 = None) (map (fun kv => (kv.1, serialize kv.2)) kvs) /\
  Forall2 member_reads (omap (fun kv => str ← kv.2; Some (quote kv.1 ++ [58%N] ++ str))
                             (map (fun kv => (kv.1, serialize kv.2)) kvs)) kvs.
Proof.
  induction 1 as [|[k x] kvs Hx _ IH]; simpl; intros Hp; [split; constructor|]. bool_facts.
  match goal with H : bool_decide _ = true |- _ => apply bool_decide_eq_true in H end.
  destruct (Hx ltac:(done)) as (t & Ht & Hr). simpl in Ht. rewrite Ht.
  destruct (IH ltac:(done)) as [Hi Hm]. split; constructor; try done. by exists t.
Qed.

Lemma keys_serialize (kvs : list (jstr * jval)) : (map (fun kv => (kv.1, serialize kv.2)) kvs).*1 = kvs.*1.
Proof. induction kvs as [|kv kvs IH]; [done|]. cbn. by f_equal. Qed.

Lemma serialize_reads v : round_trips v.
Proof.
  induction v as [| |b|z|neg m e|s|l IH|kvs IH] using jval_ind'; intros Hp; simpl in Hp.
  - done.
  - exists (js "null"). split; [done | literal_text].
  - destruct b; (eexists; split; [reflexivity | literal_text]).
  - eexists; split; [reflexivity | by apply reads_number].
  - eexists; split; [reflexivity | apply reads_number]. bool_facts. simpl. lia.
  - eexists; split; [reflexivity | apply reads_string].
  - rewrite serialize_arr. eexists; split; [reflexivity|]. by apply reads_arr, elements_reads.
  - rewrite serialize_obj. apply andb_true_iff in Hp as [Hnd Hall]. apply bool_decide_eq_true in Hnd.
    destruct (members_reads kvs IH Hall) as [Hidx Hm].
    rewrite own_members_plain by (by rewrite keys_serialize || done).
    eexists; split; [reflexivity|]. by apply reads_obj.
Qed.

(** A value read at some fuel is what [JSON.parse] returns. *)
Lemma parse_at_fuel t v f : parse_value f t = POk v [] -> parse t = Some v.
Proof.
  intros Hf. unfold parse.
  assert (H : parse_value (parse_fuel t) t = POk v []).
  { destruct (Nat.le_ge_cases f (parse_fuel t)) as [Hle|Hge]; [by apply (value_up f)|].
    destruct (JsonParse.parse_fuel_mono _ _ Hge) as (Hm & _ & _). rewrite <- Hf. symmetry. apply Hm.
    apply (proj1 (JsonParse.parse_fuel_enough _)). unfold parse_fuel. lia. }
  rewrite H. by rewrite bool_decide_eq_true_2.
Qed.

End JsonRoundtrip.
