(* ===== verification/Http.v ===== *)
(** * The interface between the query view and its HTTP client

    [App.js] talks to the outside through one call, [await axios.post(...)]
    (lines 23-27).  What the view relies on is a contract about how the
    awaited promise settles for each reply the network can deliver, which
    [Client] states: a reply with a 2xx status resolves to the response
    carrying the reply's status and body, and a network failure or any
    other status rejects.  [QueryView] and [Runtime] are written and proved
    against this class; [Axios] implements it with axios's own settlement
    and discharges the laws. *)

From Stdlib Require Import ZArith NArith String.
From stdpp Require Import base list decidable.
From S2P Require Import Prelude JsString JsValue.

Module Http.
Local Open Scope Z_scope.

(** An HTTP request as the client issues it. *)
Record request : Type := mkRequest {
  req_method : jstr;
  req_url : jstr;
  req_body : jval
}.

(** What the network delivers for a request: nothing (connection refused,
    DNS failure, CORS), or a response with its status and decoded body. *)
Inductive reply : Type :=
| NetworkError
| HttpResponse (status : Z) (data : jval).

(** The response object a resolved request yields. *)
Record response : Type := mkResponse {
  resp_status : Z;
  resp_data : jval
}.

(** The statuses the contract counts as success. *)
Definition success_status (status : Z) : bool := (200 <=? status) && (status <? 300).

(** The contract of the client: how the awaited promise settles. *)
Class Client : Type := {
  settle : reply -> js_res response;
  settle_success status data :
    success_status status = true ->
    settle (HttpResponse status data) = Ret (mkResponse status data);
  settle_network : is_ret (settle NetworkError) = false;
  settle_bad_status status data :
    success_status status = false -> is_ret (settle (HttpResponse status data)) = false
}.

Section Laws.
Context `{Client}.

(** A reply resolves exactly when it is a response with a 2xx status. *)
Lemma settle_is_ret r :
  is_ret (settle r) = match r with
                      | NetworkError => false
                      | HttpResponse status _ => success_status status
                      end.
Proof.
  destruct r as [|status data]; [apply settle_network|].
  destruct (success_status status) eqn:E.
  - by rewrite settle_success.
  - by apply settle_bad_status.
Qed.

Lemma settle_ret r resp :
  settle r = Ret resp ->
  r = HttpResponse (resp_status resp) (resp_data resp) /\ success_status (resp_status resp) = true.
Proof.
  intros Hr. pose proof (settle_is_ret r) as Hi. rewrite Hr in Hi.
  destruct r as [|status data]; [done|]. symmetry in Hi.
  rewrite settle_success in Hr by done. by injection Hr as <-.
Qed.

End Laws.
End Http.
