(* ===== verification/Axios.v ===== *)
(** * The HTTP call: [axios.post] and the settlement of its promise

    [App.js] lines 23-27 call [axios.post(url, body)] and await the promise.
    axios serialises the plain-object body as JSON, sends one POST, and
    settles the promise from what the network delivers ([reply]): with no
    response (connection refused, DNS, CORS) it rejects with code
    ERR_NETWORK; with a response it applies the default [validateStatus]
    ([status >= 200 && status < 300]) and resolves with the response, or
    rejects with ERR_BAD_REQUEST (4xx), ERR_BAD_RESPONSE (5xx), or no code
    (any other status), as axios's [settle] does.  The request, reply and
    response types are those of the interface [Http]; [client] is the
    instance of [Http.Client] the page runs with.  What travels on the
    wire, the text of the body and of the reply, is in [Wire]. *)

From Stdlib Require Import ZArith NArith String.
From stdpp Require Import base list decidable.
From S2P Require Import Prelude JsString JsValue Http.

Module Axios.
Import Http.
Local Open Scope Z_scope.

(** [axios.post(url, data)]. *)
Definition post (url : jstr) (data : jval) : request :=
  {| req_method := js "POST"; req_url := url; req_body := data |}.

(** axios's default [validateStatus]. *)
Definition validate_status (status : Z) : bool := (200 <=? status) && (status <? 300).

(** The [code] axios's [settle] gives a rejected response:
    [[ERR_BAD_REQUEST, ERR_BAD_RESPONSE][Math.floor(status / 100) - 4]]. *)
Definition bad_status_code (status : Z) : option jstr :=
  match status / 100 - 4 with
  | 0 => Some (js "ERR_BAD_REQUEST")
  | 1 => Some (js "ERR_BAD_RESPONSE")
  | _ => None
  end.

(** How the promise returned by [axios.post] settles; [await] on it returns
    the response or throws the rejection reason. *)
Definition settle (r : reply) : js_res response :=
  match r with
  | NetworkError => Throw (AxiosError (Some (js "ERR_NETWORK")) None)
  | HttpResponse status data =>
      if validate_status status then Ret {| resp_status := status; resp_data := data |}
      else Throw (AxiosError (bad_status_code status) (Some status))
  end.

(** axios meets the contract of [Http.Client]: its default [validateStatus]
    accepts exactly the 2xx statuses. *)
#[global] Instance client : Http.Client.
Proof.
  refine {| Http.settle := settle |}.
  - intros status data Hs. simpl. unfold validate_status. unfold success_status in Hs.
    by rewrite Hs.
  - reflexivity.
  - intros status data Hs. simpl. unfold validate_status. unfold success_status in Hs.
    by rewrite Hs.
Defined.

Lemma settle_throw_axios r e :
  settle r = Throw e -> exists code status, e = AxiosError code status.
Proof.
  destruct r as [|status data]; simpl; [intros [= <-]; eauto|].
  destruct (validate_status status); [discriminate | intros [= <-]; eauto].
Qed.

End Axios.
