(* ===== verification/QueryView.v ===== *)
(** * The query view: the state of [App] and its handlers

    [App] ([src/rag-frontend/src/App.js], lines 6-36) keeps four pieces of
    React state (lines 7-10): [query], [results], [loading], [error].  The
    record [state] holds them; [init] is their [useState] initial values.
    Each setter is a [Definition] of its own, so a handler reads as the
    code: its setter calls composed in the order the code makes them.
    React applies the updates of one event in order, so the state after a
    handler is the composition of its setters (intermediate states of one
    batch are never rendered).

    [handleSubmit] (lines 12-36) is an [async] function with one [await].
    It is modelled as its two halves:
    - [handleSubmit] is the part before the await (lines 13-27): after
      [e.preventDefault()] (which cancels the browser's navigation on form
      submission, and has no counterpart in a model without navigation) it resets
      the flags, returns early on a blank query, and otherwise issues the
      request [ask_request query];
    - [handleSubmit_resume r] is the part after the await (lines 28-35),
      run when the network delivers [r]: the try block stores
      [response.data.contexts], the catch block stores the fixed message and
      logs the exception, and the finally block clears [loading].
    The continuation is written against the client interface
    [Http.Client] (the section [WithClient]), so its theorems hold for any
    client meeting that contract; the witnesses run it with axios.  What
    happens between the halves (other events, other submissions) is the
    business of [Runtime]. *)

From Stdlib Require Import ZArith NArith String.
From stdpp Require Import base list decidable.
From S2P Require Import Prelude JsString JsValue Http Axios.

Module QueryView.

(** The component's state (lines 7-10). *)
Record state : Type := mkState {
  query : jstr;
  results : jval;
  loading : bool;
  error : option jstr
}.

(** [useState('')], [useState([])], [useState(false)], [useState(null)]. *)
Definition init : state := mkState [] (JArr []) false None.

(** The setters [useState] returns. *)
Definition setQuery (v : jstr) (s : state) : state :=
  mkState v (results s) (loading s) (error s).
Definition setResults (v : jval) (s : state) : state :=
  mkState (query s) v (loading s) (error s).
Definition setLoading (v : bool) (s : state) : state :=
  mkState (query s) (results s) v (error s).
Definition setError (v : option jstr) (s : state) : state :=
  mkState (query s) (results s) (loading s) v.

(** The message of the catch block (line 31). *)
Definition error_message : jstr :=
  js "An error occurred while fetching data. Please check if the backend is running.".

(** The endpoint (line 23). *)
Definition ask_url : jstr := js "http://127.0.0.1:8000/ask".

(** The request of lines 23-27: [{ q: query, k: 5, mode: 'hybrid' }]. *)
Definition ask_request (q : jstr) : Http.request :=
  Axios.post ask_url
    (obj [("q"%string, JStr q); ("k"%string, JNum 5); ("mode"%string, JStr (js "hybrid"))]).

(** The input's [onChange] (line 47): [setQuery(e.target.value)]. *)
Definition handleChange (value : jstr) (s : state) : state := setQuery value s.

(** [handleSubmit] up to its await (lines 13-27).  [query] is the value of
    the render the handler closes over, the current state when the event
    fires.  The result is the state and the request sent, if one is. *)
Definition handleSubmit (s : state) : state * option Http.request :=
  let q := query s in
  let s := setLoading true s in
  let s := setError None s in
  let s := setResults (JArr []) s in
  if JsString.blank q then (setLoading false s, None)
  else (s, Some (ask_request q)).

(** The continuation depends on how the awaited promise settles: it is
    written against the contract [Http.Client]. *)
Section WithClient.
Context {HC : Http.Client}.

(** The try block after the await (lines 23-29): the awaited promise
    settles, then [setResults(response.data.contexts)]. *)
Definition try_block (r : Http.reply) (s : state) : js_res state :=
  response <- Http.settle r ;;
  contexts <- get_prop (Http.resp_data response) (js "contexts") ;;
  Ret (setResults contexts s).

(** The catch block (lines 30-32): [setError(...)] and [console.error(err)];
    the second component is what is written to the console. *)
Definition catch_block (err : exn) (s : state) : state * list exn :=
  (setError (Some error_message) s, [err]).

(** The finally block (lines 33-35). *)
Definition finally_block (s : state) : state := setLoading false s.

(** [handleSubmit] after its await, on the state current at that time. *)
Definition handleSubmit_resume (r : Http.reply) (s : state) : state * list exn :=
  let '(s', logged) :=
    match try_block r s with
    | Ret s' => (s', [])
    | Throw err => catch_block err s
    end in
  (finally_block s', logged).

(** What the continuation stores in [results] for a reply, when the try
    block completes: [response.data.contexts]. *)
Definition contexts_of (r : Http.reply) : option jval :=
  match Http.settle r with
  | Ret response =>
      match get_prop (Http.resp_data response) (js "contexts") with
      | Ret c => Some c
      | Throw _ => None
      end
  | Throw _ => None
  end.

(** ** Lemmas about the setters and blocks *)

Lemma try_block_ret_iff r s s' :
  try_block r s = Ret s' <-> exists c, contexts_of r = Some c /\ s' = setResults c s.
Proof.
  unfold try_block, contexts_of. destruct (Http.settle r); simpl; [|split; [discriminate | by intros (? & ? & _)]].
  destruct (get_prop _ _); simpl.
  - split; [intros [= <-]; eauto | by intros (? & [= ->] & ->)].
  - split; [discriminate | by intros (? & ? & _)].
Qed.

Lemma try_block_throw_iff r s :
  is_ret (try_block r s) = false <-> contexts_of r = None.
Proof.
  unfold try_block, contexts_of. destruct (Http.settle r); simpl; [|done].
  by destruct (get_prop _ _).
Qed.

Lemma try_block_ok r s c : contexts_of r = Some c -> try_block r s = Ret (setResults c s).
Proof.
  unfold try_block, contexts_of. destruct (Http.settle r); [simpl|discriminate].
  destruct (get_prop _ _); simpl; congruence.
Qed.

(** The try block completes exactly when the promise resolves and
    [response.data] is neither [null] nor [undefined]. *)
Lemma contexts_of_None_iff r :
  contexts_of r = None <->
  r = Http.NetworkError \/
  (exists st d, r = Http.HttpResponse st d /\ Http.success_status st = false) \/
  (exists st d, r = Http.HttpResponse st d /\ Http.success_status st = true /\
                (d = JNull \/ d = JUndefined)).
Proof.
  unfold contexts_of. pose proof (Http.settle_is_ret r) as Hi.
  destruct r as [|st d].
  - destruct (Http.settle _); [discriminate|]. split; auto.
  - destruct (Http.success_status st) eqn:V.
    + rewrite Http.settle_success by done. simpl.
      destruct d; simpl; split; try done;
        try (intros [?|[(? & ? & [= <- <-] & ?)|(? & ? & [= <- <-] & _ & [?|?])]]; congruence);
        eauto 10.
    + destruct (Http.settle _); [discriminate|]. split; [eauto 10 | done].
Qed.

Lemma contexts_of_resolved status data c :
  Http.success_status status = true -> get_prop data (js "contexts") = Ret c ->
  contexts_of (Http.HttpResponse status data) = Some c.
Proof. intros Hst Hc. unfold contexts_of. rewrite Http.settle_success by done. simpl. by rewrite Hc. Qed.

Lemma handleSubmit_resume_ok r s c :
  contexts_of r = Some c ->
  handleSubmit_resume r s = (setLoading false (setResults c s), []).
Proof. intros Hc. unfold handleSubmit_resume. by rewrite (try_block_ok r s c Hc). Qed.

Lemma handleSubmit_resume_fail r s :
  contexts_of r = None ->
  exists err, handleSubmit_resume r s =
              (setLoading false (setError (Some error_message) s), [err]).
Proof.
  intros Hc. unfold handleSubmit_resume.
  destruct (try_block r s) as [s'|err] eqn:E.
  - apply try_block_ret_iff in E as (c & Hc' & _). congruence.
  - by exists err.
Qed.

(** The two outcomes of the first half of [handleSubmit]. *)
Lemma handleSubmit_sends s s' rq :
  handleSubmit s = (s', Some rq) ->
  rq = ask_request (query s) /\ JsString.blank (query s) = false /\
  s' = mkState (query s) (JArr []) true None.
Proof. unfold handleSubmit. destruct (JsString.blank (query s)) eqn:B; by intros [= <- <-]. Qed.

Lemma handleSubmit_no_request s s' :
  handleSubmit s = (s', None) ->
  JsString.blank (query s) = true /\ s' = mkState (query s) (JArr []) false None.
Proof. unfold handleSubmit. destruct (JsString.blank (query s)) eqn:B; by intros [= <-]. Qed.

(** The second half always clears [loading], keeps the query, and either
    stores the contexts (error untouched) or the fixed message (results
    untouched). *)
Lemma handleSubmit_resume_cases r s :
  let s' := (handleSubmit_resume r s).1 in
  loading s' = false /\ query s' = query s /\
  ((contexts_of r = Some (results s') /\ error s' = error s) \/
   (contexts_of r = None /\ results s' = results s /\ error s' = Some error_message)).
Proof.
  destruct (contexts_of r) as [c|] eqn:Hc.
  - rewrite (handleSubmit_resume_ok r s c Hc). simpl. do 2 (split; [done|]). by left.
  - destruct (handleSubmit_resume_fail r s Hc) as [err ->]. simpl.
    do 2 (split; [done|]). by right.
Qed.

(** The continuation logs one exception when the try block throws and
    none when it completes. *)
Lemma handleSubmit_resume_logged r s :
  length (handleSubmit_resume r s).2 = match contexts_of r with Some _ => 0 | None => 1 end.
Proof.
  destruct (contexts_of r) as [c|] eqn:Hc.
  - by rewrite (handleSubmit_resume_ok r s c Hc).
  - by destruct (handleSubmit_resume_fail r s Hc) as [err ->].
Qed.

(** ** Properties of the handlers *)

(** C1: submitting a query made only of white space and line terminators
    (what [String.prototype.trim] removes, so [!query.trim()] holds) sends
    no request and leaves the state reset: not loading, no error, no
    results, the query kept in the input. *)
Theorem handleSubmit_blank_query (s : state) :
  Forall (fun c => JsString.is_trim_space c = true) (query s) ->
  handleSubmit s = (mkState (query s) (JArr []) false None, None).
Proof.
  intros Hq%JsString.blank_iff. unfold handleSubmit. by rewrite Hq.
Qed.

(** C2: submitting a query with a character that is not white space clears
    the error and the results, sets [loading], and sends exactly one request:
    a POST to http://127.0.0.1:8000/ask whose body is
    [{ q: query, k: 5, mode: 'hybrid' }] with the query as typed (untrimmed). *)
Theorem handleSubmit_query (s : state) :
  Exists (fun c => JsString.is_trim_space c = false) (query s) ->
  handleSubmit s =
    (mkState (query s) (JArr []) true None,
     Some {| Http.req_method := js "POST";
             Http.req_url := js "http://127.0.0.1:8000/ask";
             Http.req_body := obj [("q"%string, JStr (query s)); ("k"%string, JNum 5);
                                    ("mode"%string, JStr (js "hybrid"))] |}).
Proof.
  intros Hq. unfold handleSubmit.
  destruct (JsString.blank (query s)) eqn:B; [|reflexivity].
  apply JsString.blank_iff in B. rewrite Forall_forall in B.
  apply Exists_exists in Hq as (c & Hin & Hc). specialize (B c Hin). congruence.
Qed.

(** C3: when the request resolves (a 2xx status) with a body whose
    [contexts] member is [c], the continuation stores [c] verbatim as the
    results, clears [loading], leaves the error as it is and logs nothing. *)
Theorem handleSubmit_resume_success (s : state) (status : Z) (data c : jval) :
  Http.success_status status = true ->
  get_prop data (js "contexts") = Ret c ->
  handleSubmit_resume (Http.HttpResponse status data) s =
    (mkState (query s) c false (error s), []).
Proof.
  intros Hst Hc. by rewrite (handleSubmit_resume_ok _ _ c (contexts_of_resolved _ _ _ Hst Hc)).
Qed.

(** C4: on a network error, on a status outside 2xx, and on a 2xx body
    that is [null], the continuation sets the fixed error message, clears
    [loading], leaves the results as they are, and logs one exception. *)
Theorem handleSubmit_resume_failure (s : state) (r : Http.reply) :
  r = Http.NetworkError \/
  (exists st d, r = Http.HttpResponse st d /\ Http.success_status st = false) \/
  (exists st, r = Http.HttpResponse st JNull) ->
  exists err, handleSubmit_resume r s =
              (mkState (query s) (results s) false (Some error_message), [err]).
Proof.
  intros Hr. apply handleSubmit_resume_fail, contexts_of_None_iff.
  destruct Hr as [?|[?|(st & ->)]]; [by left | by right; left|].
  destruct (Http.success_status st) eqn:V; [by right; right; eauto 10 | right; left; eauto].
Qed.

End WithClient.

(** ** Witnesses, with axios as the client *)

Lemma handleSubmit_blank_query_witness :
  Forall (fun c => JsString.is_trim_space c = true) (js "  ") /\
  handleSubmit (mkState (js "  ") (JArr [JNull]) false (Some error_message)) =
  (mkState (js "  ") (JArr []) false None, None).
Proof.
  split; [repeat constructor|].
  apply (handleSubmit_blank_query (mkState (js "  ") (JArr [JNull]) false (Some error_message))).
  repeat constructor.
Defined.

Lemma handleSubmit_query_witness :
  Exists (fun c => JsString.is_trim_space c = false) (js " fire extinguisher ") /\
  handleSubmit (mkState (js " fire extinguisher ") (JArr [JNum 1]) false (Some error_message)) =
    (mkState (js " fire extinguisher ") (JArr []) true None,
     Some {| Http.req_method := js "POST";
             Http.req_url := js "http://127.0.0.1:8000/ask";
             Http.req_body := obj [("q"%string, JStr (js " fire extinguisher "));
                                    ("k"%string, JNum 5); ("mode"%string, JStr (js "hybrid"))] |}).
Proof.
  assert (H : Exists (fun c => JsString.is_trim_space c = false) (js " fire extinguisher "))
    by (apply Exists_cons; right; apply Exists_cons; left; reflexivity).
  split; [exact H|].
  exact (handleSubmit_query (mkState (js " fire extinguisher ") (JArr [JNum 1]) false
                                     (Some error_message)) H).
Defined.

Lemma handleSubmit_resume_success_witness :
  Http.success_status 200 = true /\
  get_prop (obj [("contexts"%string, JArr [JNum 1])]) (js "contexts") = Ret (JArr [JNum 1]) /\
  handleSubmit_resume (Http.HttpResponse 200 (obj [("contexts"%string, JArr [JNum 1])])) init =
    (mkState [] (JArr [JNum 1]) false None, []).
Proof.
  split; [reflexivity|]. split; [reflexivity|].
  exact (handleSubmit_resume_success init 200 (obj [("contexts"%string, JArr [JNum 1])]) (JArr [JNum 1]) eq_refl eq_refl).
Defined.

Lemma handleSubmit_resume_failure_witness :
  exists err, handleSubmit_resume (Http.HttpResponse 500 (obj [])) init =
              (mkState [] (JArr []) false (Some error_message), [err]).
Proof.
  apply (handleSubmit_resume_failure init (Http.HttpResponse 500 (obj []))).
  right; left. exists 500%Z, (obj []). split; reflexivity.
Defined.

End QueryView.
