(* ===== verification/Render.v ===== *)
(** * What [App] renders

    The JSX of [App] (lines 38-73) is a function of the state.  [App s]
    evaluates it: the input bound to [query], the submit button disabled
    and relabelled while [loading], the error banner when [error] is a
    nonempty string, and in the results container either one card per
    element of [results] (when [results.length > 0]) or, when not loading,
    the placeholder paragraph.  The evaluation can throw, because
    [results.length], [results.map] and [result.source_title] are read on
    whatever value [results] holds.  The static markup (header, class names,
    placeholder text, link text) is left out of [view].

    React then mounts the elements.  [commit] is the part of that step
    which can fail on the values of this program: a child that is a plain
    object ("Objects are not valid as a React child") and an attribute
    value that cannot be converted to a string.  [display s] is the whole
    rendering: [App s] and then [commit].  When it throws, React 18 (no
    error boundary) unmounts the whole tree. *)

From Stdlib Require Import ZArith NArith String Lia.
From stdpp Require Import base list decidable.
From S2P Require Import Prelude JsString JsValue JsNumber QueryView.

Module Render.
Import QueryView.

(** One result card (lines 60-66): its key and the values given to the
    title, the snippet and the link's [href]. *)
Record card : Type := mkCard {
  card_key : nat;
  card_title : jval;
  card_snippet : jval;
  card_href : jval
}.

(** The content of the results container (lines 57-71). *)
Inductive results_view : Type :=
| Cards (cs : list card)
| Placeholder
| NoContent.

(** The rendered page, minus its static markup. *)
Record view : Type := mkView {
  v_input : jstr;
  v_disabled : bool;
  v_label : jstr;
  v_error : option jstr;
  v_results : results_view
}.

(** The callback given to [results.map] (lines 59-67). *)
Definition render_card (result : jval) (index : nat) : js_res card :=
  title <- get_prop result (js "source_title") ;;
  snippet <- get_prop result (js "text_snippet") ;;
  href <- get_prop result (js "source_url") ;;
  Ret (mkCard index title snippet href).

(** [{error && <div className="error">{error}</div>}] (line 55): shown when
    [error] is truthy, i.e. a nonempty string. *)
Definition error_banner (e : option jstr) : option jstr :=
  match e with
  | Some m => if JsString.str_truthy m then Some m else None
  | None => None
  end.

(** The button label (line 51). *)
Definition button_label (loading : bool) : jstr :=
  if loading then js "Searching..." else js "Search".

(** The results container (lines 58-70). *)
Definition render_results (s : state) : js_res results_view :=
  len <- get_prop (results s) (js "length") ;;
  nonempty <- JsNumber.gt0 len ;;
  if nonempty then
    cs <- call_map (results s) render_card ;;
    Ret (Cards cs)
  else Ret (if loading s then NoContent else Placeholder).

(** The body of [App] after the hooks (lines 38-73). *)
Definition App (s : state) : js_res view :=
  rv <- render_results s ;;
  Ret (mkView (query s) (loading s) (button_label (loading s)) (error_banner (error s)) rv).

(** React's check of a child value: strings, numbers, booleans, null and
    undefined render (the last three as nothing), arrays render their
    elements, plain objects are refused. *)
Fixpoint valid_child (v : jval) : bool :=
  match v with
  | JObj _ => false
  | JArr l => forallb valid_child l
  | _ => true
  end.

(** React's setting of a DOM attribute: null, undefined and booleans remove
    it, any other value is converted with ToString. *)
Definition valid_attribute (v : jval) : bool :=
  match v with
  | JUndefined | JNull | JBool _ => true
  | _ => is_ret (JsNumber.to_string v)
  end.

Definition card_ok (c : card) : bool :=
  valid_child (card_title c) && valid_child (card_snippet c) && valid_attribute (card_href c).

(** Mounting the elements: fails on the first card React refuses. *)
Definition commit (v : view) : js_res view :=
  match v_results v with
  | Cards cs => if forallb card_ok cs then Ret v else Throw ReactInvalidChild
  | _ => Ret v
  end.

(** The whole rendering of a state. *)
Definition display (s : state) : js_res view := v <- App s ;; commit v.

(** Whether the results container mounts. *)
Definition results_ok (rv : results_view) : bool :=
  match rv with
  | Cards cs => forallb card_ok cs
  | _ => true
  end.

(** A result record with string-like fields is rendered as its card. *)
Definition ctx_record (title snippet url : jval) : jval :=
  obj [("source_title"%string, title); ("text_snippet"%string, snippet);
       ("source_url"%string, url)].

(** The card of the [i]-th context of strings [(title, snippet, url)]. *)
Definition string_card (i : nat) (c : jstr * jstr * jstr) : card :=
  let '(t, sn, u) := c in mkCard i (JStr t) (JStr sn) (JStr u).

Definition string_context (c : jstr * jstr * jstr) : jval :=
  let '(t, sn, u) := c in ctx_record (JStr t) (JStr sn) (JStr u).

(** ** Lemmas *)

Lemma render_card_record t sn u i :
  render_card (ctx_record t sn u) i = Ret (mkCard i t sn u).
Proof. reflexivity. Qed.

Lemma render_results_array l s :
  render_results (setResults (JArr l) s) =
  if bool_decide (0 < length l)%nat then
    cs <- omap_idx render_card 0 l ;; Ret (Cards cs)
  else Ret (if loading s then NoContent else Placeholder).
Proof.
  unfold render_results.
  change (get_prop (results (setResults (JArr l) s)) (js "length"))
    with (Ret (JNum (Z.of_nat (length l))) : js_res jval).
  rewrite obind_ret, JsNumber.gt0_length_pos. reflexivity.
Qed.

Lemma App_fields s v :
  App s = Ret v ->
  v_input v = query s /\ v_disabled v = loading s /\
  v_label v = button_label (loading s) /\ v_error v = error_banner (error s).
Proof. unfold App. intros H. inv_obind. by injection H as <-. Qed.

Lemma commit_fields v v' : commit v = Ret v' -> v' = v.
Proof.
  unfold commit. destruct (v_results v); [|by intros [=]..].
  destruct (forallb _ _); by intros [=].
Qed.

Lemma display_is_ret s :
  is_ret (display s) =
  match render_results s with Ret rv => results_ok rv | Throw _ => false end.
Proof.
  unfold display, App. destruct (render_results s) as [rv|e]; [|done].
  simpl. unfold commit. simpl. destruct rv; simpl; [|done..].
  by destruct (forallb card_ok cs).
Qed.

Lemma render_results_ext s s' :
  results s = results s' -> loading s = loading s' -> render_results s = render_results s'.
Proof. intros Hr Hl. unfold render_results. by rewrite Hr, Hl. Qed.

(** Whether the page renders depends only on [results] and [loading]. *)
Lemma display_is_ret_ext s s' :
  results s = results s' -> loading s = loading s' -> is_ret (display s) = is_ret (display s').
Proof. intros Hr Hl. by rewrite !display_is_ret, (render_results_ext s s' Hr Hl). Qed.

(** An empty result list always renders. *)
Lemma display_empty s : results s = JArr [] -> is_ret (display s) = true.
Proof.
  intros Hr. rewrite display_is_ret.
  replace (render_results s) with (render_results (setResults (JArr []) s))
    by (apply render_results_ext; simpl; congruence).
  rewrite render_results_array. simpl. by destruct (loading s).
Qed.

Lemma string_cards_ok i l : forallb card_ok (imap (fun j => string_card (i + j)) l) = true.
Proof.
  revert i. induction l as [|[[t sn] u] l IH]; intros i; [done|].
  rewrite imap_cons. cbn [forallb]. apply andb_true_iff. split; [done|].
  erewrite imap_ext; [apply (IH (S i))|]. intros j ? _. simpl. f_equal. lia.
Qed.

(** The results container when [results] holds an empty array. *)
Lemma display_empty_view s v :
  results s = JArr [] -> display s = Ret v ->
  v_results v = (if loading s then NoContent else Placeholder) /\
  v_error v = error_banner (error s) /\ v_disabled v = loading s.
Proof.
  intros Hr. unfold display, App.
  replace (render_results s) with (render_results (setResults (JArr []) s))
    by (apply render_results_ext; simpl; congruence).
  rewrite render_results_array. simpl.
  destruct (loading s); simpl; by intros [= <-].
Qed.

(** A [results] value of [undefined] or [null] makes the render throw:
    [results.length] reads a property of it. *)
Lemma display_nullish s :
  results s = JUndefined \/ results s = JNull -> is_ret (display s) = false.
Proof. intros Hr. rewrite display_is_ret. unfold render_results. by rewrite get_prop_nullish. Qed.

(** The render of a state holding an array of string records. *)
Lemma display_string_contexts (q : jstr) (l : list (jstr * jstr * jstr)) (e : option jstr) :
  l <> [] ->
  display (mkState q (JArr (map string_context l)) false e) =
  Ret (mkView q false (js "Search") (error_banner e) (Cards (imap string_card l))).
Proof.
  intros Hl. unfold display, App.
  change (mkState q (JArr (map string_context l)) false e)
    with (setResults (JArr (map string_context l)) (mkState q (JArr []) false e)).
  rewrite (render_results_array (map string_context l) (mkState q (JArr []) false e)).
  rewrite length_map. destruct l as [|c l]; [done|]. simpl bool_decide.
  rewrite (omap_idx_map_ret render_card string_context string_card 0 (c :: l));
    [| by intros [[t sn] u] j].
  rewrite !obind_ret. unfold commit. cbn [v_results].
  rewrite (string_cards_ok 0 (c :: l)). reflexivity.
Qed.

(** C9: with the backend's contexts stored as an array of records of
    strings, the page shows exactly one card per context, in the order of
    the array, the [i]-th card keyed [i] and showing the [i]-th record's
    [source_title], [text_snippet] and [source_url]; the input, button and
    error banner are as the state says.  The count is the array's length,
    whatever it is: nothing on the client bounds it by the [k] it sent. *)
Theorem display_contexts (q : jstr) (l : list (jstr * jstr * jstr)) (e : option jstr) :
  l <> [] ->
  display (mkState q (JArr (map string_context l)) false e) =
  Ret (mkView q false (js "Search") (error_banner e) (Cards (imap string_card l))).
Proof. apply display_string_contexts. Qed.

Lemma display_contexts_witness :
  [(js "Doc A", js "...", js "http://x")] <> [] /\
  display (mkState (js "fire extinguisher") (JArr (map string_context [(js "Doc A", js "...", js "http://x")])) false None) =
  Ret (mkView (js "fire extinguisher") false (js "Search") None
              (Cards [mkCard 0 (JStr (js "Doc A")) (JStr (js "...")) (JStr (js "http://x"))])).
Proof.
  split; [discriminate|].
  exact (display_contexts (js "fire extinguisher") [(js "Doc A", js "...", js "http://x")] None
           ltac:(discriminate)).
Defined.

Lemma render_results_non_array s rv :
  (forall l, results s <> JArr l) -> render_results s = Ret rv ->
  rv = Placeholder \/ rv = NoContent.
Proof.
  intros Hna. unfold render_results. intros H. inv_obind.
  destruct a0.
  - pose proof (call_map_non_array (results s) render_card Hna) as Hm.
    destruct (call_map (results s) render_card); [discriminate | done].
  - injection H as <-. destruct (loading s); auto.
Qed.

(** C14: when [results] holds anything but an array (the backend sent
    [contexts] as a string, a number, an object, ...), the page never shows
    a result card; and when it is a non-empty string, [results.length > 0]
    holds and [results.map] is not a function, so the render throws. *)
Theorem non_array_results_show_no_card (s : state) :
  (forall l, results s <> JArr l) ->
  (forall v, display s = Ret v -> forall cs, v_results v <> Cards cs) /\
  (forall str, results s = JStr str -> str <> [] -> is_ret (display s) = false).
Proof.
  intros Hna. split.
  - intros v Hv cs. unfold display, App in Hv. inv_obind.
    injection Ha as <-. apply commit_fields in Hv as ->. simpl.
    destruct (render_results_non_array s a0 Hna Ha0) as [-> | ->]; discriminate.
  - intros str Hs Hne. rewrite display_is_ret. unfold render_results. rewrite Hs.
    change (get_prop (JStr str) (js "length")) with (Ret (JNum (Z.of_nat (length str))) : js_res jval).
    rewrite obind_ret, JsNumber.gt0_length_pos, bool_decide_eq_true_2; [done|].
    destruct str; [done | simpl; lia].
Qed.

Lemma render_card_key x i c : render_card x i = Ret c -> card_key c = i.
Proof. unfold render_card. intros H. inv_obind. by injection H as <-. Qed.

(** The cards of a render are those [results.map] returned. *)
Lemma display_cards s v cs :
  display s = Ret v -> v_results v = Cards cs ->
  exists l, results s = JArr l /\ omap_idx render_card 0 l = Ret cs.
Proof.
  unfold display, App. intros Hv Hcs. inv_obind. injection Ha as <-. apply commit_fields in Hv as ->.
  simpl in Hcs. subst a0. unfold render_results in Ha0. inv_obind.
  destruct a0; [|by destruct (loading s)].
  destruct (results s) as [| | | | | |l|]; simpl in Ha0; try discriminate.
  inv_obind. injection Ha0 as ->. eauto.
Qed.

(** C22: React's keys are distinct: every list of cards the page renders
    is keyed [0, 1, ..., n-1], the index [results.map] passes to its
    callback, whatever the backend sent. *)
Theorem card_keys_are_indices (s : state) (v : view) (cs : list card) :
  display s = Ret v -> v_results v = Cards cs ->
  map card_key cs = seq 0 (length cs) /\ NoDup (map card_key cs).
Proof.
  intros Hv Hcs. destruct (display_cards s v cs Hv Hcs) as (l & _ & Hl).
  assert (Hk : map card_key cs = seq 0 (length cs)) by exact (omap_idx_index _ _ _ _ _ render_card_key Hl).
  split; [done|]. rewrite Hk. apply NoDup_seq.
Qed.

Lemma non_array_results_show_no_card_witness :
  (forall l, results (mkState [] (JStr (js "abc")) false None) <> JArr l) /\
  is_ret (display (mkState [] (JStr (js "abc")) false None)) = false.
Proof.
  assert (H : forall l, results (mkState [] (JStr (js "abc")) false None) <> JArr l)
    by discriminate.
  split; [exact H|].
  apply (proj2 (non_array_results_show_no_card _ H) (js "abc")); [reflexivity | discriminate].
Defined.

Lemma card_keys_are_indices_witness :
  let s := mkState (js "q") (JArr (map string_context [(js "A", js "a", js "x"); (js "B", js "b", js "y")])) false None in
  map card_key (imap string_card [(js "A", js "a", js "x"); (js "B", js "b", js "y")]) = [0; 1]%nat /\
  NoDup (map card_key (imap string_card [(js "A", js "a", js "x"); (js "B", js "b", js "y")])).
Proof.
  intros s.
  destruct (card_keys_are_indices s _ (imap string_card [(js "A", js "a", js "x"); (js "B", js "b", js "y")])
              ltac:(vm_compute; reflexivity) eq_refl) as [Hk Hnd].
  split; [exact Hk | exact Hnd].
Defined.

End Render.

#[export] Hint Resolve Render.display_empty : rag.
