(* ===== verification/Runtime.v ===== *)
(** * The page at run time: events, in-flight requests, rendering

    The browser drives [App] with three kinds of event: typing in the input
    ([Input v], the [onChange] of line 47), submitting the form ([Submit],
    line 43), and the network delivering the reply to an in-flight request
    ([Settle id r], which runs the continuation of [handleSubmit] after its
    [await]).  A [world] holds the component's state, whether React still
    has the tree mounted, the requests in flight, every request sent, and
    what [console.error] printed.  After each event React renders the new
    state ([rerender]); a render that throws unmounts the tree, after which
    state updates are ignored (a continuation still runs and still logs).

    [step g w ev] is one event, [None] when the event cannot happen.  The
    flag [g] says whether submissions go through the browser's form (the
    button is disabled while [loading], which blocks both the click and the
    implicit submission by Enter), or may also come from script
    ([form.requestSubmit()]), which ignores the disabled button.  Events
    interleave freely: replies arrive in any order, which is how the network
    behaves.  [guarded_inv] is the invariant of the page when submissions
    go through the form, preserved by every event ([guarded_inv_step]);
    runs and the reachable worlds are in [PageProperties]. *)

From Stdlib Require Import ZArith NArith String Lia.
From stdpp Require Import base list decidable.
From S2P Require Import Prelude JsString JsValue Http Axios QueryView Render.

Module Runtime.
Import QueryView Render.

Record world : Type := mkWorld {
  app : state;
  mounted : bool;
  pending : list nat;
  next_id : nat;
  sent : list (nat * Http.request);
  console : list exn
}.

(** The page after its first render. *)
Definition init : world := mkWorld QueryView.init true [] 0 [] [].

Inductive event : Type :=
| Input (value : jstr)
| Submit
| Settle (id : nat) (r : Http.reply).

(** A page that has sent "valid" and waits for the reply. *)
Definition w_waiting : world :=
  mkWorld (mkState (js "valid") (JArr []) true None) true [0] 1
          [(0, ask_request (js "valid"))] [].

(** The page runs with any client meeting the contract [Http.Client]. *)
Section WithClient.
Context {HC : Http.Client}.

Definition set_app (s : state) (w : world) : world :=
  mkWorld s (mounted w) (pending w) (next_id w) (sent w) (console w).

(** React renders after the event's updates; a throw unmounts the tree. *)
Definition rerender (w : world) : world :=
  if mounted w && negb (is_ret (display (app w))) then
    mkWorld (app w) false (pending w) (next_id w) (sent w) (console w)
  else w.

(** The submit button is enabled: the form can be submitted by the user. *)
Definition submit_enabled (w : world) : bool := negb (loading (app w)).

(** The [Submit] event: the first half of [handleSubmit], and the request
    put in flight under a fresh id when one is sent. *)
Definition do_submit (w : world) : world :=
  let '(s, req) := handleSubmit (app w) in
  match req with
  | None => set_app s w
  | Some rq =>
      mkWorld s (mounted w) (next_id w :: pending w) (S (next_id w))
              ((next_id w, rq) :: sent w) (console w)
  end.

(** The [Settle id r] event: the second half of [handleSubmit] on the
    current state; its updates are dropped once the tree is unmounted. *)
Definition do_settle (id : nat) (r : Http.reply) (w : world) : world :=
  let '(s, logged) := handleSubmit_resume r (app w) in
  mkWorld (if mounted w then s else app w) (mounted w)
          (filter (fun j => j <> id) (pending w)) (next_id w) (sent w)
          (console w ++ logged).

Definition step (g : bool) (w : world) (ev : event) : option world :=
  match ev with
  | Input v =>
      if mounted w then Some (rerender (set_app (handleChange v (app w)) w)) else None
  | Submit =>
      if mounted w && (negb g || submit_enabled w) then Some (rerender (do_submit w))
      else None
  | Settle id r =>
      if bool_decide (id ∈ pending w) then Some (rerender (do_settle id r w)) else None
  end.

(** ** The invariant of the page when submissions go through the form *)

Record guarded_inv (w : world) : Prop := {
  gi_display : mounted w = true -> is_ret (display (app w)) = true;
  gi_unmounted : mounted w = false -> pending w = [];
  gi_loading : loading (app w) = true <-> pending w <> [];
  gi_single : length (pending w) <= 1;
  gi_loading_clean : loading (app w) = true -> error (app w) = None /\ results (app w) = JArr [];
  gi_error : error (app w) <> None -> error (app w) = Some error_message /\ results (app w) = JArr []
}.

(** ** Basic lemmas *)

Lemma rerender_app w : app (rerender w) = app w.
Proof. unfold rerender. by destruct (_ && _). Qed.

Lemma rerender_pending w : pending (rerender w) = pending w.
Proof. unfold rerender. by destruct (_ && _). Qed.

Lemma rerender_sent w : sent (rerender w) = sent w.
Proof. unfold rerender. by destruct (_ && _). Qed.

Lemma rerender_console w : console (rerender w) = console w.
Proof. unfold rerender. by destruct (_ && _). Qed.

Lemma rerender_next_id w : next_id (rerender w) = next_id w.
Proof. unfold rerender. by destruct (_ && _). Qed.

Lemma rerender_mounted w :
  mounted (rerender w) = mounted w && is_ret (display (app w)).
Proof. unfold rerender. destruct (mounted w) eqn:E, (is_ret (display (app w))); simpl; auto. Qed.

(** What a step can be: the inversion of [step]. *)
Lemma step_inv g w ev w' :
  step g w ev = Some w' ->
  (exists v, ev = Input v /\ mounted w = true /\ w' = rerender (set_app (handleChange v (app w)) w)) \/
  (ev = Submit /\ mounted w = true /\ (g = false \/ submit_enabled w = true) /\
   w' = rerender (do_submit w)) \/
  (exists id r, ev = Settle id r /\ id ∈ pending w /\ w' = rerender (do_settle id r w)).
Proof.
  destruct ev as [v| |id r]; simpl.
  - destruct (mounted w); [intros [= <-] | discriminate]. left. eauto.
  - destruct (mounted w) eqn:M, g, (submit_enabled w); simpl; try discriminate;
      intros [= <-]; right; left; auto.
  - case_bool_decide as Hin; [intros [= <-] | discriminate]. right; right. eauto.
Qed.

(** A render that cannot throw changes nothing. *)
Lemma rerender_id w :
  (mounted w = true -> is_ret (display (app w)) = true) -> rerender w = w.
Proof.
  unfold rerender. intros H. destruct (mounted w); simpl; [|done].
  by rewrite H.
Qed.

Lemma rerender_displays w :
  mounted (rerender w) = true -> is_ret (display (app (rerender w))) = true.
Proof.
  rewrite rerender_mounted, rerender_app. by intros [_ ?]%andb_prop.
Qed.

(** ** Preservation of the invariant *)

(** Under the invariant, a reply can only come for the one request in
    flight, on a mounted page that is loading with a clean state. *)
Lemma guarded_settle_facts w id :
  guarded_inv w -> id ∈ pending w ->
  pending w = [id] /\ mounted w = true /\ loading (app w) = true /\
  error (app w) = None /\ results (app w) = JArr [].
Proof.
  intros [Hd Hu Hl Hs Hc He] Hin.
  assert (Hp : pending w = [id]).
  { destruct (pending w) as [|j [|k p]]; simpl in *; [by apply not_elem_of_nil in Hin | | lia].
    by apply list_elem_of_singleton in Hin as ->. }
  assert (Hm : mounted w = true).
  { destruct (mounted w) eqn:M; [done|]. rewrite (Hu eq_refl) in Hp. discriminate. }
  assert (Hload : loading (app w) = true) by (apply Hl; congruence).
  destruct (Hc Hload). auto.
Qed.

Lemma filter_neq_single (id : nat) : filter (fun j => j <> id) [id] = [].
Proof. by rewrite filter_cons_False by naive_solver. Qed.

Lemma guarded_inv_init : guarded_inv init.
Proof. split; simpl; (done || lia). Qed.

Lemma guarded_inv_input w v : guarded_inv w -> mounted w = true ->
  guarded_inv (rerender (set_app (handleChange v (app w)) w)).
Proof.
  intros [Hd Hu Hl Hs Hc He] Hm. rewrite rerender_id; simpl.
  - split; simpl; auto. intros _. rewrite <- (Hd Hm). by apply display_is_ret_ext.
  - intros _. rewrite <- (Hd Hm). by apply display_is_ret_ext.
Qed.

Lemma guarded_inv_submit w : guarded_inv w -> mounted w = true -> submit_enabled w = true ->
  guarded_inv (rerender (do_submit w)).
Proof.
  intros [Hd Hu Hl Hs Hc He] Hm Hen. unfold submit_enabled in Hen. apply negb_true_iff in Hen.
  assert (Hp : pending w = []).
  { destruct (pending w) eqn:E; [done|]. rewrite Hen in Hl.
    assert (false = true) by (apply Hl; congruence). discriminate. }
  unfold do_submit. destruct (handleSubmit (app w)) as [s' [rq|]] eqn:E.
  - apply handleSubmit_sends in E as (_ & _ & ->).
    rewrite rerender_id by eauto with rag.
    split; simpl; rewrite ?Hp; try done; intros; first [by apply display_empty | congruence | lia].
  - apply handleSubmit_no_request in E as (_ & ->).
    rewrite rerender_id by eauto with rag.
    split; simpl; rewrite ?Hp; try done; intros; first [by apply display_empty | congruence | lia].
Qed.

Lemma guarded_inv_settle w id r : guarded_inv w -> id ∈ pending w ->
  guarded_inv (rerender (do_settle id r w)).
Proof.
  intros Hi Hin. destruct (guarded_settle_facts w id Hi Hin) as (Hp & Hm & _ & Herr & Hres).
  pose proof (handleSubmit_resume_cases r (app w)) as (Hl' & _ & Hcase).
  unfold do_settle. destruct (handleSubmit_resume r (app w)) as [s' logged]. simpl in *.
  rewrite Hm, Hp, filter_neq_single.
  split; [apply rerender_displays|..]; rewrite ?rerender_app, ?rerender_pending; simpl; try done.
  - rewrite Hl'. split; [discriminate | done].
  - lia.
  - by rewrite Hl'.
  - destruct Hcase as [(_ & ->) | (_ & -> & ->)]; [by rewrite Herr | done].
Qed.

Lemma guarded_inv_step w ev w' :
  guarded_inv w -> step true w ev = Some w' -> guarded_inv w'.
Proof.
  intros Hi Hs.
  destruct (step_inv _ _ _ _ Hs) as [(v & -> & Hm & ->) | [(-> & Hm & [? | Hen] & ->) | (id & r & -> & Hin & ->)]].
  - by apply guarded_inv_input.
  - discriminate.
  - by apply guarded_inv_submit.
  - by apply guarded_inv_settle.
Qed.

End WithClient.

#[export] Hint Rewrite rerender_app rerender_pending rerender_sent rerender_console : rag_simpl.

End Runtime.
