(* ===== verification/PageProperties.v ===== *)
(** * Properties of the running page

    The theorems here are about whole runs of [App]: events in any order
    from the first render ([run], and [reachable], the worlds such runs
    reach), with what React shows after each ([Render.display]).  With submissions through the form
    ([reachable true]) they are consequences of [Runtime.guarded_inv]: at
    most one request in flight, a failure shown with the placeholder, a
    reply always returning the page to an interactive state, every request
    well formed, and a 2xx reply without usable [contexts] unmounting the
    page.  Without the guard ([reachable false], submissions by script),
    from any page with a request in flight a second submission overlaps
    it: the first reply re-enables the button while the second request is
    pending, and a failed first reply leaves its message above the cards
    of the second. *)

From Stdlib Require Import ZArith NArith String Lia.
From stdpp Require Import base list decidable.
From S2P Require Import Prelude JsString JsValue Http Axios QueryView Render Runtime.

Module PageProperties.
Import QueryView Render Runtime.

(** ** Scenarios *)

(** The page after "valid" was submitted and the backend was unreachable. *)
Definition w_failed : world :=
  mkWorld (mkState (js "valid") (JArr []) false (Some error_message)) true [] 1
          [(0, ask_request (js "valid"))] [AxiosError (Some (js "ERR_NETWORK")) None].

(** ** Helpers *)

Lemma display_fields s v :
  display s = Ret v -> v_error v = error_banner (error s) /\ v_disabled v = loading s.
Proof.
  unfold display. intros H. inv_obind. apply commit_fields in H as ->.
  by destruct (App_fields s a Ha) as (_ & -> & _ & ->).
Qed.

Lemma error_banner_some e m : error_banner e = Some m -> e = Some m.
Proof. destruct e as [e|]; simpl; [by destruct (JsString.str_truthy e); intros [=->] | done]. Qed.

Section WithClient.
Context {HC : Http.Client}.

(** A run of events from a world. *)
Fixpoint run (g : bool) (w : world) (evs : list event) : option world :=
  match evs with
  | [] => Some w
  | ev :: evs' => w' ← step g w ev; run g w' evs'
  end.

Inductive reachable (g : bool) : world -> Prop :=
| reachable_init : reachable g init
| reachable_step w ev w' : reachable g w -> step g w ev = Some w' -> reachable g w'.

(** A reply that makes the continuation throw. *)
Definition failed_reply (ev : event) : bool :=
  match ev with
  | Settle _ r => match contexts_of r with Some _ => false | None => true end
  | _ => false
  end.

(** The number of such replies among a list of events. *)
Definition failed_replies (evs : list event) : nat :=
  length (filter (fun ev => failed_reply ev = true) evs).

Lemma run_reachable g w evs w' :
  reachable g w -> run g w evs = Some w' -> reachable g w'.
Proof.
  revert w. induction evs as [|ev evs IH]; simpl; intros w Hw.
  - by intros [= <-].
  - destruct (step g w ev) as [w1|] eqn:E; simpl; [|discriminate].
    intros Hrun. eapply IH; [|exact Hrun]. by eapply reachable_step.
Qed.

Lemma guarded_inv_reachable w : reachable true w -> guarded_inv w.
Proof.
  induction 1 as [|w ev w' _ IH Hstep]; [apply guarded_inv_init|].
  by eapply guarded_inv_step.
Qed.

(** ** With the form guard *)

(** C5: when submissions go through the form, at most one request is ever
    in flight, and the submit button the page shows is disabled exactly
    while one is. *)
Theorem one_request_in_flight (w : world) :
  reachable true w ->
  length (pending w) <= 1 /\
  forall v, display (app w) = Ret v -> (v_disabled v = true <-> pending w <> []).
Proof.
  intros Hr. destruct (guarded_inv_reachable w Hr) as [_ _ Hl Hs _ _].
  split; [done|]. intros v Hv. by rewrite (proj2 (display_fields _ _ Hv)).
Qed.

(** C6: when submissions go through the form, whenever the page shows an
    error banner, it is the fixed message, the button is enabled, and the
    results container shows the "No results found or waiting for a query"
    placeholder: no result card is ever shown with an error, and the
    placeholder is not suppressed by the error. *)
Theorem error_view_shows_placeholder (w : world) (v : view) :
  reachable true w -> display (app w) = Ret v -> v_error v <> None ->
  v_error v = Some error_message /\ v_results v = Placeholder /\ v_disabled v = false.
Proof.
  intros Hr Hv Hev. destruct (guarded_inv_reachable w Hr) as [_ _ _ _ Hc He].
  destruct (display_fields _ _ Hv) as [Hve Hvd].
  destruct (v_error v) as [m|] eqn:Em; [|done].
  symmetry in Hve. apply error_banner_some in Hve.
  destruct He as [Herr Hres]; [congruence|].
  assert (Hl : loading (app w) = false).
  { destruct (loading (app w)) eqn:L; [|done]. destruct (Hc eq_refl). congruence. }
  destruct (display_empty_view _ _ Hres Hv) as (-> & Hbanner & _).
  rewrite Hl. rewrite Herr in Hve. split; [congruence | split; congruence].
Qed.

(** C8: when submissions go through the form, from any reachable page and
    for any reply to the request in flight (network error, any status, any
    body), the reply is processed, nothing stays in flight, [loading] is
    cleared, and if the page is still mounted the form can be submitted
    again. *)
Theorem reply_restores_interaction (w : world) (id : nat) (r : Http.reply) :
  reachable true w -> id ∈ pending w ->
  exists w', step true w (Settle id r) = Some w' /\ pending w' = [] /\
             loading (app w') = false /\ (mounted w' = true -> step true w' Submit <> None).
Proof.
  intros Hr Hin. pose proof (guarded_inv_reachable w Hr) as Hi.
  destruct (guarded_settle_facts w id Hi Hin) as (Hp & Hm & _).
  exists (rerender (do_settle id r w)). simpl. rewrite bool_decide_eq_true_2 by done.
  pose proof (handleSubmit_resume_cases r (app w)) as (Hl' & _).
  assert (Hl2 : loading (app (rerender (do_settle id r w))) = false).
  { rewrite rerender_app. unfold do_settle. destruct (handleSubmit_resume r (app w)).
    simpl in *. by rewrite Hm. }
  split; [done|]. split; [|split; [done|]].
  - rewrite rerender_pending. unfold do_settle. destruct (handleSubmit_resume r (app w)).
    simpl. by rewrite Hp, filter_neq_single.
  - intros Hm'. simpl. unfold submit_enabled. by rewrite Hm', Hl2.
Qed.

(** A 2xx reply whose [contexts] is nullish: the next render throws and
    React unmounts the page, with no message and nothing logged. *)
Lemma settle_nullish_unmounts (w : world) (id : nat) (status : Z) (data c : jval) :
  reachable true w -> id ∈ pending w -> Http.success_status status = true ->
  get_prop data (js "contexts") = Ret c -> c = JUndefined \/ c = JNull ->
  exists w', step true w (Settle id (Http.HttpResponse status data)) = Some w' /\
             mounted w' = false /\ error (app w') = None /\ console w' = console w.
Proof.
  intros Hr Hin Hst Hc Hn. pose proof (guarded_inv_reachable w Hr) as Hi.
  destruct (guarded_settle_facts w id Hi Hin) as (_ & Hm & _ & Herr & _).
  pose proof (handleSubmit_resume_ok _ (app w) _ (contexts_of_resolved _ _ _ Hst Hc)) as Hres.
  exists (rerender (do_settle id (Http.HttpResponse status data) w)).
  split; [simpl; by rewrite bool_decide_eq_true_2 by done|].
  unfold do_settle; rewrite Hres, Hm; unfold rerender; cbn [mounted app andb].
  rewrite display_nullish by (simpl; destruct Hn; subst; auto). simpl; by rewrite Herr, app_nil_r.
Qed.

(** A 2xx reply whose [contexts] is an array of string records: the page
    stays mounted with nothing in flight and shows one card per record. *)
Lemma settle_string_contexts (w : world) (id : nat) (status : Z) (l : list (jstr * jstr * jstr)) :
  reachable true w -> id ∈ pending w -> Http.success_status status = true -> l <> [] ->
  exists w', step true w (Settle id (Http.HttpResponse status
                                      (obj [("contexts"%string, JArr (map string_context l))]))) = Some w' /\
             mounted w' = true /\ pending w' = [] /\ sent w' = sent w /\
             display (app w') =
               Ret (mkView (query (app w)) false (js "Search") None (Cards (imap string_card l))).
Proof.
  intros Hr Hin Hst Hl. pose proof (guarded_inv_reachable w Hr) as Hi.
  destruct (guarded_settle_facts w id Hi Hin) as (Hp & Hm & _ & Herr & _).
  assert (Hc : contexts_of (Http.HttpResponse status (obj [("contexts"%string, JArr (map string_context l))])) =
               Some (JArr (map string_context l))) by (by apply contexts_of_resolved).
  eexists. split; [simpl; by rewrite bool_decide_eq_true_2|].
  unfold do_settle. rewrite (handleSubmit_resume_ok _ (app w) _ Hc), Hm, Hp.
  destruct (app w) as [q0 r0 l0 e0]. simpl in Herr |- *. subst e0.
  pose proof (display_string_contexts q0 l None Hl) as Hd.
  unfold rerender, setLoading, setResults. cbn [mounted app query results loading error]. rewrite Hd.
  split; [done|]. split; [simpl; rewrite filter_cons_False; [done | by intros Hne]|]. by split.
Qed.

(** C10: when the request resolves with a 2xx status but the body has no
    usable [contexts] (a body that is not JSON, a JSON object without the
    member, or [contexts: null]), [results] becomes [undefined] or [null],
    the next render throws on [results.length], and React unmounts the
    page: no error message is set and nothing is logged. *)
Theorem missing_contexts_unmounts_page (w : world) (id : nat) (status : Z) (data : jval) :
  reachable true w -> id ∈ pending w -> Http.success_status status = true ->
  get_prop data (js "contexts") = Ret JUndefined \/ get_prop data (js "contexts") = Ret JNull ->
  exists w', step true w (Settle id (Http.HttpResponse status data)) = Some w' /\
             mounted w' = false /\ error (app w') = None /\ console w' = console w.
Proof. intros Hr Hin Hst [Hc|Hc]; eapply settle_nullish_unmounts; eauto. Qed.

(** C23: the query text can change under a request in flight: with the
    request for [q] pending, the user may type any [v] (the input is not
    disabled), and when the reply arrives its cards are shown under the
    input [v], with no sign that they answer [q]. *)
Theorem reply_shown_under_edited_query (w : world) (id : nat) (q v : jstr) (status : Z)
    (l : list (jstr * jstr * jstr)) :
  reachable true w -> id ∈ pending w -> (id, ask_request q) ∈ sent w ->
  Http.success_status status = true -> l <> [] ->
  exists w1 w2, step true w (Input v) = Some w1 /\
    step true w1 (Settle id (Http.HttpResponse status (obj [("contexts"%string, JArr (map string_context l))]))) = Some w2 /\
    (id, ask_request q) ∈ sent w2 /\
    display (app w2) = Ret (mkView v false (js "Search") None (Cards (imap string_card l))).
Proof.
  intros Hr Hin Hsent Hst Hl. pose proof (guarded_inv_reachable w Hr) as Hi.
  destruct (guarded_settle_facts w id Hi Hin) as (_ & Hm & _ & _ & Hres).
  set (w1 := rerender (set_app (handleChange v (app w)) w)).
  assert (Hs1 : step true w (Input v) = Some w1) by (simpl; by rewrite Hm).
  assert (Hw1 : w1 = set_app (handleChange v (app w)) w).
  { subst w1. unfold rerender. unfold set_app; cbn [mounted app]. rewrite Hm, display_empty by (simpl; done). done. }
  destruct (settle_string_contexts w1 id status l) as (w2 & Hs2 & _ & _ & Hsent2 & Hd);
    [by apply reachable_step with w (Input v) | rewrite Hw1; exact Hin | done | done |].
  exists w1, w2. split; [exact Hs1|]. split; [exact Hs2|]. split; [rewrite Hsent2, Hw1; exact Hsent|].
  rewrite Hd, Hw1. reflexivity.
Qed.

(** ** With or without the guard *)

(** C11: every request the page ever sends, whether submissions come from
    the form or from script, is a POST of [{ q, k: 5, mode: 'hybrid' }] to
    the /ask endpoint for a query that is not blank. *)
Theorem sent_requests_well_formed (g : bool) (w : world) :
  reachable g w ->
  Forall (fun sr => exists q, sr.2 = ask_request q /\ JsString.blank q = false) (sent w).
Proof.
  induction 1 as [|w ev w' _ IH Hstep]; [constructor|].
  destruct (step_inv _ _ _ _ Hstep) as [(v & -> & _ & ->) | [(-> & _ & _ & ->) | (id & r & -> & _ & ->)]];
    autorewrite with rag_simpl; [done | | by unfold do_settle; destruct (handleSubmit_resume r (app w))].
  unfold do_submit. destruct (handleSubmit (app w)) as [s' [rq|]] eqn:E; [|done].
  apply handleSubmit_sends in E as (-> & B & _). constructor; [by exists (query (app w)) | done].
Qed.

Lemma console_run g w0 evs w :
  run g w0 evs = Some w -> length (console w) = length (console w0) + failed_replies evs.
Proof.
  unfold failed_replies. revert w0. induction evs as [|ev evs IH]; intros w0; simpl.
  - intros [= <-]. lia.
  - destruct (step g w0 ev) as [w1|] eqn:E; simpl; [|discriminate]. intros Hrun.
    rewrite (IH w1 Hrun).
    destruct (step_inv _ _ _ _ E) as [(v & -> & _ & ->) | [(-> & _ & _ & ->) | (id & r & -> & _ & ->)]];
      autorewrite with rag_simpl.
    + rewrite filter_cons_False by (intros [=]). done.
    + rewrite filter_cons_False by (intros [=]). unfold do_submit.
      by destruct (handleSubmit (app w0)) as [? [?|]].
    + unfold do_settle. pose proof (handleSubmit_resume_logged r (app w0)) as Hl.
      destruct (handleSubmit_resume r (app w0)) as [s' logged]. simpl in *.
      rewrite length_app, Hl.
      destruct (contexts_of r) eqn:Hc.
      * rewrite filter_cons_False by (simpl; rewrite Hc; intros [=]). lia.
      * rewrite filter_cons_True by (simpl; by rewrite Hc). simpl. lia.
Qed.

(** C15: over any run from the first render, with or without the form
    guard, [console.error] receives exactly one entry per reply that makes
    the continuation throw (a network error, a non-2xx status, a [null]
    body) and none for anything else. *)
Theorem console_logs_failed_replies (g : bool) (evs : list event) (w : world) :
  run g init evs = Some w -> length (console w) = failed_replies evs.
Proof. intros Hrun. by rewrite (console_run g init evs w Hrun). Qed.

(** C16: in every reachable state, with or without the form guard, the
    component's error is either absent or the fixed message: the cause of
    a failure never reaches the page. *)
Theorem error_is_fixed_message (g : bool) (w : world) :
  reachable g w -> error (app w) = None \/ error (app w) = Some error_message.
Proof.
  induction 1 as [|w ev w' _ IH Hstep]; [by left|].
  destruct (step_inv _ _ _ _ Hstep) as [(v & -> & _ & ->) | [(-> & _ & _ & ->) | (id & r & -> & _ & ->)]];
    autorewrite with rag_simpl.
  - exact IH.
  - unfold do_submit. destruct (handleSubmit (app w)) as [s' [rq|]] eqn:E.
    + apply handleSubmit_sends in E as (_ & _ & ->). by left.
    + apply handleSubmit_no_request in E as (_ & ->). by left.
  - unfold do_settle. pose proof (handleSubmit_resume_cases r (app w)) as (_ & _ & Hc).
    destruct (handleSubmit_resume r (app w)) as [s' logged]. simpl in *.
    destruct (mounted w); [|exact IH].
    destruct Hc as [(_ & ->) | (_ & _ & ->)]; [exact IH | by right].
Qed.

(** ** Without the guard: overlapping requests *)

(** Every id in flight is below the next fresh id. *)
Lemma pending_below g w : reachable g w -> Forall (fun j => j < next_id w) (pending w).
Proof.
  induction 1 as [|w ev w' _ IH Hs]; [constructor|].
  destruct (step_inv _ _ _ _ Hs) as [(v & -> & _ & ->) | [(-> & _ & _ & ->) | (id & r & -> & _ & ->)]];
    rewrite rerender_pending, rerender_next_id.
  - exact IH.
  - unfold do_submit. destruct (handleSubmit (app w)) as [s [rq|]]; simpl; [|exact IH].
    constructor; [lia|]. rewrite stdpp.list_relations.list.Forall_forall in *. intros j Hj. specialize (IH j Hj). lia.
  - unfold do_settle. destruct (handleSubmit_resume r (app w)). simpl.
    apply stdpp.list_relations.list.Forall_forall. intros j [_ Hj]%list_elem_of_filter. by apply (proj1 (stdpp.list_relations.list.Forall_forall _ _) IH).
Qed.

(** A submission of a nonblank query on the mounted page, allowed by the
    guard [g]: the request goes out under the next id and the page shows
    the loading state. *)
Lemma step_submit_sends g w :
  mounted w = true -> (g = false \/ submit_enabled w = true) -> JsString.blank (query (app w)) = false ->
  step g w Submit = Some (mkWorld (mkState (query (app w)) (JArr []) true None) true
                           (next_id w :: pending w) (S (next_id w))
                           ((next_id w, ask_request (query (app w))) :: sent w) (console w)).
Proof.
  intros Hm Hg B. cbn [step]. rewrite Hm. replace (negb g || submit_enabled w) with true
    by (destruct Hg as [-> | ->]; [done | by rewrite orb_true_r]).
  unfold do_submit. destruct (handleSubmit (app w)) as [s [rq|]] eqn:E.
  - apply handleSubmit_sends in E as (-> & _ & ->). by rewrite Hm.
  - apply handleSubmit_no_request in E as [B' _]. congruence.
Qed.

(** A failed reply to a request of the mounted page whose [results] is
    empty: the message is set, [loading] cleared, and the page stays
    mounted. *)
Lemma step_settle_fails g w id r :
  id ∈ pending w -> mounted w = true -> results (app w) = JArr [] -> contexts_of r = None ->
  exists logged, step g w (Settle id r) =
    Some (mkWorld (setLoading false (setError (Some error_message) (app w))) true
                  (filter (fun j => j <> id) (pending w)) (next_id w) (sent w) (console w ++ logged)).
Proof.
  intros Hin Hm Hres Hc. destruct (handleSubmit_resume_fail r (app w) Hc) as [err E].
  exists [err]. cbn [step]. rewrite bool_decide_eq_true_2 by done. f_equal.
  unfold do_settle. rewrite E, Hm. apply rerender_id. intros _. apply display_empty.
  by destruct (app w); simpl in *.
Qed.

(** C13: when a second submission can start before the first reply (a
    script calling [form.requestSubmit()], which skips the disabled
    button), then from any page reachable that way with a request in
    flight and a nonblank query, submitting again and then receiving any
    reply to the first request leaves the second request in flight with
    [loading] cleared and the submit button enabled; the page stays mounted
    when that reply fails. *)
Theorem overlap_enables_button_in_flight (w : world) (id : nat) (r : Http.reply) :
  reachable false w -> mounted w = true -> id ∈ pending w -> JsString.blank (query (app w)) = false ->
  exists w1 w2, step false w Submit = Some w1 /\ step false w1 (Settle id r) = Some w2 /\
    next_id w ∈ pending w2 /\ loading (app w2) = false /\ submit_enabled w2 = true /\
    (contexts_of r = None -> mounted w2 = true).
Proof.
  intros Hr Hm Hin B. pose proof (proj1 (stdpp.list_relations.list.Forall_forall _ _) (pending_below _ _ Hr) id Hin) as Hlt.
  eexists _, _. split; [exact (step_submit_sends false w Hm (or_introl eq_refl) B)|].
  cbn [step]. rewrite bool_decide_eq_true_2 by (cbn [pending]; apply elem_of_cons; by right). split; [reflexivity|].
  pose proof (handleSubmit_resume_cases r (mkState (query (app w)) (JArr []) true None)) as (Hl' & _).
  unfold do_settle. destruct (handleSubmit_resume r _) as [s' logged] eqn:E. cbn [fst] in Hl'.
  rewrite rerender_pending, rerender_app, rerender_mounted. cbn [pending app mounted].
  split; [apply list_elem_of_filter; split; [cbv beta in *; lia | apply elem_of_cons; by left]|].
  split; [done|]. split; [unfold submit_enabled; rewrite rerender_app; cbn [app]; by rewrite Hl'|].
  intros Hc. destruct (handleSubmit_resume_fail r (mkState (query (app w)) (JArr []) true None) Hc) as [err E'].
  rewrite E in E'. injection E' as -> _. by apply display_empty.
Qed.

(** C12: in the same situation, when the first reply fails and the second
    brings a nonempty list of contexts, the page shows, under the input,
    the failure message of the first request together with the result
    cards of the second: the reply that arrives last overwrites [results],
    and nothing clears the error the other reply set. *)
Theorem overlap_shows_error_with_results (w : world) (id : nat) (r : Http.reply) (status : Z)
    (l : list (jstr * jstr * jstr)) :
  reachable false w -> mounted w = true -> id ∈ pending w -> JsString.blank (query (app w)) = false ->
  contexts_of r = None -> Http.success_status status = true -> l <> [] ->
  exists w', run false w [Submit; Settle id r;
                          Settle (next_id w) (Http.HttpResponse status
                                                (obj [("contexts"%string, JArr (map string_context l))]))] = Some w' /\
    mounted w' = true /\
    display (app w') = Ret (mkView (query (app w)) false (js "Search") (Some error_message) (Cards (imap string_card l))).
Proof.
  intros Hr Hm Hin B Hc Hst Hl. pose proof (proj1 (stdpp.list_relations.list.Forall_forall _ _) (pending_below _ _ Hr) id Hin) as Hlt.
  cbn [run]. rewrite (step_submit_sends false w Hm (or_introl eq_refl) B). cbn [mbind option_bind].
  destruct (step_settle_fails false (mkWorld (mkState (query (app w)) (JArr []) true None) true
              (next_id w :: pending w) (S (next_id w))
              ((next_id w, ask_request (query (app w))) :: sent w) (console w)) id r)
    as [logged ->]; [cbn [pending]; apply elem_of_cons; by right | done | done | done |]. cbn [mbind option_bind].
  assert (Hc2 : contexts_of (Http.HttpResponse status (obj [("contexts"%string, JArr (map string_context l))])) =
               Some (JArr (map string_context l))) by (by apply contexts_of_resolved).
  cbn [step pending]. rewrite bool_decide_eq_true_2
    by (apply list_elem_of_filter; split; [cbv beta in *; lia | apply elem_of_cons; by left]).
  eexists. split; [reflexivity|]. unfold do_settle. rewrite (handleSubmit_resume_ok _ _ _ Hc2).
  cbn [mounted app]. unfold setLoading, setResults, setError. cbn [query results loading error].
  pose proof (display_string_contexts (query (app w)) l (Some error_message) Hl) as Hd.
  unfold rerender. cbn [mounted app]. rewrite Hd. split; [done|]. exact Hd.
Qed.

End WithClient.

(** ** Witnesses, with axios as the client *)

Lemma reachable_run g evs w : run g init evs = Some w -> reachable g w.
Proof. apply run_reachable. constructor. Qed.

Lemma w_waiting_run : run true init [Input (js "valid"); Submit] = Some w_waiting.
Proof. reflexivity. Qed.

Lemma w_waiting_reachable : reachable true w_waiting.
Proof. apply (reachable_run _ _ _ w_waiting_run). Qed.

Lemma w_failed_run :
  run true init [Input (js "valid"); Submit; Settle 0 Http.NetworkError] = Some w_failed.
Proof. reflexivity. Qed.

Lemma one_request_in_flight_witness :
  length (pending w_waiting) <= 1 /\
  forall v, display (app w_waiting) = Ret v -> (v_disabled v = true <-> pending w_waiting <> []).
Proof. apply (one_request_in_flight w_waiting w_waiting_reachable). Defined.

Lemma error_view_shows_placeholder_witness :
  display (app w_failed) =
    Ret (mkView (js "valid") false (js "Search") (Some error_message) Placeholder) /\
  (Some error_message = Some error_message /\ Placeholder = Placeholder /\ false = false).
Proof.
  assert (Hd : display (app w_failed) =
            Ret (mkView (js "valid") false (js "Search") (Some error_message) Placeholder))
    by reflexivity.
  split; [exact Hd|].
  exact (error_view_shows_placeholder w_failed _ (reachable_run _ _ _ w_failed_run) Hd
           ltac:(discriminate)).
Defined.

Lemma reply_restores_interaction_witness :
  exists w', step true w_waiting (Settle 0 (Http.HttpResponse 500 (obj []))) = Some w' /\
             pending w' = [] /\ loading (app w') = false /\
             (mounted w' = true -> step true w' Submit <> None).
Proof.
  apply (reply_restores_interaction w_waiting 0 _ w_waiting_reachable).
  by apply list_elem_of_singleton.
Defined.

Lemma missing_contexts_unmounts_page_witness :
  exists w', step true w_waiting (Settle 0 (Http.HttpResponse 200 (obj []))) = Some w' /\
             mounted w' = false /\ error (app w') = None /\ console w' = console w_waiting.
Proof.
  apply (missing_contexts_unmounts_page w_waiting 0 200 (obj []) w_waiting_reachable).
  - by apply list_elem_of_singleton.
  - reflexivity.
  - left. reflexivity.
Defined.

Lemma reply_shown_under_edited_query_witness :
  exists w1 w2, step true w_waiting (Input (js "other")) = Some w1 /\
    step true w1 (Settle 0 (Http.HttpResponse 200 (obj [("contexts"%string, JArr (map string_context [(js "Doc A", js "...", js "http://x")]))]))) = Some w2 /\
    (0, ask_request (js "valid")) ∈ sent w2 /\
    display (app w2) = Ret (mkView (js "other") false (js "Search") None (Cards (imap string_card [(js "Doc A", js "...", js "http://x")]))).
Proof.
  apply (reply_shown_under_edited_query w_waiting 0 (js "valid") (js "other") 200 _ w_waiting_reachable).
  - by apply list_elem_of_singleton.
  - by apply list_elem_of_singleton.
  - reflexivity.
  - discriminate.
Defined.

Lemma sent_requests_well_formed_witness :
  Forall (fun sr => exists q, sr.2 = ask_request q /\ JsString.blank q = false) (sent w_waiting).
Proof. apply (sent_requests_well_formed true w_waiting w_waiting_reachable). Defined.

Lemma console_logs_failed_replies_witness :
  length (console w_failed) = failed_replies [Input (js "valid"); Submit; Settle 0 Http.NetworkError].
Proof. exact (console_logs_failed_replies true _ w_failed w_failed_run). Defined.

Lemma error_is_fixed_message_witness :
  error (app w_failed) = None \/ error (app w_failed) = Some error_message.
Proof. exact (error_is_fixed_message true w_failed (reachable_run _ _ _ w_failed_run)). Defined.

Lemma overlap_enables_button_in_flight_witness :
  exists w1 w2, step false w_waiting Submit = Some w1 /\ step false w1 (Settle 0 Http.NetworkError) = Some w2 /\
    next_id w_waiting ∈ pending w2 /\ loading (app w2) = false /\ submit_enabled w2 = true /\
    (contexts_of Http.NetworkError = None -> mounted w2 = true).
Proof.
  apply (overlap_enables_button_in_flight w_waiting 0 Http.NetworkError).
  - exact (reachable_run false [Input (js "valid"); Submit] _ eq_refl).
  - reflexivity.
  - by apply list_elem_of_singleton.
  - reflexivity.
Defined.

Lemma overlap_shows_error_with_results_witness :
  exists w', run false w_waiting [Submit; Settle 0 Http.NetworkError;
                                  Settle (next_id w_waiting) (Http.HttpResponse 200
                                    (obj [("contexts"%string, JArr (map string_context [(js "Doc A", js "...", js "http://x")]))]))] = Some w' /\
    mounted w' = true /\
    display (app w') = Ret (mkView (query (app w_waiting)) false (js "Search") (Some error_message)
                                   (Cards (imap string_card [(js "Doc A", js "...", js "http://x")]))).
Proof.
  apply (overlap_shows_error_with_results w_waiting 0 Http.NetworkError 200).
  - exact (reachable_run false [Input (js "valid"); Submit] _ eq_refl).
  - reflexivity.
  - by apply list_elem_of_singleton.
  - reflexivity.
  - reflexivity.
  - reflexivity.
  - discriminate.
Defined.

End PageProperties.
