(* ===== verification/Refinement.v ===== *)
(** * The view's contract and the refinement of it by the page

    The design document describes the query view as a state machine over
    [Idle], [Loading], [Success] (the result items) and [Failure] (the
    fixed message) (section 4.1): a submission of a blank query goes back
    to [Idle], any other enters [Loading], and the pending request ends in
    [Success] or [Failure].  [Spec] states that contract on its own terms,
    independently of the code:
    - [decode_body] is the success body of section 6,
      [{ contexts: [{ source_title, text_snippet, source_url }] }] with
      string fields, read into the design's result items;
    - [reply_label] classifies a reply as the design does (sections 4.1
      and 7): a 2xx reply with that body succeeds with its items; a network
      failure, a non-2xx status or a malformed body fails;
    - [phase_view] is the rendering contract of each phase (section 4.1):
      the input, the button (disabled with its loading label exactly while
      loading), the error banner, and the cards in order or the
      placeholder.

    [abs w p] says what the user sees: the page is still mounted and it
    renders exactly [phase_view] of [p].  The refinement
    [page_runs_refine_contract] holds for the runs in which the backend
    keeps the wire contract of section 6 ([conforms]: every 2xx reply has
    the expected body).  The hypothesis cannot be dropped: a 2xx reply with
    another body, which the design calls a Failure, unmounts the page or
    shows the placeholder with no message ([PageProperties] and [Wire]). *)

From Stdlib Require Import ZArith NArith String Lia.
From stdpp Require Import base list decidable.
From S2P Require Import Prelude JsString JsValue Http Axios QueryView Render Runtime PageProperties.

Module Spec.
Import QueryView Render.

(** A result item of the design (section 3): title, snippet, URL. *)
Definition item : Type := jstr * jstr * jstr.

Inductive phase : Type :=
| Idle
| Loading
| Success (items : list item)
| Failure.

Inductive label : Type :=
| LSubmit (q : jstr)
| LResolve (items : list item)
| LReject
| LSilent.

Inductive astep : phase -> label -> phase -> Prop :=
| AStepSubmitBlank p q :
    p <> Loading -> JsString.blank q = true -> astep p (LSubmit q) Idle
| AStepSubmit p q :
    p <> Loading -> JsString.blank q = false -> astep p (LSubmit q) Loading
| AStepResolve items : astep Loading (LResolve items) (Success items)
| AStepReject : astep Loading LReject Failure
| AStepSilent p : astep p LSilent p.

(** Runs of the contract. *)
Inductive asteps : phase -> list label -> phase -> Prop :=
| AStepsNil p : asteps p [] p
| AStepsCons p l p' ls p'' : astep p l p' -> asteps p' ls p'' -> asteps p (l :: ls) p''.

(** A record of the success body: its three members, strings. *)
Definition decode_item (v : jval) : option item :=
  match v with
  | JObj kvs =>
      match assoc_last (js "source_title") kvs, assoc_last (js "text_snippet") kvs,
            assoc_last (js "source_url") kvs with
      | Some (JStr t), Some (JStr sn), Some (JStr u) => Some (t, sn, u)
      | _, _, _ => None
      end
  | _ => None
  end.

Fixpoint decode_items (l : list jval) : option (list item) :=
  match l with
  | [] => Some []
  | x :: l' => i ← decode_item x; its ← decode_items l'; Some (i :: its)
  end.

(** The success body of section 6. *)
Definition decode_body (d : jval) : option (list item) :=
  match d with
  | JObj kvs =>
      match assoc_last (js "contexts") kvs with
      | Some (JArr l) => decode_items l
      | _ => None
      end
  | _ => None
  end.

(** The design's reading of a reply. *)
Definition reply_label (r : Http.reply) : label :=
  match r with
  | Http.NetworkError => LReject
  | Http.HttpResponse st d =>
      if Http.success_status st then
        match decode_body d with Some its => LResolve its | None => LReject end
      else LReject
  end.

(** The backend keeps the wire contract: a 2xx reply has the success body. *)
Definition conforms (r : Http.reply) : Prop :=
  match r with
  | Http.NetworkError => True
  | Http.HttpResponse st d => Http.success_status st = true -> is_Some (decode_body d)
  end.

(** The rendering contract of a phase, for the text [q] in the input. *)
Definition phase_view (q : jstr) (p : phase) : view :=
  match p with
  | Idle | Success [] => mkView q false (js "Search") None Placeholder
  | Loading => mkView q true (js "Searching...") None NoContent
  | Success its => mkView q false (js "Search") None (Cards (imap string_card its))
  | Failure => mkView q false (js "Search") (Some error_message) Placeholder
  end.

End Spec.

Module Refinement.
Import QueryView Render Runtime PageProperties Spec.

(** What the user sees stands for [p]: the page is mounted and shows
    exactly the rendering contract of [p]. *)
Definition abs (w : world) (p : phase) : Prop :=
  mounted w = true /\ display (app w) = Ret (phase_view (query (app w)) p).

(** The component's flags for each phase; [Success] holds the array the
    items were read from. *)
Definition abs_state (s : state) (p : phase) : Prop :=
  match p with
  | Idle => loading s = false /\ error s = None /\ results s = JArr []
  | Loading => loading s = true /\ error s = None /\ results s = JArr []
  | Success its => loading s = false /\ error s = None /\
                  exists l, results s = JArr l /\ decode_items l = Some its
  | Failure => loading s = false /\ error s = Some error_message /\ results s = JArr []
  end.

(** A replied event keeps the wire contract. *)
Definition event_conforms (ev : event) : Prop :=
  match ev with Settle _ r => conforms r | _ => True end.

Section WithClient.
Context {HC : Http.Client}.

(** What an event of the page is for the contract. *)
Definition label_of (w : world) (ev : event) : label :=
  match ev with
  | Input _ => LSilent
  | Submit => LSubmit (query (app w))
  | Settle _ r => reply_label r
  end.

(** The labels of a run of the page: each event seen from the world it
    happens in. *)
Fixpoint run_labels (g : bool) (w : world) (evs : list event) : list label :=
  match evs with
  | [] => []
  | ev :: evs' =>
      label_of w ev ::
      match step g w ev with
      | Some w' => run_labels g w' evs'
      | None => []
      end
  end.

(** ** Lemmas *)

(** [results.map] over records of the success body gives their cards. *)
Lemma render_card_decoded x i c :
  decode_item x = Some c -> render_card x i = Ret (string_card i c).
Proof.
  destruct x as [| | | | | | |kvs]; try discriminate. unfold render_card. simpl.
  destruct (assoc_last (js "source_title") kvs) as [[| | | | |t| |]|]; try discriminate;
  destruct (assoc_last (js "text_snippet") kvs) as [[| | | | |sn| |]|]; try discriminate;
  destruct (assoc_last (js "source_url") kvs) as [[| | | | |u| |]|]; try discriminate.
  by intros [= <-].
Qed.

Lemma render_decoded i l its :
  decode_items l = Some its -> omap_idx render_card i l = Ret (imap (fun j => string_card (i + j)) its).
Proof.
  revert i its. induction l as [|x l IH]; intros i its; simpl; [by intros [= <-]|].
  destruct (decode_item x) as [c|] eqn:Ex; simpl; [|discriminate].
  destruct (decode_items l) as [its'|] eqn:El; simpl; [|discriminate]. intros [= <-].
  rewrite (render_card_decoded x i c Ex), obind_ret, (IH (S i) its' eq_refl), obind_ret.
  simpl. rewrite Nat.add_0_r. do 2 f_equal.
  apply imap_ext. intros j y _. simpl. by rewrite Nat.add_succ_r.
Qed.

(** A state standing for [p] renders the contract of [p]. *)
Lemma abs_state_display s p : abs_state s p -> display s = Ret (phase_view (query s) p).
Proof.
  destruct s as [q r l e]. destruct p as [| |its|]; simpl;
    try (intros (-> & -> & ->); reflexivity).
  intros (-> & -> & l' & -> & Hl). unfold display, App.
  change (render_results (mkState q (JArr l') false None))
    with (render_results (setResults (JArr l') (mkState q (JArr []) false None))).
  rewrite render_results_array, (render_decoded 0 l' its Hl).
  destruct its as [|i its]; destruct l' as [|x l']; try discriminate; [reflexivity| |].
  - simpl in Hl. destruct (decode_item x); simpl in Hl; [|discriminate].
    by destruct (decode_items l').
  - rewrite bool_decide_eq_true_2 by (simpl; lia). rewrite !obind_ret. unfold commit. cbn [v_results].
    rewrite (string_cards_ok 0 (i :: its)). reflexivity.
Qed.

Lemma rerender_abs_state w p : mounted w = true -> abs_state (app w) p -> rerender w = w.
Proof. intros Hm Ha. unfold rerender. by rewrite Hm, (abs_state_display _ _ Ha). Qed.

Lemma abs_state_loading s p : abs_state s p -> loading s = true -> p = Loading.
Proof. destruct p; simpl; intuition congruence. Qed.

Lemma abs_state_not_loading s p : abs_state s p -> loading s = false -> p <> Loading.
Proof. intros H Hl ->. destruct H. congruence. Qed.

(** A rejected reply is a failure for the design too. *)
Lemma reply_label_reject r : contexts_of r = None -> reply_label r = LReject.
Proof.
  intros Hc. destruct r as [|st d]; [done|]. simpl.
  destruct (Http.success_status st) eqn:Hs; [|done].
  destruct (decode_body d) as [its|] eqn:Hd; [|done]. exfalso.
  destruct d as [| | | | | | |kvs]; try discriminate. simpl in Hd.
  destruct (assoc_last (js "contexts") kvs) as [c|] eqn:Ec; [|discriminate].
  rewrite (contexts_of_resolved st (JObj kvs) c Hs) in Hc; [discriminate|]. simpl. by rewrite Ec.
Qed.

(** A resolved reply that keeps the contract carries the items the design
    reads from it. *)
Lemma reply_label_resolve r c : conforms r -> contexts_of r = Some c ->
  exists l its, c = JArr l /\ decode_items l = Some its /\ reply_label r = LResolve its.
Proof.
  intros Hcf Hc. unfold contexts_of in Hc.
  destruct (Http.settle r) as [resp|] eqn:Hs; [|discriminate].
  destruct (Http.settle_ret r resp Hs) as [-> Hst].
  destruct resp as [st d]. simpl in *. destruct (Hcf Hst) as [its Hd]. rewrite Hst, Hd.
  destruct d as [| | | | | | |kvs]; try discriminate. simpl in Hd, Hc.
  destruct (assoc_last (js "contexts") kvs) as [[| | | | | |l|]|]; try discriminate.
  injection Hc as <-. eauto.
Qed.

Lemma refine_submit w p :
  guarded_inv w -> abs_state (app w) p -> mounted w = true -> submit_enabled w = true ->
  exists p', astep p (LSubmit (query (app w))) p' /\ abs_state (app (do_submit w)) p'.
Proof.
  intros Hi Ha Hm Hen. apply negb_true_iff in Hen.
  pose proof (abs_state_not_loading _ _ Ha Hen) as Hp. unfold do_submit.
  destruct (handleSubmit (app w)) as [s' [rq|]] eqn:E.
  - apply handleSubmit_sends in E as (_ & B & ->).
    exists Loading. split; [by apply AStepSubmit | done].
  - apply handleSubmit_no_request in E as (B & ->).
    exists Idle. split; [by apply AStepSubmitBlank | done].
Qed.

Lemma refine_settle w p id r :
  guarded_inv w -> abs_state (app w) p -> id ∈ pending w -> conforms r ->
  exists p', astep p (reply_label r) p' /\ abs_state (app (do_settle id r w)) p'.
Proof.
  intros Hi Ha Hin Hcf. destruct (guarded_settle_facts w id Hi Hin) as (_ & Hm & Hload & Herr & Hres).
  rewrite (abs_state_loading _ _ Ha Hload).
  pose proof (handleSubmit_resume_cases r (app w)) as (Hl' & _ & Hcase).
  unfold do_settle. destruct (handleSubmit_resume r (app w)) as [s' logged]. simpl in *. rewrite Hm.
  destruct Hcase as [(Hc & Herr') | (Hc & Hres' & Herr')].
  - destruct (reply_label_resolve r _ Hcf Hc) as (l & its & Hl & Hd & ->).
    exists (Success its). split; [constructor|]. simpl. rewrite Herr', Herr. eauto.
  - rewrite (reply_label_reject r Hc). exists Failure. split; [constructor|]. simpl.
    by rewrite Hres', Herr', Hres.
Qed.

(** The simulation diagram: from any reachable state standing for [p],
    every event that keeps the contract is a step [p --label--> p'] of
    the contract, and the page stays mounted. *)
Lemma page_step_refines (w w' : world) (ev : event) (p : phase) :
  reachable true w -> mounted w = true -> abs_state (app w) p -> event_conforms ev ->
  step true w ev = Some w' ->
  exists p', astep p (label_of w ev) p' /\ abs_state (app w') p' /\ mounted w' = true.
Proof.
  intros Hr Hm Ha Hev Hs. pose proof (guarded_inv_reachable w Hr) as Hi.
  assert (Hkeep : forall w1 p', mounted w1 = true -> abs_state (app w1) p' ->
                    abs_state (app (rerender w1)) p' /\ mounted (rerender w1) = true)
    by (intros w1 p' Hm1 Ha1; by rewrite (rerender_abs_state w1 p' Hm1 Ha1)).
  destruct (step_inv _ _ _ _ Hs) as [(v & -> & _ & ->) | [(-> & _ & [? | Hen] & ->) | (id & r & -> & Hin & ->)]].
  - exists p. split; [constructor|]. apply Hkeep; [done|]. by destruct p.
  - discriminate.
  - destruct (refine_submit w p Hi Ha Hm Hen) as (p' & Hst & Ha').
    exists p'. split; [done|]. apply Hkeep; [|done]. unfold do_submit. by destruct (handleSubmit (app w)) as [? [?|]].
  - destruct (refine_settle w p id r Hi Ha Hin Hev) as (p' & Hst & Ha').
    exists p'. split; [done|]. apply Hkeep; [|done]. unfold do_settle. by destruct (handleSubmit_resume r (app w)).
Qed.

Lemma run_refines w0 p0 evs w :
  reachable true w0 -> mounted w0 = true -> abs_state (app w0) p0 -> Forall event_conforms evs ->
  run true w0 evs = Some w ->
  exists p, asteps p0 (run_labels true w0 evs) p /\ abs_state (app w) p /\ mounted w = true.
Proof.
  revert w0 p0. induction evs as [|ev evs IH]; intros w0 p0 Hr Hm Ha Hcf; simpl.
  - intros [= <-]. exists p0. split; [constructor | done].
  - destruct (step true w0 ev) as [w1|] eqn:E; simpl; [|discriminate]. intros Hrun.
    apply Forall_cons_iff in Hcf as [Hev Hcf].
    destruct (page_step_refines w0 w1 ev p0 Hr Hm Ha Hev E) as (p1 & Hs & Ha1 & Hm1).
    destruct (IH w1 p1 (reachable_step _ _ _ _ Hr E) Hm1 Ha1 Hcf Hrun) as (p & Hss & Hap).
    exists p. split; [by econstructor | done].
Qed.

(** C7: every run of the page from its first render, with submissions
    through the form and a backend that keeps the wire contract of
    section 6, is a run of the design's state machine from [Idle], with
    the replies classified as the design classifies them; after it the
    page is still mounted and shows exactly what the design's rendering
    contract prescribes for the phase reached (input, button, error
    banner, cards in order or placeholder). *)
Theorem page_runs_refine_contract (evs : list event) (w : world) :
  Forall event_conforms evs -> run true Runtime.init evs = Some w ->
  exists p, asteps Idle (run_labels true Runtime.init evs) p /\ abs w p.
Proof.
  intros Hcf Hrun.
  destruct (run_refines Runtime.init Idle evs w (reachable_init _) eq_refl ltac:(done) Hcf Hrun)
    as (p & Hss & Ha & Hm).
  exists p. split; [done|]. split; [done|]. by apply abs_state_display.
Qed.

End WithClient.

Lemma page_runs_refine_contract_witness :
  let evs := [Input (js "valid"); Submit;
              Settle 0 (Http.HttpResponse 200 (obj [("contexts"%string, JArr [string_context (js "Doc A", js "...", js "http://x")])]))] in
  exists w, run true Runtime.init evs = Some w /\
  exists p, asteps Idle (run_labels true Runtime.init evs) p /\ abs w p.
Proof.
  intros evs. eexists. split; [reflexivity|].
  apply (page_runs_refine_contract evs); [|reflexivity].
  repeat constructor. intros _. vm_compute. eexists. reflexivity.
Defined.

End Refinement.
