(* ===== verification/Wire.v ===== *)
(** * The page on the wire

    What travels between [App.js] and the backend is text.  axios's
    default [transformRequest] writes a plain-object body as
    [JSON.stringify(data)] ([transform_request]); what the network delivers
    is a [raw_reply], a status and the response text, which the default
    [transformResponse] decodes ([transform_response]): with
    [forcedJSONParsing] and [silentJSONParsing] both on, a non-empty text
    is [JSON.parse]d, and when it is not JSON the text itself is kept as
    the data.  [receive] is the reply the page's continuation sees.  This
    file composes that layer with the page: the text sent for any query is read
    by a JSON parser back to [{ q, k: 5, mode: 'hybrid' }]; a 2xx
    reply whose text is not JSON reaches [setResults] as a string and
    unmounts the page; a 2xx reply whose text parses to the backend's
    [{ contexts: [...] }] shows one card per context; a network failure or
    a non-2xx status, whatever the text, shows the fixed message. *)

From Stdlib Require Import ZArith NArith String Lia.
From stdpp Require Import base list decidable.
From S2P Require Import Prelude JsString JsValue JsNumber Json JsonParse JsonRoundtrip.
From S2P Require Import Http Axios QueryView Render Runtime PageProperties.

Module Wire.
Import Json JsonParse QueryView Render Runtime PageProperties.

(** The default [transformRequest] on a plain object:
    [stringifySafely(data)], which is [JSON.stringify(data)]. *)
Definition transform_request (data : jval) : option jstr := stringify data.

(** What the network delivers: no response, or a status and the text of the
    response body ([request.responseText] of the XHR adapter). *)
Inductive raw_reply : Type :=
| RawNetworkError
| RawResponse (status : Z) (text : jstr).

(** The default [transformResponse]: [if (data && isString(data) && ...)
    try { return JSON.parse(data) } catch (e) { if (strictJSONParsing)
    throw ... }; return data].  The empty text is falsy and kept; with
    [silentJSONParsing] a text that is not JSON is kept as well. *)
Definition transform_response (text : jstr) : jval :=
  match text with
  | [] => JStr []
  | _ :: _ => match parse text with Some v => v | None => JStr text end
  end.

(** The reply the awaited promise settles from, its body decoded. *)
Definition receive (r : raw_reply) : Http.reply :=
  match r with
  | RawNetworkError => Http.NetworkError
  | RawResponse status text => Http.HttpResponse status (transform_response text)
  end.

(** The text [JSON.stringify] writes for the body of [ask_request q]:
    [{"q":<q quoted>,"k":5,"mode":"hybrid"}]. *)
Definition ask_body_text (q : jstr) : jstr :=
  [123%N] ++ quote (js "q") ++ [58%N] ++ quote q ++ [44%N] ++ quote (js "k") ++ [58%N] ++ js "5" ++
  [44%N] ++ quote (js "mode") ++ [58%N] ++ quote (js "hybrid") ++ [125%N].

(** The body the backend answers with: [{ contexts: [records] }]. *)
Definition backend_body (l : list (jstr * jstr * jstr)) : jval :=
  obj [("contexts"%string, JArr (map string_context l))].

(** ** Lemmas *)

Lemma transform_request_ask q :
  transform_request (Http.req_body (ask_request q)) = Some (ask_body_text q).
Proof.
  unfold transform_request, stringify, ask_request, Axios.post, obj. cbn [Http.req_body map fst snd].
  rewrite JsonRoundtrip.serialize_obj, JsonRoundtrip.own_members_plain;
    [| rewrite JsonRoundtrip.keys_serialize; apply (bool_decide_unpack _); vm_compute; reflexivity
     | repeat constructor].
  unfold ask_body_text. cbn -[quote JsNumber.number_to_jstr]. rewrite <- !app_assoc. reflexivity.
Qed.

Lemma ask_body_plain q : JsonRoundtrip.plain (Http.req_body (ask_request q)) = true.
Proof. reflexivity. Qed.

Lemma parse_nonempty t v : JsonParse.parse t = Some v -> t <> [].
Proof. by intros Ht ->. Qed.

Lemma transform_response_json text v : JsonParse.parse text = Some v -> transform_response text = v.
Proof. intros Ht. destruct text as [|c text]; [done|]. simpl. by rewrite Ht. Qed.

Lemma transform_response_not_json text :
  JsonParse.parse text = None -> get_prop (transform_response text) (js "contexts") = Ret JUndefined.
Proof. intros Ht. destruct text as [|c text]; [reflexivity|]. simpl. by rewrite Ht. Qed.

(** ** What axios sends *)

(** C17: for every query, including lone surrogates and control
    characters, the body axios sends is the text
    [{"q":<q quoted>,"k":5,"mode":"hybrid"}], and a JSON parser reads it
    back to exactly [{ q: query, k: 5, mode: 'hybrid' }]. *)
Theorem ask_body_roundtrip (q : jstr) :
  transform_request (Http.req_body (ask_request q)) = Some (ask_body_text q) /\
  JsonParse.parse (ask_body_text q) =
    Some (obj [("q"%string, JStr q); ("k"%string, JNum 5); ("mode"%string, JStr (js "hybrid"))]).
Proof.
  split; [apply transform_request_ask|].
  destruct (JsonRoundtrip.serialize_reads _ (ask_body_plain q)) as (t & Ht & _ & Hr).
  change (serialize (Http.req_body (ask_request q))) with (transform_request (Http.req_body (ask_request q))) in Ht.
  rewrite transform_request_ask in Ht. injection Ht as <-.
  destruct (Hr [] ltac:(by intros ? ? [=])) as [f Hf]. rewrite app_nil_r in Hf.
  exact (JsonRoundtrip.parse_at_fuel _ _ f Hf).
Qed.

(** ** What the page does with the reply text *)

(** C18: a 2xx reply whose text is not JSON (an HTML error page from a
    proxy, an empty body, a truncated body) is decoded by axios to the text
    itself and stored by [setResults(response.data.contexts)] as
    [undefined]; the next render throws on [results.length] and React
    unmounts the page, with no error message and nothing logged. *)
Theorem non_json_reply_unmounts_page (w : world) (id : nat) (status : Z) (text : jstr) :
  reachable true w -> id ∈ pending w -> Http.success_status status = true -> JsonParse.parse text = None ->
  exists w', step true w (Settle id (receive (RawResponse status text))) = Some w' /\
             mounted w' = false /\ error (app w') = None /\ console w' = console w.
Proof.
  intros Hr Hin Hst Ht.
  apply (PageProperties.settle_nullish_unmounts w id status _ JUndefined Hr Hin Hst); [|by left].
  by apply transform_response_not_json.
Qed.

(** C19: a 2xx reply whose text parses to the backend's
    [{ contexts: [records of strings] }] leaves the page mounted with
    nothing in flight, and the page shows the query, an enabled Search
    button, no error and one card per context, in order. *)
Theorem json_reply_shows_cards (w : world) (id : nat) (status : Z) (text : jstr)
    (l : list (jstr * jstr * jstr)) :
  reachable true w -> id ∈ pending w -> Http.success_status status = true -> l <> [] ->
  JsonParse.parse text = Some (backend_body l) ->
  exists w', step true w (Settle id (receive (RawResponse status text))) = Some w' /\
             mounted w' = true /\ pending w' = [] /\
             display (app w') =
               Ret (mkView (query (app w)) false (js "Search") None (Cards (imap string_card l))).
Proof.
  intros Hr Hin Hst Hl Ht. cbn [receive]. rewrite (transform_response_json text _ Ht).
  destruct (settle_string_contexts w id status l Hr Hin Hst Hl) as (w' & Hs & Hm & Hp & _ & Hd).
  by exists w'.
Qed.

(** A reply the awaited promise rejects on. *)
Lemma receive_rejected_contexts r :
  match r with RawNetworkError => True | RawResponse st _ => Http.success_status st = false end ->
  contexts_of (receive r) = None.
Proof.
  intros Hr. apply contexts_of_None_iff. destruct r as [|st text]; [by left|].
  right. left. by exists st, (transform_response text).
Qed.

(** C24: the failure scenarios of the design (network rejection, a 500 or
    any other non-2xx status, whatever the reply's text): the reply is
    processed, the page stays mounted with nothing in flight, shows the
    query, an enabled Search button, the fixed message and the
    placeholder, and [console.error] receives one entry. *)
Theorem failed_reply_shows_message (w : world) (id : nat) (r : raw_reply) :
  reachable true w -> id ∈ pending w ->
  match r with RawNetworkError => True | RawResponse st _ => Http.success_status st = false end ->
  exists w', step true w (Settle id (receive r)) = Some w' /\
             mounted w' = true /\ pending w' = [] /\
             display (app w') =
               Ret (mkView (query (app w)) false (js "Search") (Some error_message) Placeholder) /\
             length (console w') = S (length (console w)).
Proof.
  intros Hr Hin Hrej. pose proof (guarded_inv_reachable w Hr) as Hi.
  destruct (guarded_settle_facts w id Hi Hin) as (Hp & Hm & _ & _ & Hres).
  destruct (handleSubmit_resume_fail (receive r) (app w) (receive_rejected_contexts r Hrej)) as [err He].
  eexists. split; [simpl; by rewrite bool_decide_eq_true_2|].
  unfold do_settle. rewrite He, Hm, Hp.
  destruct (app w) as [q0 r0 l0 e0]. simpl in Hres |- *. subst r0.
  assert (Hd : display (setLoading false (setError (Some error_message) (mkState q0 (JArr []) l0 e0))) =
               Ret (mkView q0 false (js "Search") (Some error_message) Placeholder)) by reflexivity.
  unfold rerender. cbn [mounted app]. rewrite Hd.
  split; [done|]. split; [simpl; rewrite filter_cons_False; [done | by intros Hne]|].
  split; [exact Hd|]. simpl. rewrite length_app. simpl. lia.
Qed.

End Wire.

(** ** Witnesses *)

Lemma non_json_reply_unmounts_page_witness :
  exists w', Runtime.step true Runtime.w_waiting
               (Runtime.Settle 0 (Wire.receive (Wire.RawResponse 200 (js "<html>Bad Gateway</html>")))) = Some w' /\
             Runtime.mounted w' = false /\ QueryView.error (Runtime.app w') = None /\
             Runtime.console w' = Runtime.console Runtime.w_waiting.
Proof.
  apply (Wire.non_json_reply_unmounts_page Runtime.w_waiting 0 200 (js "<html>Bad Gateway</html>")
           PageProperties.w_waiting_reachable).
  - by apply list_elem_of_singleton.
  - reflexivity.
  - vm_compute. reflexivity.
Defined.

Lemma json_reply_shows_cards_witness :
  exists w', Runtime.step true Runtime.w_waiting
               (Runtime.Settle 0 (Wire.receive (Wire.RawResponse 200
                  (default [] (Json.stringify (Wire.backend_body [(js "Doc A", js "...", js "http://x")])))))) = Some w' /\
             Runtime.mounted w' = true /\ Runtime.pending w' = [] /\
             Render.display (Runtime.app w') =
               Ret (Render.mkView (js "valid") false (js "Search") None
                      (Render.Cards (imap Render.string_card [(js "Doc A", js "...", js "http://x")]))).
Proof.
  apply (Wire.json_reply_shows_cards Runtime.w_waiting 0 200 _ [(js "Doc A", js "...", js "http://x")]
           PageProperties.w_waiting_reachable).
  - by apply list_elem_of_singleton.
  - reflexivity.
  - discriminate.
  - vm_compute. reflexivity.
Defined.

Lemma failed_reply_shows_message_witness :
  exists w', Runtime.step true Runtime.w_waiting
               (Runtime.Settle 0 (Wire.receive (Wire.RawResponse 500 (js "Internal Server Error")))) = Some w' /\
             Runtime.mounted w' = true /\ Runtime.pending w' = [] /\
             Render.display (Runtime.app w') =
               Ret (Render.mkView (js "valid") false (js "Search") (Some QueryView.error_message) Render.Placeholder) /\
             length (Runtime.console w') = S (length (Runtime.console Runtime.w_waiting)).
Proof.
  apply (Wire.failed_reply_shows_message Runtime.w_waiting 0 (Wire.RawResponse 500 (js "Internal Server Error"))
           PageProperties.w_waiting_reachable).
  - by apply list_elem_of_singleton.
  - reflexivity.
Defined.
