(* ===== verification/Unbatched.v ===== *)
(** * The page under React 17: updates after the await are not batched

    [Runtime] renders once after all the updates of an event, which is what
    React 18 does everywhere (automatic batching).  Under React 17
    ([ReactDOM.render], legacy mode) only the updates inside a React event
    handler are batched; a setter called after [await] renders at once.  A
    render that throws unmounts the tree, and the error is rethrown to the
    caller of the setter ([commitRoot] rethrows the first uncaught error,
    [flushSyncCallbackQueue] lets it through); a setter of an unmounted
    component does nothing.  So in [handleSubmit]'s continuation (lines
    22-35) [setResults], [setError] and [setLoading] each render and may
    throw, with JavaScript's try/catch/finally deciding what runs next.

    [set_sync] is one such setter, [try_sync] and [catch_sync] the try and
    catch blocks, [resume_sync] the continuation, [step_sync] the page with
    it ([Input] and [Submit] run in React event handlers and are those of
    [Runtime]).  The exception the continuation may end with rejects the
    promise [handleSubmit] returns, which nothing awaits: it has no effect
    on the page and is dropped.

    With submissions through the form the two pages accept the same event
    sequences and show the same thing after each; the console differs only
    after a reply whose contexts cannot be rendered, where React 17 lets
    the catch block log the render error (C20, C21). *)

From Stdlib Require Import ZArith NArith String Lia.
From stdpp Require Import base list decidable.
From S2P Require Import Prelude JsString JsValue JsNumber Http Axios QueryView Render Runtime PageProperties.

Module Unbatched.
Import QueryView Render Runtime PageProperties.

Section WithClient.
Context {HC : Http.Client}.

(** A setter called outside a React event handler: the update renders at
    once; a throwing render unmounts the tree and rethrows its error. *)
Definition set_sync (f : state -> state) (w : world) : world * option exn :=
  if mounted w then
    let s := f (app w) in
    match display s with
    | Ret _ => (set_app s w, None)
    | Throw e => (mkWorld s false (pending w) (next_id w) (sent w) (console w), Some e)
    end
  else (w, None).

(** [console.error(err)]. *)
Definition log_error (e : exn) (w : world) : world :=
  mkWorld (app w) (mounted w) (pending w) (next_id w) (sent w) (console w ++ [e]).

(** [await axios.post(...)], then [response.data.contexts] (lines 23-29). *)
Definition settle_contexts (r : Http.reply) : js_res jval :=
  response <- Http.settle r ;;
  get_prop (Http.resp_data response) (js "contexts").

(** The try block: [setResults(response.data.contexts)], which renders. *)
Definition try_sync (r : Http.reply) (w : world) : world * option exn :=
  match settle_contexts r with
  | Ret c => set_sync (setResults c) w
  | Throw err => (w, Some err)
  end.

(** The catch block: [setError(...)], which renders, then
    [console.error(err)] unless [setError] threw. *)
Definition catch_sync (err : exn) (w : world) : world * option exn :=
  let '(w1, thrown) := set_sync (setError (Some error_message)) w in
  match thrown with
  | Some e => (w1, Some e)
  | None => (log_error err w1, None)
  end.

(** [handleSubmit] after its await: try, catch, finally; an exception of
    the finally block replaces the one the catch block let through. *)
Definition resume_sync (r : Http.reply) (w : world) : world * option exn :=
  let '(w1, thrown) := try_sync r w in
  let '(w2, thrown2) := match thrown with
                        | Some err => catch_sync err w1
                        | None => (w1, None)
                        end in
  let '(w3, thrown3) := set_sync finally_block w2 in
  (w3, match thrown3 with Some e => Some e | None => thrown2 end).

(** The [Settle id r] event under React 17. *)
Definition do_settle_sync (id : nat) (r : Http.reply) (w : world) : world :=
  (resume_sync r (mkWorld (app w) (mounted w) (filter (fun j => j <> id) (pending w))
                          (next_id w) (sent w) (console w))).1.

Definition step_sync (g : bool) (w : world) (ev : event) : option world :=
  match ev with
  | Settle id r => if bool_decide (id ∈ pending w) then Some (do_settle_sync id r w) else None
  | _ => step g w ev
  end.

Fixpoint run_sync (g : bool) (w : world) (evs : list event) : option world :=
  match evs with
  | [] => Some w
  | ev :: evs' => w' ← step_sync g w ev; run_sync g w' evs'
  end.

(** The React 17 page and the React 18 page agree: same flag, requests
    and state while mounted; once unmounted, nothing is in flight and the
    React 17 console may hold one more entry, the render error. *)
Definition same_page (w1 w2 : world) : Prop :=
  mounted w1 = mounted w2 /\ pending w1 = pending w2 /\ next_id w1 = next_id w2 /\
  sent w1 = sent w2 /\
  (mounted w2 = true -> app w1 = app w2 /\ console w1 = console w2) /\
  (mounted w2 = false -> pending w2 = [] /\
                         (console w1 = console w2 \/ exists e, console w1 = console w2 ++ [e])).

(** ** Lemmas *)

(** Whether a render throws depends on [results] only. *)
Lemma display_is_ret_results s s' :
  results s = results s' -> is_ret (display s) = is_ret (display s').
Proof.
  intros Hr. rewrite !display_is_ret. unfold render_results. rewrite Hr.
  destruct (get_prop _ _) as [len|]; simpl; [|done].
  destruct (JsNumber.gt0 len) as [[]|]; simpl; [done| |done].
  by destruct (loading s), (loading s').
Qed.

Lemma try_block_settle r s :
  try_block r s = match settle_contexts r with Ret c => Ret (setResults c s) | Throw e => Throw e end.
Proof. unfold try_block, settle_contexts. destruct (Http.settle r); simpl; [|done]. by destruct (get_prop _ _). Qed.

Lemma set_sync_ret f w v : mounted w = true -> display (f (app w)) = Ret v ->
  set_sync f w = (set_app (f (app w)) w, None).
Proof. intros Hm Hd. unfold set_sync. by rewrite Hm, Hd. Qed.

Lemma set_sync_throw f w e : mounted w = true -> display (f (app w)) = Throw e ->
  set_sync f w = (mkWorld (f (app w)) false (pending w) (next_id w) (sent w) (console w), Some e).
Proof. intros Hm Hd. unfold set_sync. by rewrite Hm, Hd. Qed.

Lemma set_sync_unmounted f w : mounted w = false -> set_sync f w = (w, None).
Proof. intros Hm. unfold set_sync. by rewrite Hm. Qed.

Lemma contexts_of_settle r :
  contexts_of r = match settle_contexts r with Ret c => Some c | Throw _ => None end.
Proof. unfold contexts_of, settle_contexts. destruct (Http.settle r); simpl; [|done]. by destruct (get_prop _ _). Qed.

Ltac same_page_done :=
  unfold same_page; cbn; rewrite ?app_nil_r; intuition (eauto || discriminate).

(** The render after [finally] throws exactly when the one after the try
    block's [setResults] does. *)
Lemma display_finally_results c s :
  is_ret (display (finally_block (setResults c s))) = is_ret (display (setResults c s)).
Proof. by apply display_is_ret_results. Qed.

(** A reply to the only request in flight: React 17 and React 18 end in
    the same page. *)
Lemma settle_same_page w id r :
  guarded_inv w -> id ∈ pending w -> same_page (do_settle_sync id r w) (rerender (do_settle id r w)).
Proof.
  intros Hi Hin. destruct (guarded_settle_facts w id Hi Hin) as (Hp & Hm & _ & He & Hr).
  unfold do_settle_sync, do_settle, resume_sync, try_sync, handleSubmit_resume.
  rewrite try_block_settle, Hp, Hm.
  replace (filter (fun j => j <> id) [id]) with (@nil nat) by (rewrite filter_cons_False; [done | by intros Hne]).
  destruct (settle_contexts r) as [c|err] eqn:Ec.
  - pose proof (display_finally_results c (app w)) as Hf.
    destruct (display (setResults c (app w))) as [v|e] eqn:D1;
      destruct (display (finally_block (setResults c (app w)))) as [v'|e'] eqn:D2; try discriminate.
    + cbv beta iota. rewrite (set_sync_ret _ _ v) by done. cbv beta iota.
      rewrite (set_sync_ret _ _ v') by done. unfold rerender. cbn [mounted app]. rewrite D2. same_page_done.
    + cbv beta iota. rewrite (set_sync_throw _ _ e) by done. cbv beta iota. unfold catch_sync.
      rewrite set_sync_unmounted by done. cbv beta iota. rewrite set_sync_unmounted by done.
      unfold rerender. cbn [mounted app]. rewrite D2. same_page_done.
  - assert (Hd1 : is_ret (display (setError (Some error_message) (app w))) = true)
      by (apply display_empty; by rewrite <- Hr).
    assert (Hd2 : is_ret (display (finally_block (setError (Some error_message) (app w)))) = true)
      by (apply display_empty; by rewrite <- Hr).
    destruct (display (setError (Some error_message) (app w))) as [v|e] eqn:D1; [|discriminate].
    destruct (display (finally_block (setError (Some error_message) (app w)))) as [v'|e'] eqn:D2; [|discriminate].
    unfold catch_sync. rewrite (set_sync_ret _ _ v) by done. cbn [log_error].
    rewrite (set_sync_ret _ _ v') by done. unfold catch_block.
    unfold rerender. cbn [mounted app fst]. rewrite D2. same_page_done.
Qed.

Lemma same_page_refl w : guarded_inv w -> same_page w w.
Proof. intros Hi. unfold same_page. intuition. by apply (gi_unmounted w Hi). Qed.

(** While mounted, the two pages are the same world. *)
Lemma same_page_mounted w1 w2 : same_page w1 w2 -> mounted w2 = true -> w1 = w2.
Proof.
  intros (Hm & Hp & Hn & Hs & Hon & _) Hm2. destruct (Hon Hm2) as [Ha Hc].
  destruct w1, w2; simpl in *; congruence.
Qed.

(** Unmounted, neither page accepts an event. *)
Lemma same_page_unmounted w1 w2 ev : same_page w1 w2 -> mounted w2 = false ->
  step_sync true w1 ev = None /\ step true w2 ev = None.
Proof.
  intros (Hm & Hp & _ & _ & _ & Hoff) Hm2. destruct (Hoff Hm2) as [Hnil _].
  destruct ev as [v| |id r]; simpl; rewrite ?Hm, ?Hm2, ?Hp, ?Hnil; [done|done|].
  by rewrite !bool_decide_eq_false_2 by apply not_elem_of_nil.
Qed.

(** One event: both pages accept it or neither does, and they stay the
    same page. *)
Lemma step_same_page w1 w2 ev : same_page w1 w2 -> guarded_inv w2 ->
  match step_sync true w1 ev, step true w2 ev with
  | Some w1', Some w2' => same_page w1' w2' /\ guarded_inv w2'
  | None, None => True
  | _, _ => False
  end.
Proof.
  intros Hs Hi. destruct (mounted w2) eqn:Hm2; [|by destruct (same_page_unmounted w1 w2 ev Hs Hm2) as [-> ->]].
  rewrite (same_page_mounted w1 w2 Hs Hm2).
  destruct ev as [v| |id r]; cbn [step_sync];
    try (destruct (step true w2 _) as [w'|] eqn:E; [|done];
         split; [apply same_page_refl|]; by apply (guarded_inv_step w2 _ w' Hi E)).
  simpl. case_bool_decide as Hin; [|done].
  split; [by apply settle_same_page|].
  apply (guarded_inv_step w2 (Settle id r)); [done|]. simpl. by rewrite bool_decide_eq_true_2.
Qed.

Lemma run_same_page evs w1 w2 : same_page w1 w2 -> guarded_inv w2 ->
  match run_sync true w1 evs, run true w2 evs with
  | Some w1', Some w2' => same_page w1' w2'
  | None, None => True
  | _, _ => False
  end.
Proof.
  revert w1 w2. induction evs as [|ev evs IH]; intros w1 w2 Hs Hi; [done|]. cbn [run_sync run].
  pose proof (step_same_page w1 w2 ev Hs Hi) as Hst.
  destruct (step_sync true w1 ev) as [w1'|], (step true w2 ev) as [w2'|]; simpl; try done.
  destruct Hst as [Hs' Hi']. by apply IH.
Qed.

(** A render of [results] nullish throws on [results.length]. *)
Lemma display_nullish_throw s :
  results s = JUndefined \/ results s = JNull -> display s = Throw (TypeErrorRead (js "length")).
Proof. intros Hr. unfold display, App, render_results. by rewrite get_prop_nullish. Qed.

(** A world the React 17 page reaches is one the React 18 page reaches,
    whenever a request is in flight. *)
Lemma run_sync_in_flight evs w id :
  run_sync true init evs = Some w -> id ∈ pending w -> reachable true w.
Proof.
  intros Hr Hin. pose proof (run_same_page evs init init (same_page_refl _ guarded_inv_init) guarded_inv_init) as H.
  rewrite Hr in H. destruct (run true init evs) as [w2|] eqn:E; [|done].
  assert (Hm : mounted w2 = true).
  { destruct (mounted w2) eqn:Hm; [done|]. destruct H as (_ & Hp & _ & _ & _ & Hoff).
    destruct (Hoff Hm) as [Hnil _]. rewrite Hp, Hnil in Hin. by apply not_elem_of_nil in Hin. }
  rewrite (same_page_mounted w w2 H Hm). apply (run_reachable true init evs); [constructor | done].
Qed.

(** ** React 17 against React 18 *)

(** C20: with submissions through the form, the page under React 17
    (every setter after the await rendering at once, render errors
    rethrown into the try/catch/finally) accepts exactly the event
    sequences the page under React 18 accepts, and after each it is the
    same page: same mounted flag, requests in flight and sent, and while
    mounted the same state and console, hence the same view; once
    unmounted, the React 17 console holds at most one more entry. *)
Theorem unbatched_same_page (evs : list event) :
  match run_sync true init evs, run true init evs with
  | Some w1, Some w2 => same_page w1 w2
  | None, None => True
  | _, _ => False
  end.
Proof. apply run_same_page; [apply same_page_refl|]; apply guarded_inv_init. Qed.

(** C21: under React 17, a 2xx reply without usable [contexts] still
    unmounts the page with no message, but the render error
    ([results.length] of [undefined] or [null]) is rethrown from
    [setResults] into the catch block, which logs it with
    [console.error]: the page's diagnostics depend on React's batching. *)
Theorem unbatched_logs_render_error (evs : list event) (w : world) (id : nat) (status : Z) (data : jval) :
  run_sync true init evs = Some w -> id ∈ pending w -> Http.success_status status = true ->
  get_prop data (js "contexts") = Ret JUndefined \/ get_prop data (js "contexts") = Ret JNull ->
  exists w', step_sync true w (Settle id (Http.HttpResponse status data)) = Some w' /\
             mounted w' = false /\ error (app w') = None /\
             console w' = console w ++ [TypeErrorRead (js "length")].
Proof.
  intros Hrun Hin Hst Hc. pose proof (guarded_inv_reachable w (run_sync_in_flight evs w id Hrun Hin)) as Hi.
  destruct (guarded_settle_facts w id Hi Hin) as (Hp & Hm & _ & He & _).
  assert (Hs : exists c, settle_contexts (Http.HttpResponse status data) = Ret c /\ (c = JUndefined \/ c = JNull)).
  { unfold settle_contexts. rewrite Http.settle_success by done. simpl.
    destruct Hc as [-> | ->]; eauto. }
  destruct Hs as (c & Ec & Hn).
  eexists. split; [simpl; by rewrite bool_decide_eq_true_2|].
  unfold do_settle_sync, resume_sync, try_sync. rewrite Ec, Hm, Hp. cbv beta iota.
  rewrite (set_sync_throw _ _ (TypeErrorRead (js "length"))) by (done || by apply display_nullish_throw).
  cbv beta iota. unfold catch_sync. rewrite set_sync_unmounted by done. cbv beta iota.
  rewrite set_sync_unmounted by done. cbn. by rewrite He.
Qed.

End WithClient.
End Unbatched.

(** ** Witnesses *)

Lemma unbatched_logs_render_error_witness :
  exists w', Unbatched.step_sync true Runtime.w_waiting (Runtime.Settle 0 (Http.HttpResponse 200 (obj []))) = Some w' /\
             Runtime.mounted w' = false /\ QueryView.error (Runtime.app w') = None /\
             Runtime.console w' = Runtime.console Runtime.w_waiting ++ [TypeErrorRead (js "length")].
Proof.
  apply (Unbatched.unbatched_logs_render_error [Runtime.Input (js "valid"); Runtime.Submit]
           Runtime.w_waiting 0 200 (obj [])).
  - reflexivity.
  - by apply list_elem_of_singleton.
  - reflexivity.
  - left. reflexivity.
Defined.
